(** * ynab-automation: record reconciliation and categorisation

    A shallow embedding of the four scripts of the repository
    ([amazon_csv_to_ynab.py], [ynab_apply_csv_categories.py],
    [ynab_import.py], [ynab_cleanup_amazon.py]) and the properties the
    specification states about them.

    Conventions of the embedding.
    - A Python [str] is the list of its code points ([pystr]).
    - The Unicode character database ([unicodedata.category], [str.isspace],
      [str.lower]) is an interface ([UnicodeData]); general statements hold
      for every instance, the worked examples run on [latin_emoji], its
      restriction to Basic Latin and the pictograph blocks.
    - A Python [float] is an IEEE-754 binary64 value ([spec_float] of the
      standard library, with [prec = 53] and [emax = 1024]).
    - A [datetime.date] is its proleptic Gregorian ordinal
      ([date.toordinal()]); [timedelta(days=n)] is the addition of [n]
      wherever the name [timedelta] is bound.
    - A [dict] looked up by key is a [gmap]; a [dict] or [list] whose order
      matters is a list.
    - Code that may raise returns a [res]; [try]/[except] is a match on it. *)

From Stdlib Require Import ZArith NArith Lia SpecFloat Sorted.
From stdpp Require Import base option list gmap strings.

Local Open Scope Z_scope.

(** ** Python values shared by the scripts *)

Module Py.

(** A [str]: the sequence of its code points. *)
Definition pystr : Type := list N.

(** An ASCII literal of the source, as a [str]. *)
Definition py (s : string) : pystr :=
  Ascii.N_of_ascii <$> String.list_ascii_of_string s.

Definition str_eqb (a b : pystr) : bool := bool_decide (a = b).

(** [s.startswith(p)] *)
Fixpoint startswith (s p : pystr) {struct p} : bool :=
  match p, s with
  | [], _ => true
  | _ :: _, [] => false
  | c :: p', d :: s' => N.eqb c d && startswith s' p'
  end.

(** [sub in s] on strings: [sub] occurs in [s] at some offset. *)
Fixpoint str_in (sub s : pystr) : bool :=
  startswith s sub ||
  match s with
  | [] => false
  | _ :: s' => str_in sub s'
  end.

(** [x in l] on a list of strings. *)
Definition list_in (x : pystr) (l : list pystr) : bool :=
  existsb (str_eqb x) l.

(** [s[:n]] *)
Definition slice_to (n : nat) (s : pystr) : pystr := take n s.

(** The part of the Unicode character database the scripts consult. *)
Class UnicodeData := {
  (** [unicodedata.category(c) == "So"] *)
  is_So : N -> bool;
  (** the characters [str.strip()] removes *)
  is_space : N -> bool;
  (** [str.lower()] *)
  lower : pystr -> pystr
}.

Section Strings.
Context `{UnicodeData}.

Fixpoint lstrip (s : pystr) : pystr :=
  match s with
  | [] => []
  | c :: s' => if is_space c then lstrip s' else s
  end.

Definition rstrip (s : pystr) : pystr := rev (lstrip (rev s)).

(** [s.strip()] *)
Definition strip (s : pystr) : pystr := rstrip (lstrip s).
End Strings.

(** The restriction of the database to Basic Latin (with the Latin-1
    controls that count as white space) and to the blocks of pictographs
    U+1F300..U+1F5FF, U+1F600..U+1F64F, U+1F680..U+1F6FF and
    U+1F900..U+1F9FF, all of whose assigned characters outside the skin-tone
    modifiers U+1F3FB..U+1F3FF are in category So. *)
Definition latin_So (c : N) : bool :=
  ((0x1F300 <=? c) && (c <=? 0x1F5FF) && negb ((0x1F3FB <=? c) && (c <=? 0x1F3FF))
   || (0x1F600 <=? c) && (c <=? 0x1F64F)
   || (0x1F680 <=? c) && (c <=? 0x1F6FF)
   || (0x1F900 <=? c) && (c <=? 0x1F9FF))%N.

Definition latin_space (c : N) : bool :=
  ((9 <=? c) && (c <=? 13) || (28 <=? c) && (c <=? 32)
   || (c =? 0x85) || (c =? 0xA0))%N.

Definition latin_lower_char (c : N) : N :=
  (if (65 <=? c) && (c <=? 90) then c + 32 else c)%N.

#[export] Instance latin_emoji : UnicodeData := {|
  is_So := latin_So;
  is_space := latin_space;
  lower := fun s => latin_lower_char <$> s
|}.

(** Exceptions the scripts meet. *)
Inductive exn : Type :=
| ValueError
| OverflowError
| IndexError
| AttributeError
| ApiException
| JSONDecodeError
| UnboundLocalError.

(** The outcome of code that may raise. *)
Inductive res (A : Type) : Type :=
| Ok (a : A)
| Raise (e : exn).
Arguments Ok {A} a.
Arguments Raise {A} e.

Definition bind {A B} (x : res A) (f : A -> res B) : res B :=
  match x with
  | Ok a => f a
  | Raise e => Raise e
  end.

(** *** Numbers *)

(** Binary64 arithmetic. *)
Definition prec : Z := 53.
Definition emax : Z := 1024.

(** [float(z)] for an [int] of magnitude below [2^53] (exact there). *)
Definition float_of_Z (z : Z) : spec_float := binary_normalize prec emax z 0 false.

Definition fmul (x y : spec_float) : spec_float := SFmul prec emax x y.

(** [n / d] for two floats, correctly rounded; the value [float] gives the
    decimal literal [n/d] when [n] and [d] are below [2^53]. *)
Definition float_ratio (n d : Z) : spec_float :=
  SFdiv prec emax (float_of_Z n) (float_of_Z d).

(** The nearest integer to [m * 2^e], ties to the even one. *)
Definition round_half_even (m : positive) (e : Z) : Z :=
  if 0 <=? e then Z.pos m * 2 ^ e
  else
    let d := 2 ^ (- e) in
    let q := Z.pos m / d in
    let r := Z.pos m mod d in
    if 2 * r <? d then q
    else if d <? 2 * r then q + 1
    else if Z.even q then q else q + 1.

(** [round(x)] on a float: an [int], [ValueError] on NaN and
    [OverflowError] on an infinity. *)
Definition round (x : spec_float) : res Z :=
  match x with
  | S754_nan => Raise ValueError
  | S754_infinity _ => Raise OverflowError
  | S754_zero _ => Ok 0
  | S754_finite s m e => Ok (cond_Zopp s (round_half_even m e))
  end.

(** A number held in a record: the [int] literal or a [float]. *)
Inductive pynum : Type :=
| PyInt (z : Z)
| PyFloat (f : spec_float).

(** [a == b] on numbers. *)
Definition num_eqb (a b : pynum) : bool :=
  match a, b with
  | PyInt x, PyInt y => x =? y
  | PyFloat f, PyFloat g => SFeqb f g
  | PyInt x, PyFloat g => SFeqb (float_of_Z x) g
  | PyFloat f, PyInt y => SFeqb f (float_of_Z y)
  end.

(** [f > 0], [f != 0] *)
Definition float_pos (f : spec_float) : bool := SFltb (S754_zero false) f.
Definition float_nonzero (f : spec_float) : bool := negb (SFeqb f (S754_zero false)).

(** *** Decimal rendering *)

Fixpoint uint_digits (u : Decimal.uint) : pystr :=
  match u with
  | Decimal.Nil => []
  | Decimal.D0 u => 48%N :: uint_digits u
  | Decimal.D1 u => 49%N :: uint_digits u
  | Decimal.D2 u => 50%N :: uint_digits u
  | Decimal.D3 u => 51%N :: uint_digits u
  | Decimal.D4 u => 52%N :: uint_digits u
  | Decimal.D5 u => 53%N :: uint_digits u
  | Decimal.D6 u => 54%N :: uint_digits u
  | Decimal.D7 u => 55%N :: uint_digits u
  | Decimal.D8 u => 56%N :: uint_digits u
  | Decimal.D9 u => 57%N :: uint_digits u
  end.

(** [str(z)] on an [int]. *)
Definition str_of_Z (z : Z) : pystr :=
  match z with
  | Z0 => [48%N]
  | Zpos p => uint_digits (Pos.to_uint p)
  | Zneg p => 45%N :: uint_digits (Pos.to_uint p)
  end.

(** ["%0<w>d" % z] for [0 <= z]. *)
Definition zero_pad (w : nat) (z : Z) : pystr :=
  let d := str_of_Z z in
  replicate (w - length d) 48%N ++ d.

(** *** Dates *)

(** A [datetime.date], as [date.toordinal()]: day 1 is 0001-01-01. *)
Definition date : Type := Z.

Definition is_leap (y : Z) : bool :=
  (y mod 4 =? 0) && (negb (y mod 100 =? 0) || (y mod 400 =? 0)).

Definition days_before_year (y : Z) : Z :=
  let y := y - 1 in y * 365 + y / 4 - y / 100 + y / 400.

Definition days_in_month (y m : Z) : Z :=
  if m =? 2 then (if is_leap y then 29 else 28)
  else if (m =? 4) || (m =? 6) || (m =? 9) || (m =? 11) then 30 else 31.

Definition days_before_month (y m : Z) : Z :=
  foldr (fun k acc => days_in_month y k + acc) 0
        (Z.of_nat <$> seq 1 (Z.to_nat (m - 1))).

(** [date(y, m, d).toordinal()] *)
Definition ymd2ord (y m d : Z) : date :=
  days_before_year y + days_before_month y m + d.

(** [date.fromordinal(n)] as (year, month, day), after [_ord2ymd]. *)
Definition ord2ymd (n : date) : Z * Z * Z :=
  let n := n - 1 in
  let n400 := n / 146097 in
  let n := n mod 146097 in
  let n100 := n / 36524 in
  let n := n mod 36524 in
  let n4 := n / 1461 in
  let n := n mod 1461 in
  let n1 := n / 365 in
  let n := n mod 365 in
  let year := n400 * 400 + 1 + n100 * 100 + n4 * 4 + n1 in
  if (n1 =? 4) || (n100 =? 4) then (year - 1, 12, 31)
  else
    let month := Z.shiftr (n + 50) 5 in
    let preceding := days_before_month year month in
    if n <? preceding
    then (year, month - 1, n - (preceding - days_in_month year (month - 1)) + 1)
    else (year, month, n - preceding + 1).

(** [d.isoformat()], also [str(d)] and [d.strftime("%Y-%m-%d")]. *)
Definition isoformat (d : date) : pystr :=
  let '(y, m, dd) := ord2ymd d in
  zero_pad 4 y ++ [45%N] ++ zero_pad 2 m ++ [45%N] ++ zero_pad 2 dd.


(** *** JSON values, as [json.loads] returns them *)

#[warnings="-register-all"]
Inductive json : Type :=
| JNull
| JBool (b : bool)
| JInt (z : Z)
| JFloat (f : spec_float)
| JStr (s : pystr)
| JList (l : list json)
| JDict (items : list (pystr * json)).


(** *** More string operations *)

(** The scan of [s.replace(pat, "")] for a [pat] that is not empty: [skip]
    characters of a match are still to be dropped. *)
Fixpoint remove_from (skip : nat) (pat s : pystr) : pystr :=
  match s with
  | [] => []
  | c :: s' =>
      match skip with
      | S k => remove_from k pat s'
      | O => if startswith s pat then remove_from (length pat - 1) pat s'
             else c :: remove_from 0 pat s'
      end
  end.

(** [s.replace(pat, "")] *)
Definition remove (pat s : pystr) : pystr :=
  match pat with
  | [] => s
  | _ => remove_from 0 pat s
  end.

(** [s.find(c)] for a one-character [c]: the first index, [None] for -1. *)
Fixpoint find_char (c : N) (s : pystr) : option nat :=
  match s with
  | [] => None
  | x :: s' => if N.eqb x c then Some O else S <$> find_char c s'
  end.

(** [s.rfind(c)] for a one-character [c]: the last index, [None] for -1. *)
Fixpoint rfind_char (c : N) (s : pystr) : option nat :=
  match s with
  | [] => None
  | x :: s' =>
      match rfind_char c s' with
      | Some i => Some (S i)
      | None => if N.eqb x c then Some O else None
      end
  end.

(** [d[k] = v] and [d.get(k)] on a dictionary with string keys, kept in
    insertion order. *)
Fixpoint dict_set {V : Type} (k : pystr) (v : V) (d : list (pystr * V))
    : list (pystr * V) :=
  match d with
  | [] => [(k, v)]
  | (k', v') :: rest =>
      if str_eqb k' k then (k', v) :: rest else (k', v') :: dict_set k v rest
  end.

Fixpoint dict_get {V : Type} (k : pystr) (d : list (pystr * V)) : option V :=
  match d with
  | [] => None
  | (k', v) :: rest => if str_eqb k' k then Some v else dict_get k rest
  end.


End Py.

(** ** The categories of the budget, as the ledger lists them *)

Module Budget.
Import Py.

Record category : Type := {
  cat_id : pystr;
  cat_name : pystr;
  (** [getattr(cat, "deleted", False)], [getattr(cat, "hidden", False)] *)
  cat_deleted : bool;
  cat_hidden : bool
}.

Record category_group : Type := {
  group_deleted : bool;
  group_hidden : bool;
  (** [group.categories or []] *)
  group_categories : list category
}.

(** The categories the two nested loops reach: those that are neither
    deleted nor hidden, in groups that are neither deleted nor hidden. *)
Definition usable_categories (groups : list category_group) : list category :=
  flat_map (fun group =>
              if group_deleted group || group_hidden group then []
              else filter (fun cat => cat_deleted cat || cat_hidden cat = false)
                          (group_categories group)) groups.

End Budget.

(** ** [amazon_csv_to_ynab.py] *)

Module AmazonCsvToYnab.
Import Py.

Definition PAYEE : pystr := py "Amazon.ca".
Definition DEFAULT_CATEGORY : pystr := py "Uncategorized".

Section Resolve.
Context `{UnicodeData}.

(** The local [normalize] of [_resolve_category]. *)
Definition normalize (s : pystr) : pystr :=
  lower (strip (filter (fun c => is_So c = false) s)).

(** The [for cat in valid_categories] loop of [_resolve_category]. *)
Fixpoint resolve_loop (ai_norm : pystr) (cats : list pystr) : pystr :=
  match cats with
  | [] => DEFAULT_CATEGORY
  | cat :: rest =>
      if str_eqb (normalize cat) ai_norm then cat
      else if str_in ai_norm (normalize cat) || str_in (normalize cat) ai_norm
           then cat
           else resolve_loop ai_norm rest
  end.

(** [_resolve_category(ai_response, valid_categories)]; [None] is Python's
    [None], which [ai_response or ""] turns into the empty string. *)
Definition _resolve_category (ai_response : option pystr)
    (valid_categories : list pystr) : pystr :=
  let ai_response := strip (default [] ai_response) in
  if list_in ai_response valid_categories then ai_response
  else resolve_loop (normalize ai_response) valid_categories.
End Resolve.

(** One row of the input CSV, as the loop of [main] reads it through the
    columns resolved on the first row. *)
Record csv_row : Type := {
  (** [_parse_date(row.get(date_col, ""))] *)
  cell_date : option pystr;
  (** [_parse_amount(row.get(amount_col, ""))] *)
  cell_amount : option spec_float;
  (** [row.get(memo_col, "")]; [None] for a short row *)
  cell_memo : option pystr;
  (** [row.get(order_id_col, "")], a [str], when [order_id_col] was resolved *)
  cell_order_id : option pystr;
  (** [_parse_amount(row.get(order_total_col, ""))] when [order_total_col]
      was resolved *)
  cell_order_total : option (option spec_float)
}.

(** A record of [rows_out], later a line of the Output CSV. *)
Record out_row : Type := {
  Date : pystr;
  Payee : pystr;
  Memo : pystr;
  Amount : pynum;
  Category : pystr;
  OrderId : pystr
}.

Definition set_Category (c : pystr) (r : out_row) : out_row :=
  {| Date := Date r; Payee := Payee r; Memo := Memo r; Amount := Amount r;
     Category := c; OrderId := OrderId r |}.

Definition REFUND_WORDS : list pystr :=
  [py "return"; py "refund"; py "reimbursement"].

Section Parse.
Context `{UnicodeData}.
(** [str(x)] on a float, used only inside a synthesised order id. *)
Variable float_str : spec_float -> pystr.

(** [any(x in (memo_str or "").lower() for x in [...])] *)
Definition refund_memo (memo_str : pystr) : bool :=
  existsb (fun x => str_in x (lower memo_str)) REFUND_WORDS.

(** The sign convention: the [if]/[else] that sets [amount_ynab]. *)
Definition amount_ynab (amount_val : spec_float) (memo_str : pystr) : pynum :=
  if float_pos amount_val && refund_memo memo_str
  then PyFloat amount_val
  else if float_nonzero amount_val
       then PyFloat (SFopp (SFabs amount_val))
       else PyInt 0.

Definition order_id_of (row : csv_row) (date_str : pystr) : pystr :=
  let synthesised :=
    match cell_order_total row with
    | Some (Some v) => date_str ++ py "|" ++ float_str v
    | _ => []
    end in
  match cell_order_id row with
  | Some c => if bool_decide (strip c = []) then synthesised else strip c
  | None => synthesised
  end.

(** The body of the [for row in reader] loop: [None] is [continue]. *)
Definition parse_row (row : csv_row) : option out_row :=
  let memo_str := slice_to 500 (strip (default [] (cell_memo row))) in
  match cell_date row, cell_amount row with
  | Some date_str, Some amount_val =>
      if bool_decide (date_str = []) then None
      else Some {|
        Date := date_str;
        Payee := PAYEE;
        Memo := if bool_decide (memo_str = [])
                then py "Order " ++ date_str else memo_str;
        Amount := amount_ynab amount_val memo_str;
        Category := [];
        OrderId := order_id_of row date_str
      |}
  | _, _ => None
  end.

Definition rows_out (rows : list csv_row) : list out_row :=
  omap parse_row rows.
End Parse.

(** The deduplication key [(r["Date"], r["Amount"], r["Memo"][:100])]. *)
Definition dedup_key : Type := pystr * pynum * pystr.

Definition key_of (r : out_row) : dedup_key :=
  (Date r, Amount r, slice_to 100 (Memo r)).

(** Equality of two keys as the [set] tests it between two records. *)
Definition key_eqb (a b : dedup_key) : bool :=
  let '(d1, a1, m1) := a in
  let '(d2, a2, m2) := b in
  str_eqb d1 d2 && num_eqb a1 a2 && str_eqb m1 m2.

(** [key in seen] *)
Definition key_in (k : dedup_key) (seen : list dedup_key) : bool :=
  existsb (key_eqb k) seen.

(** The deduplication loop, from a given [seen]. *)
Fixpoint dedup_loop (seen : list dedup_key) (rows : list out_row) : list out_row :=
  match rows with
  | [] => []
  | r :: rest =>
      if key_in (key_of r) seen then dedup_loop seen rest
      else r :: dedup_loop (key_of r :: seen) rest
  end.

Definition deduped (rows : list out_row) : list out_row := dedup_loop [] rows.

(** The records of the Output CSV before categories are filled in. *)
Definition normalized `{UnicodeData} (float_str : spec_float -> pystr)
    (rows : list csv_row) : list out_row :=
  deduped (rows_out float_str rows).

(** The Output CSV under [--no-ai]: every record gets the sentinel. *)
Definition output_no_ai `{UnicodeData} (float_str : spec_float -> pystr)
    (rows : list csv_row) : list out_row :=
  set_Category DEFAULT_CATEGORY <$> normalized float_str rows.

(** [a > 0] on a number of a record. *)
Definition num_pos (a : pynum) : bool :=
  match a with
  | PyInt z => 0 <? z
  | PyFloat f => float_pos f
  end.

(** *** AI categorisation *)

(** What the script takes from its surroundings when it asks the model. *)
Class AiRuntime := {
  (** [os.environ.get("ANTHROPIC_API_KEY")] *)
  api_key : option pystr;
  (** [client.messages.create(...)] on the prompt built from the memos (cut
      to 300 characters) and the category names: the [text] of each content
      block ([None] for a block without one), or the exception raised. *)
  messages_create : list pystr -> list pystr -> res (list (option pystr));
  (** [re.sub(r"```json?\s*", "", t)] *)
  sub_fence_open : pystr -> pystr;
  (** [re.sub(r"```\s*$", "", t)] *)
  sub_fence_close : pystr -> pystr;
  (** [json.loads] *)
  json_loads : pystr -> res json;
  (** [int(k)] on a string *)
  int_of_str : pystr -> res Z
}.

Section Categorize.
Context `{UnicodeData} `{AiRuntime}.

(** [{i: DEFAULT_CATEGORY for i in range(len(items))}] *)
Definition all_default (n : nat) : gmap Z json :=
  list_to_map ((fun i => (Z.of_nat i, JStr DEFAULT_CATEGORY)) <$> seq 0 n).

(** [{int(k): v for k, v in result.items()}], from left to right. *)
Fixpoint int_keys (items : list (pystr * json)) (acc : gmap Z json)
    : res (gmap Z json) :=
  match items with
  | [] => Ok acc
  | (k, v) :: rest =>
      bind (int_of_str k) (fun i => int_keys rest (<[i := v]> acc))
  end.

(** The two substitutions made when the text starts with a code fence. *)
Definition unfence (response_text : pystr) : pystr :=
  if startswith response_text (py "```")
  then sub_fence_close (sub_fence_open response_text)
  else response_text.

(** The body of the [try] block of [categorize_with_ai]. *)
Definition ai_try (items : list pystr) (categories : list pystr)
    : res (gmap Z json) :=
  bind (messages_create (slice_to 300 <$> items) categories) (fun content =>
  bind (match content with
        | [] => Raise IndexError
        | None :: _ => Raise AttributeError
        | Some text :: _ => Ok (strip text)
        end) (fun response_text =>
  bind (json_loads (unfence response_text)) (fun result =>
  match result with
  | JDict kvs => int_keys kvs ∅
  | _ => Raise AttributeError
  end))).

(** [categorize_with_ai(items, categories)]; [items] are the memos. *)
Definition categorize_with_ai (items : list pystr) (categories : list pystr)
    : gmap Z json :=
  match api_key with
  | None => all_default (length items)
  | Some [] => all_default (length items)
  | Some (_ :: _) =>
      match ai_try items categories with
      | Ok m => m
      | Raise _ => all_default (length items)
      end
  end.

(** [_resolve_category(ai_cat, categories)] on whatever value the mapping
    holds: a falsy value becomes the empty string through [or ""], any
    other value that is not a [str] has no [strip]. *)
Definition resolve_value (ai_cat : json) (categories : list pystr) : res pystr :=
  match ai_cat with
  | JStr s => Ok (_resolve_category (Some s) categories)
  | JNull | JBool false | JInt 0 | JList [] | JDict [] =>
      Ok (_resolve_category None categories)
  | JFloat f =>
      if float_nonzero f then Raise AttributeError
      else Ok (_resolve_category None categories)
  | _ => Raise AttributeError
  end.

(** The inner [for j, r in enumerate(batch)] loop of [main]. *)
Fixpoint assign_batch (categorizations : gmap Z json) (categories : list pystr)
    (j : Z) (batch : list out_row) : res (list out_row) :=
  match batch with
  | [] => Ok []
  | r :: rest =>
      bind (resolve_value (default (JStr DEFAULT_CATEGORY) (categorizations !! j))
                          categories) (fun c =>
      bind (assign_batch categorizations categories (j + 1) rest) (fun rest' =>
      Ok (set_Category c r :: rest')))
  end.

(** One turn of the batch loop of [main]. *)
Definition categorize_batch (categories : list pystr) (batch : list out_row)
    : res (list out_row) :=
  assign_batch (categorize_with_ai (Memo <$> batch) categories) categories 0 batch.

Definition BATCH_SIZE : nat := 30.

(** [range(0, n, BATCH_SIZE)] *)
Definition batch_starts (n : nat) : list nat :=
  (fun k => k * BATCH_SIZE)%nat <$> seq 0 ((n + BATCH_SIZE - 1) `div` BATCH_SIZE)%nat.

(** The batch loop of [main] over the given starts;
    [deduped[i:i + BATCH_SIZE]] is [take BATCH_SIZE (drop i rows)]. *)
Fixpoint categorize_from (starts : list nat) (categories : list pystr)
    (rows : list out_row) : res (list out_row) :=
  match starts with
  | [] => Ok []
  | i :: later =>
      bind (categorize_batch categories (take BATCH_SIZE (drop i rows))) (fun done =>
      bind (categorize_from later categories rows) (fun rest =>
      Ok (done ++ rest)))
  end.

Definition categorize_all (categories : list pystr) (rows : list out_row)
    : res (list out_row) :=
  categorize_from (batch_starts (length rows)) categories rows.
End Categorize.

(** *** Column detection *)

Definition DATE_COLUMNS : list pystr :=
  [py "order.date"; py "order date"; py "order_date"; py "date";
   py "order placed"; py "charged on"].
Definition AMOUNT_COLUMNS : list pystr :=
  [py "order.total"; py "order total"; py "order_total"; py "item total";
   py "item.total"; py "total"; py "amount"; py "price"].
Definition MEMO_COLUMNS : list pystr :=
  [py "item.title"; py "item title"; py "item_title"; py "title"; py "product";
   py "description"; py "item"; py "memo"; py "order.items"].
Definition ORDER_ID_COLUMNS : list pystr :=
  [py "order id"; py "order number"; py "order_id"; py "orderid"].
Definition ORDER_TOTAL_COLUMNS : list pystr :=
  [py "order.total"; py "order total"; py "order_total"].

Section Columns.
Context `{UnicodeData}.

(** [{k.strip().lower(): k for k in row_dict.keys()}] *)
Definition keys_lower (headers : list pystr) : list (pystr * pystr) :=
  foldl (fun d k => dict_set (lower (strip k)) k d) [] headers.

(** [x.replace(" ", "").replace(".", "")] *)
Definition squash (x : pystr) : pystr := remove (py ".") (remove (py " ") x).

(** The first loop of [_find_column]. *)
Fixpoint exact_loop (kl : list (pystr * pystr)) (candidates : list pystr)
    : option pystr :=
  match candidates with
  | [] => None
  | c :: rest =>
      match dict_get (lower c) kl with
      | Some k => Some k
      | None => exact_loop kl rest
      end
  end.

(** The inner loop [for k in keys_lower] of the second loop. *)
Fixpoint inner_loop (c : pystr) (items : list (pystr * pystr)) : option pystr :=
  match items with
  | [] => None
  | (k, header) :: rest =>
      if str_in (squash c) (squash k) then Some header else inner_loop c rest
  end.

(** The second loop of [_find_column]. *)
Fixpoint substring_loop (kl : list (pystr * pystr)) (candidates : list pystr)
    : option pystr :=
  match candidates with
  | [] => None
  | c :: rest =>
      match inner_loop c kl with
      | Some k => Some k
      | None => substring_loop kl rest
      end
  end.

(** [_find_column(row_dict, candidates)], on the headers of the row. *)
Definition _find_column (headers : list pystr) (candidates : list pystr)
    : option pystr :=
  let kl := keys_lower headers in
  match exact_loop kl candidates with
  | Some k => Some k
  | None => substring_loop kl candidates
  end.
End Columns.

(** *** The vocabulary *)

(** [fetch_ynab_categories()]: [credentials] says that the access token and
    the budget id are both set, [response] is what [get_categories]
    returns or the [ApiException] it raises. *)
Definition fetch_ynab_categories (credentials : bool)
    (response : res (list Budget.category_group)) : list pystr :=
  if credentials then
    match response with
    | Raise _ => [DEFAULT_CATEGORY]
    | Ok groups =>
        match Budget.cat_name <$> Budget.usable_categories groups with
        | [] => [DEFAULT_CATEGORY]
        | categories => categories
        end
    end
  else [DEFAULT_CATEGORY].

End AmazonCsvToYnab.


(** ** The remote ledger, as the scripts see it *)

Module Ledger.
Import Py.

(** A transaction of a page; every attribute is read with a default. *)
Record ledger_tx : Type := {
  tx_id : pystr;
  (** [getattr(tx, "var_date", None) or getattr(tx, "date", None)], the
      [date] the client library decodes; [None] when absent *)
  tx_date : option date;
  (** [getattr(tx, "amount", None)], in milliunits *)
  tx_amount : option Z;
  tx_category_name : option pystr;
  tx_memo : option pystr;
  tx_deleted : bool
}.

(** [get_transactions_by_account(..., since_date=since)]: the page the
    service returns to the [n]-th request, or [ApiException]. *)
Definition service : Type := nat -> date -> res (list ledger_tx).

(** The [latest] loop that follows every page: the greatest date among
    the transactions that have one. *)
Fixpoint latest_from (latest : option date) (txs : list ledger_tx) : option date :=
  match txs with
  | [] => latest
  | t :: rest =>
      match tx_date t with
      | None => latest_from latest rest
      | Some d =>
          match latest with
          | None => latest_from (Some d) rest
          | Some l => latest_from (if l <? d then Some d else Some l) rest
          end
      end
  end.

Definition latest_date (txs : list ledger_tx) : option date := latest_from None txs.

(** What one turn of a [while True] fetch loop decides. *)
Inductive turn : Type :=
| Break
| Continue (since : date).

End Ledger.

(** ** [ynab_apply_csv_categories.py] *)

Module ApplyCsvCategories.
Import Py Ledger.

(** One row of the categorised CSV, as [load_csv_lookup] reads it. *)
Record csv_row : Type := {
  (** [datetime.strptime((row.get("Date") or "").strip(), "%Y-%m-%d").date()];
      [None] when the cell is empty or [strptime] raises [ValueError] *)
  Date : option date;
  (** [float((row.get("Amount") or "0").strip().replace(",", ""))];
      [None] when [float] raises [ValueError] *)
  Amount : option spec_float;
  (** [row.get("Category")] *)
  Category : option pystr
}.

(** [int(round(amt * 1000))], negated when positive. *)
Definition milliunits_of (amt : spec_float) : res Z :=
  bind (round (fmul amt (float_of_Z 1000))) (fun milliunits =>
  Ok (if 0 <? milliunits then - milliunits else milliunits)).

Section Lookup.
Context `{UnicodeData}.

(** The loop of [load_csv_lookup], from the two dictionaries so far. *)
Fixpoint load_loop (rows : list csv_row)
    (lookup : gmap (date * Z) pystr) (by_amount : gmap Z (list (date * pystr)))
    : res (gmap (date * Z) pystr * gmap Z (list (date * pystr))) :=
  match rows with
  | [] => Ok (lookup, by_amount)
  | row :: rest =>
      match Date row, Amount row with
      | Some d, Some amt =>
          bind (milliunits_of amt) (fun milliunits =>
          let cat := strip (default [] (Category row)) in
          if bool_decide (cat = []) || str_eqb (lower cat) (py "uncategorized")
          then load_loop rest lookup by_amount
          else load_loop rest
                 (<[(d, milliunits) := cat]> lookup)
                 (<[milliunits := default [] (by_amount !! milliunits) ++ [(d, cat)]]>
                    by_amount))
      | _, _ => load_loop rest lookup by_amount
      end
  end.

Definition load_csv_lookup (rows : list csv_row)
    : res (gmap (date * Z) pystr * gmap Z (list (date * pystr))) :=
  load_loop rows ∅ ∅.

(** The second copy of [_resolve_category], with one test per entry. *)
Definition norm (s : pystr) : pystr :=
  lower (strip (filter (fun c => is_So c = false) s)).

Fixpoint resolve_loop (ai_n : pystr) (valid : list pystr) : pystr :=
  match valid with
  | [] => py "Uncategorized"
  | c :: rest =>
      if str_eqb (norm c) ai_n || str_in ai_n (norm c) || str_in (norm c) ai_n
      then c
      else resolve_loop ai_n rest
  end.

Definition _resolve_category (ai_response : option pystr) (valid : list pystr)
    : pystr :=
  let ai_response := strip (default [] ai_response) in
  if list_in ai_response valid then ai_response
  else resolve_loop (norm ai_response) valid.
End Lookup.

(** [not new_cat] is false: a category that is neither [None] nor empty. *)
Definition truthy (c : option pystr) : bool :=
  match c with
  | Some (_ :: _) => true
  | _ => false
  end.

Definition DELTAS : list Z := [-2; -1; 1; 2].

(** The [for delta in [-2, -1, 1, 2]] loop: the first shifted date that is
    a key of the lookup. *)
Fixpoint tolerance_loop (csv_lookup : gmap (date * Z) pystr) (d : date) (amt : Z)
    (deltas : list Z) : option pystr :=
  match deltas with
  | [] => None
  | delta :: rest =>
      match csv_lookup !! (d + delta, amt) with
      | Some c => Some c
      | None => tolerance_loop csv_lookup d amt rest
      end
  end.

(** Step 1 and 2: the exact lookup, then the date tolerance. *)
Definition date_match (csv_lookup : gmap (date * Z) pystr) (d : date) (amt : Z)
    : option pystr :=
  let new_cat := csv_lookup !! (d, amt) in
  if truthy new_cat then new_cat
  else match tolerance_loop csv_lookup d amt DELTAS with
       | Some c => Some c
       | None => new_cat
       end.

(** Step 3: the amount alone, when the list kept for it has one entry. *)
Definition amount_match (csv_by_amount : gmap Z (list (date * pystr)))
    (new_cat : option pystr) (amt : Z) : option pystr :=
  if truthy new_cat then new_cat
  else match csv_by_amount !! amt with
       | Some [(_, cat)] => Some cat
       | _ => new_cat
       end.

(** What the first pass decides for one uncategorised transaction. *)
Inductive decision : Type :=
| Skipped
| NoMatch
| NewCategory (cat : pystr).

Definition decide_tx (csv_lookup : gmap (date * Z) pystr)
    (csv_by_amount : gmap Z (list (date * pystr))) (tx : ledger_tx) : decision :=
  match tx_date tx, tx_amount tx with
  | Some d, Some amt =>
      let new_cat := amount_match csv_by_amount (date_match csv_lookup d amt) amt in
      match new_cat with
      | Some (c :: cat) => NewCategory (c :: cat)
      | _ => NoMatch
      end
  | _, _ => Skipped
  end.

Definition PAGE_SIZE : nat := 500.

(** [timedelta(days=...)] as [main] evaluates it in its fetch loop. [main]
    holds [from datetime import datetime as dt, timedelta] further down, in
    its matching loop (line 210), and an import anywhere in a function body
    makes the name a local variable of the whole function. The fetch loop
    runs before the matching loop, so at line 182 the local [timedelta] has
    no value yet and reading it raises [UnboundLocalError]; the name
    imported at the top of the module is not looked at. *)
Definition timedelta (days : Z) : res Z := Raise UnboundLocalError.

(** One turn of the fetch loop, once the page [txs] has arrived:
    [since = latest + timedelta(days=1)] is the last statement of the
    turn. *)
Definition page_turn (txs : list ledger_tx) : res turn :=
  if (length txs <? PAGE_SIZE)%nat || bool_decide (txs = []) then Ok Break
  else match latest_date txs with
       | None => Ok Break
       | Some latest =>
           match timedelta 1 with
           | Ok delta => Ok (Continue (latest + delta))
           | Raise e => Raise e
           end
       end.

(** The fetch loop: the cursors it requested, in order, and the pages; the
    loop has no bound of its own, [fuel] is the number of turns allowed and
    [None] says that it was not enough. The [try] of the loop catches
    [ApiException] and leaves the program; any other exception leaves it
    as well, uncaught. *)
Fixpoint fetch_loop (fuel : nat) (srv : service) (n : nat) (since : date)
    : option (res (list date * list ledger_tx)) :=
  match fuel with
  | O => None
  | S fuel' =>
      match srv n since with
      | Raise e => Some (Raise e)
      | Ok txs =>
          let kept := filter (fun t => tx_deleted t = false) txs in
          match page_turn txs with
          | Raise e => Some (Raise e)
          | Ok Break => Some (Ok ([since], kept))
          | Ok (Continue since') =>
              match fetch_loop fuel' srv (S n) since' with
              | Some (Ok (cursors, all_txs)) => Some (Ok (since :: cursors, kept ++ all_txs))
              | other => other
              end
          end
      end
  end.

(** *** The AI pass *)

Section Categorize.
Context `{UnicodeData} `{AmazonCsvToYnab.AiRuntime}.
(** [str(v)] on a value that is not a string *)
Variable repr : json -> pystr.

(** [str(v)] *)
Definition str_of_json (v : json) : pystr :=
  match v with
  | JStr s => s
  | _ => repr v
  end.

(** The lines between [text.startswith] and [json.loads]: the fence is
    removed, then the text is cut from its first opening brace to its last
    closing brace when there is such a span. *)
Definition extract_json (text : pystr) : pystr :=
  let text :=
    if startswith text (py "```")
    then strip (remove (py "```") (AmazonCsvToYnab.sub_fence_open text))
    else text in
  match find_char 123%N text with
  | Some start =>
      match rfind_char 125%N text with
      | Some last =>
          if (start <? S last)%nat then take (S last - start) (drop start text)
          else text
      | None => text
      end
  | None => text
  end.

(** The dictionary comprehension that ends the [try] block. *)
Fixpoint resolved_items (items : list (pystr * json)) (categories : list pystr)
    (acc : gmap Z pystr) : res (gmap Z pystr) :=
  match items with
  | [] => Ok acc
  | (k, v) :: rest =>
      bind (AmazonCsvToYnab.int_of_str k) (fun i =>
      resolved_items rest categories
        (<[i := _resolve_category (Some (strip (str_of_json v))) categories]> acc))
  end.

(** The body of the [try] block: [Ok] is what a [return] gives. *)
Definition ai_try (memos : list pystr) (categories : list pystr)
    : res (gmap Z pystr) :=
  bind (AmazonCsvToYnab.messages_create (slice_to 250 <$> memos) categories)
       (fun content =>
  bind (match content with
        | [] => Raise IndexError
        | block :: _ => Ok (strip (default [] block))
        end) (fun text =>
  match text with
  | [] => Ok ∅
  | _ =>
      bind (AmazonCsvToYnab.json_loads (extract_json text)) (fun out =>
      match out with
      | JDict kvs => resolved_items kvs categories ∅
      | _ => Raise AttributeError
      end)
  end)).

(** [categorize_with_ai(memos, categories)] *)
Definition categorize_with_ai (memos : list pystr) (categories : list pystr)
    : gmap Z pystr :=
  match AmazonCsvToYnab.api_key with
  | None => ∅
  | Some [] => ∅
  | Some (_ :: _) =>
      match ai_try memos categories with
      | Ok m => m
      | Raise _ => ∅
      end
  end.
End Categorize.

End ApplyCsvCategories.

(** ** [ynab_import.py] *)

Module YnabImport.
Import Py Ledger.

(** One row of the CSV to import. *)
Record csv_row : Type := {
  (** [row.get("Date", "").strip()] parsed as [%Y-%m-%d], else as
      [%m/%d/%Y]; [None] when empty or when both raise [ValueError] *)
  Date : option date;
  (** [float(row.get("Amount", "0").strip().replace(",", ""))];
      [None] when [float] raises [ValueError] *)
  Amount : option spec_float;
  Payee : option pystr;
  Memo : option pystr;
  Category : option pystr;
  OrderId : option pystr
}.

(** An element [(date_obj, amount, row, order_id)] of [raw_rows]. *)
Definition raw_row : Type := date * Z * csv_row * pystr.

(** A member [(date_obj, amount, row)] of a group. *)
Definition group_row : Type := date * Z * csv_row.

(** [ynab.NewTransaction(...)] and [ynab.SaveSubTransaction(...)]. *)
Record new_transaction : Type := {
  nt_date : date;
  nt_amount : Z;
  nt_payee_name : option pystr;
  nt_memo : option pystr;
  nt_category_id : option pystr;
  nt_cleared : pystr;
  nt_approved : bool;
  nt_import_id : pystr;
  nt_subtransactions : option (list (Z * option pystr))
}.

Definition DEFAULT_CATEGORY_NAME : pystr := py "Uncategorized".

Definition CATEGORY_MAPPING : list (pystr * pystr) :=
  [ (py "amazon.ca", py "Online Shopping");
    (py "sobeys", py "Groceries");
    (py "tim hortons", py "Dining Out");
    (py "payroll - employer name", py "Income") ].

(** [d.get(k, default)] on a literal dictionary. *)
Fixpoint assoc_get (k : pystr) (d : list (pystr * pystr)) (dflt : pystr) : pystr :=
  match d with
  | [] => dflt
  | (k', v) :: rest => if str_eqb k k' then v else assoc_get k rest dflt
  end.

(** [x or None] on a string. *)
Definition or_None (x : pystr) : option pystr :=
  match x with
  | [] => None
  | _ => Some x
  end.

Section Importer.
Context `{UnicodeData}.
(** [int(os.environ.get("YNAB_DUPLICATE_DAYS", "5"))] *)
Variable DAYS_TOLERANCE : Z.
(** category name, lower-cased, to category id *)
Variable category_id_map : gmap pystr pystr.

(** The body of the first pass over the CSV: [Ok None] is [continue];
    only [ValueError] is caught around the conversion to milliunits. *)
Definition read_row (row : csv_row) : res (option raw_row) :=
  match Date row, Amount row with
  | Some date_obj, Some raw =>
      match round (fmul raw (float_of_Z 1000)) with
      | Raise ValueError => Ok None
      | Raise e => Raise e
      | Ok amount =>
          let amount := if 0 <? amount then - amount else amount in
          if amount =? 0 then Ok None
          else Ok (Some (date_obj, amount, row, strip (default [] (OrderId row))))
      end
  | _, _ => Ok None
  end.

Fixpoint read_rows (rows : list csv_row) : res (list raw_row) :=
  match rows with
  | [] => Ok []
  | row :: rest =>
      bind (read_row row) (fun r =>
      bind (read_rows rest) (fun rs =>
      Ok (match r with Some x => x :: rs | None => rs end)))
  end.

(** [groups[key].append(item)] on the insertion-ordered dictionary. *)
Fixpoint group_append (key : pystr) (item : group_row)
    (groups : list (pystr * list group_row)) : list (pystr * list group_row) :=
  match groups with
  | [] => [(key, [item])]
  | (k, items) :: rest =>
      if str_eqb k key then (k, items ++ [item]) :: rest
      else (k, items) :: group_append key item rest
  end.

(** The key of a row without an order id:
    [f"{date_obj}|{amount}|{(row.get('Memo') or '')[:60]}"]. *)
Definition composite_key (date_obj : date) (amount : Z) (row : csv_row) : pystr :=
  isoformat date_obj ++ py "|" ++ str_of_Z amount ++ py "|"
    ++ slice_to 60 (default [] (Memo row)).

Definition group_rows (raw_rows : list raw_row) : list (pystr * list group_row) :=
  foldl (fun groups '(date_obj, amount, row, order_id) =>
           match order_id with
           | [] => group_append (composite_key date_obj amount row)
                                (date_obj, amount, row) groups
           | _ => group_append order_id (date_obj, amount, row) groups
           end) [] raw_rows.

(** [is_duplicate(import_date, import_amount)] *)
Definition is_duplicate (existing_by_amount : gmap Z (list date))
    (import_date : date) (import_amount : Z) : bool :=
  match existing_by_amount !! import_amount with
  | None => false
  | Some dates =>
      existsb (fun existing_date =>
                 Z.abs (import_date - existing_date) <=? DAYS_TOLERANCE) dates
  end.

(** [category_for_row(row)]: the category id, if any, and the name. *)
Definition category_for_row (row : csv_row) : option pystr * pystr :=
  let row_category := strip (default [] (Category row)) in
  match row_category with
  | _ :: _ => (category_id_map !! lower row_category, row_category)
  | [] =>
      let payee_lower := lower (strip (default [] (Payee row))) in
      let name := assoc_get payee_lower CATEGORY_MAPPING DEFAULT_CATEGORY_NAME in
      (match name with
       | [] => None
       | _ => category_id_map !! lower name
       end, name)
  end.

(** [cat_amounts[cat_id] += amt] on the insertion-ordered dictionary. *)
Fixpoint cat_add (cat_id : option pystr) (amt : Z)
    (cat_amounts : list (option pystr * Z)) : list (option pystr * Z) :=
  match cat_amounts with
  | [] => [(cat_id, amt)]
  | (c, a) :: rest =>
      if bool_decide (c = cat_id) then (c, a + amt) :: rest
      else (c, a) :: cat_add cat_id amt rest
  end.

Definition cat_amounts_of (rows : list group_row) : list (option pystr * Z) :=
  foldl (fun acc '(_, amt, row) => cat_add (fst (category_for_row row)) amt acc)
        [] rows.

(** [f"YNAB:{total_amount}:{date_obj.isoformat()}:1"] *)
Definition import_id_of (total_amount : Z) (date_obj : date) : pystr :=
  py "YNAB:" ++ str_of_Z total_amount ++ py ":" ++ isoformat date_obj ++ py ":1".

(** The body of the loop over [groups.items()]: the transaction built for
    one group, [None] when the group is passed over. A group is never
    empty; [group_rows[0]] is its first member. *)
Definition build_transaction (existing_by_amount : gmap Z (list date))
    (rows : list group_row) : option new_transaction :=
  match rows with
  | [] => None
  | (date_obj, _, first) :: _ =>
      let total_amount := foldr Z.add 0 ((fun r => snd (fst r)) <$> rows) in
      if total_amount =? 0 then None
      else if is_duplicate existing_by_amount date_obj total_amount then None
      else
        let payee :=
          match strip (default [] (Payee first)) with
          | [] => py "Amazon.ca"
          | p => p
          end in
        let memo := slice_to 500 (strip (default [] (Memo first))) in
        let cat_amounts := cat_amounts_of rows in
        match cat_amounts with
        | [] => None
        | [(only_cat_id, _)] =>
            Some {| nt_date := date_obj;
                    nt_amount := total_amount;
                    nt_payee_name := or_None payee;
                    nt_memo := or_None memo;
                    nt_category_id := only_cat_id;
                    nt_cleared := py "uncleared";
                    nt_approved := false;
                    nt_import_id := import_id_of total_amount date_obj;
                    nt_subtransactions := None |}
        | _ =>
            let split_memo :=
              match memo with
              | [] => py "Order " ++ isoformat date_obj ++ py " (split)"
              | _ => memo
              end in
            Some {| nt_date := date_obj;
                    nt_amount := total_amount;
                    nt_payee_name := or_None payee;
                    nt_memo := Some (slice_to 500 split_memo);
                    nt_category_id := None;
                    nt_cleared := py "uncleared";
                    nt_approved := false;
                    nt_import_id := import_id_of total_amount date_obj;
                    nt_subtransactions := Some ((fun '(cid, camt) => (camt, cid)) <$> cat_amounts) |}
        end
  end.

(** [transactions_to_import], from the groups in insertion order. *)
Definition transactions_to_import (existing_by_amount : gmap Z (list date))
    (groups : list (pystr * list group_row)) : list new_transaction :=
  omap (fun g => build_transaction existing_by_amount (snd g)) groups.

(** The transactions submitted for the rows of a CSV. *)
Definition import_of (existing_by_amount : gmap Z (list date))
    (rows : list csv_row) : res (list new_transaction) :=
  bind (read_rows rows) (fun raw_rows =>
  Ok (transactions_to_import existing_by_amount (group_rows raw_rows))).
End Importer.

Definition PAGE_SIZE : nat := 500.

(** One turn of the fetch loop for the duplicate check. *)
Definition page_turn (txs : list ledger_tx) : turn :=
  if (length txs <? PAGE_SIZE)%nat || bool_decide (txs = []) then Break
  else match latest_date txs with
       | None => Break
       | Some latest => Continue (latest + 1)
       end.

(** The first [for tx in txs] loop of a turn: the dates of the live
    transactions, by amount. *)
Definition record_page (txs : list ledger_tx) (existing_by_amount : gmap Z (list date))
    : gmap Z (list date) :=
  foldl (fun acc tx =>
           if tx_deleted tx then acc
           else match tx_amount tx, tx_date tx with
                | Some amt, Some dt_obj =>
                    <[amt := default [] (acc !! amt) ++ [dt_obj]]> acc
                | _, _ => acc
                end) existing_by_amount txs.

(** The fetch loop: the cursors requested and [existing_by_amount]; an
    [ApiException] ends it with what was recorded before. [None]: more than
    [fuel] turns. *)
Fixpoint existing_loop (fuel : nat) (srv : service) (n : nat) (since : date)
    (existing_by_amount : gmap Z (list date))
    : option (list date * gmap Z (list date)) :=
  match fuel with
  | O => None
  | S fuel' =>
      match srv n since with
      | Raise _ => Some ([since], existing_by_amount)
      | Ok txs =>
          let existing_by_amount := record_page txs existing_by_amount in
          match page_turn txs with
          | Break => Some ([since], existing_by_amount)
          | Continue since' =>
              match existing_loop fuel' srv (S n) since' existing_by_amount with
              | Some (cursors, e) => Some (since :: cursors, e)
              | None => None
              end
          end
      end
  end.

End YnabImport.

(** ** [ynab_cleanup_amazon.py] *)

Module CleanupAmazon.
Import Py Ledger.

Definition START_DATE : date := ymd2ord 2025 12 2.
Definition END_DATE : date := ymd2ord 2026 1 31.

Definition PAGE_SIZE : nat := 500.

(** One turn of the fetch loop; the dates stop it at [END_DATE]. *)
Definition page_turn (txs : list ledger_tx) : turn :=
  if (length txs <? PAGE_SIZE)%nat || bool_decide (txs = []) then Break
  else match latest_date txs with
       | None => Break
       | Some latest =>
           if END_DATE <=? latest then Break else Continue (latest + 1)
       end.

(** The transactions a page adds to [all_txs]. *)
Definition kept (t : ledger_tx) : bool :=
  negb (tx_deleted t) &&
  match tx_date t with
  | Some d => (START_DATE <=? d) && (d <=? END_DATE)
  | None => false
  end.

Definition in_range (txs : list ledger_tx) : list ledger_tx :=
  filter (fun t => kept t = true) txs.

Fixpoint fetch_loop (fuel : nat) (srv : service) (n : nat) (since : date)
    : option (res (list date * list ledger_tx)) :=
  match fuel with
  | O => None
  | S fuel' =>
      match srv n since with
      | Raise e => Some (Raise e)
      | Ok txs =>
          match page_turn txs with
          | Break => Some (Ok ([since], in_range txs))
          | Continue since' =>
              match fetch_loop fuel' srv (S n) since' with
              | Some (Ok (cursors, all_txs)) =>
                  Some (Ok (since :: cursors, in_range txs ++ all_txs))
              | other => other
              end
          end
      end
  end.

(** *** Duplicates in the ledger *)






End CleanupAmazon.

(** * Properties *)

(** ** Strings *)

Module StrFacts.
Import Py.

(** [sub] occurs in [s]. *)
Definition occurs_in (sub s : pystr) : Prop :=
  ∃ pre post, s = pre ++ sub ++ post.

Lemma str_eqb_true (a b : pystr) : str_eqb a b = true ↔ a = b.
Proof. unfold str_eqb. apply bool_decide_eq_true. Qed.

Lemma str_eqb_false (a b : pystr) : str_eqb a b = false ↔ a ≠ b.
Proof. unfold str_eqb. apply bool_decide_eq_false. Qed.

Lemma startswith_spec (s p : pystr) :
  startswith s p = true ↔ ∃ post, s = p ++ post.
Proof.
  revert s. induction p as [|c p IH]; intros s; simpl.
  - split; [intros _; by exists s | done].
  - destruct s as [|d s].
    + split; [done | intros [post Hp]; discriminate].
    + rewrite andb_true_iff, N.eqb_eq, IH. split.
      * intros [-> [post ->]]. by exists post.
      * intros [post Hp]. inversion Hp; subst. eauto.
Qed.

Lemma str_in_spec (sub s : pystr) : str_in sub s = true ↔ occurs_in sub s.
Proof.
  unfold occurs_in. induction s as [|d s IH]; simpl.
  - rewrite orb_false_r, startswith_spec. split.
    + intros [post Hp]. by exists [], post.
    + intros (pre & post & Hp). symmetry in Hp.
      apply app_eq_nil in Hp as [-> Hp]. eauto.
  - rewrite orb_true_iff, startswith_spec, IH. split.
    + intros [[post Hp] | (pre & post & Hp)].
      * by exists [], post.
      * exists (d :: pre), post. by rewrite Hp.
    + intros (pre & post & Hp). destruct pre as [|e pre].
      * left. by exists post.
      * right. inversion Hp; subst. eauto.
Qed.

Lemma list_in_spec (x : pystr) (l : list pystr) : list_in x l = true ↔ x ∈ l.
Proof.
  unfold list_in. rewrite existsb_exists. split.
  - intros (y & Hy & E). apply str_eqb_true in E as ->. by apply list_elem_of_In.
  - intros Hx. exists x. split; [by apply list_elem_of_In | by apply str_eqb_true].
Qed.

Lemma occurs_in_refl (s : pystr) : occurs_in s s.
Proof. exists [], []. by rewrite app_nil_r. Qed.

Lemma occurs_in_nil (s : pystr) : occurs_in [] s.
Proof. by exists [], s. Qed.

End StrFacts.

(** ** The category resolver *)

Module ResolveFacts.
Import Py StrFacts.

Section Resolve.
Context `{UnicodeData}.

(** A vocabulary entry answers a normalised response when the two
    normalisations are equal or one occurs in the other. *)
Definition answers (ai_norm cat : pystr) : Prop :=
  AmazonCsvToYnab.normalize cat = ai_norm
  ∨ occurs_in ai_norm (AmazonCsvToYnab.normalize cat)
  ∨ occurs_in (AmazonCsvToYnab.normalize cat) ai_norm.

Lemma resolve_loop_first (ai_norm : pystr) (pre : list pystr) (cat : pystr)
    (post : list pystr) :
  (∀ x, x ∈ pre → ¬ answers ai_norm x) →
  answers ai_norm cat →
  AmazonCsvToYnab.resolve_loop ai_norm (pre ++ cat :: post) = cat.
Proof.
  intros Hpre Hcat. induction pre as [|x pre IH]; simpl.
  - destruct (str_eqb _ _) eqn:E; [done|].
    destruct (str_in ai_norm _ || _) eqn:E'; [done|].
    apply orb_false_iff in E' as [E1 E2]. apply str_eqb_false in E.
    destruct Hcat as [?|[Hc|Hc]]; [done| |];
      apply str_in_spec in Hc; congruence.
  - assert (¬ answers ai_norm x) as Hx by (apply Hpre; left).
    destruct (str_eqb _ _) eqn:E.
    { apply str_eqb_true in E. destruct Hx. by left. }
    destruct (str_in ai_norm _ || _) eqn:E'.
    { destruct Hx. apply orb_true_iff in E' as [E'|E'];
        apply str_in_spec in E'; unfold answers; auto. }
    apply IH. intros y Hy. apply Hpre. by right.
Qed.

Lemma resolve_loop_none (ai_norm : pystr) (cats : list pystr) :
  (∀ x, x ∈ cats → ¬ answers ai_norm x) →
  AmazonCsvToYnab.resolve_loop ai_norm cats = AmazonCsvToYnab.DEFAULT_CATEGORY.
Proof.
  induction cats as [|x cats IH]; intros Hno; simpl; [done|].
  assert (¬ answers ai_norm x) as Hx by (apply Hno; left).
  destruct (str_eqb _ _) eqn:E.
  { apply str_eqb_true in E. destruct Hx. by left. }
  destruct (str_in ai_norm _ || _) eqn:E'.
  { destruct Hx. apply orb_true_iff in E' as [E'|E'];
      apply str_in_spec in E'; unfold answers; auto. }
  apply IH. intros y Hy. apply Hno. by right.
Qed.

(** The two copies of the loop take the same decisions. *)
Lemma resolve_loop_copies (ai_norm : pystr) (cats : list pystr) :
  ApplyCsvCategories.resolve_loop ai_norm cats
  = AmazonCsvToYnab.resolve_loop ai_norm cats.
Proof.
  induction cats as [|x cats IH]; simpl; [done|].
  change (ApplyCsvCategories.norm x) with (AmazonCsvToYnab.normalize x).
  rewrite IH. destruct (str_eqb _ _); simpl; [done|].
  by destruct (str_in ai_norm _ || _).
Qed.

Lemma resolve_category_copies (ai_response : option pystr) (valid : list pystr) :
  ApplyCsvCategories._resolve_category ai_response valid
  = AmazonCsvToYnab._resolve_category ai_response valid.
Proof.
  unfold ApplyCsvCategories._resolve_category, AmazonCsvToYnab._resolve_category.
  simpl. destruct (list_in _ _); [done|]. apply resolve_loop_copies.
Qed.

Lemma resolve_category_stages (ai_response : option pystr) (valid : list pystr) :
  let r := strip (default [] ai_response) in
  let n := AmazonCsvToYnab.normalize r in
  (r ∈ valid → AmazonCsvToYnab._resolve_category ai_response valid = r)
  ∧ (r ∉ valid → ∀ pre cat post,
       valid = pre ++ cat :: post →
       (∀ x, x ∈ pre → ¬ answers n x) → answers n cat →
       AmazonCsvToYnab._resolve_category ai_response valid = cat)
  ∧ (r ∉ valid → (∀ x, x ∈ valid → ¬ answers n x) →
       AmazonCsvToYnab._resolve_category ai_response valid
       = AmazonCsvToYnab.DEFAULT_CATEGORY).
Proof.
  intros r n. unfold AmazonCsvToYnab._resolve_category. fold r. simpl.
  destruct (list_in r valid) eqn:E.
  - apply list_in_spec in E. repeat split; intros; done.
  - assert (r ∉ valid) as Hr.
    { intros Hin. apply list_in_spec in Hin. congruence. }
    repeat split.
    + done.
    + intros _ pre cat post -> Hpre Hcat. by apply resolve_loop_first.
    + intros _ Hno. by apply resolve_loop_none.
Qed.
End Resolve.

(** The procedure in the words of the specification: a stage is tried
    against the whole vocabulary before the next one is. *)
Definition staged `{UnicodeData} (response : pystr) (vocabulary : list pystr)
    (result : pystr) : Prop :=
  let n := AmazonCsvToYnab.normalize response in
  let same c := AmazonCsvToYnab.normalize c = n in
  let inside c := occurs_in n (AmazonCsvToYnab.normalize c)
                  ∨ occurs_in (AmazonCsvToYnab.normalize c) n in
  (response ∈ vocabulary → result = response)
  ∧ (response ∉ vocabulary → (∃ c, c ∈ vocabulary ∧ same c) →
       result ∈ vocabulary ∧ same result)
  ∧ (response ∉ vocabulary → (∀ c, c ∈ vocabulary → ¬ same c) →
       (∃ c, c ∈ vocabulary ∧ inside c) → result ∈ vocabulary ∧ inside result)
  ∧ (response ∉ vocabulary → (∀ c, c ∈ vocabulary → ¬ same c) →
       (∀ c, c ∈ vocabulary → ¬ inside c) →
       result = AmazonCsvToYnab.DEFAULT_CATEGORY).

Definition kids_supplies_baby : pystr := py "Kids Supplies " ++ [0x1F476%N].

(** C1, as stated, fails: the response "wardrobe" against the vocabulary
    ["Wardrobe Extras", "Wardrobe"] has an entry equal to it after
    normalisation, yet the resolver returns "Wardrobe Extras", which only
    contains it: the entries are visited once, and an entry is returned as
    soon as it passes either test. *)
Lemma resolve_category_not_staged :
  ¬ staged (py "wardrobe") [py "Wardrobe Extras"; py "Wardrobe"]
      (AmazonCsvToYnab._resolve_category (Some (py "wardrobe"))
         [py "Wardrobe Extras"; py "Wardrobe"]).
Proof.
  intros (_ & Hsame & _).
  destruct Hsame as [_ Hres].
  - intros Hin. apply list_in_spec in Hin. vm_compute in Hin. discriminate.
  - exists (py "Wardrobe"). split; [|by vm_compute].
    right. left.
  - vm_compute in Hres. discriminate.
Qed.

(** C1 (amended): for every response and vocabulary, in both copies of
    [_resolve_category]: the response, stripped of surrounding white space,
    is returned when it is an element of the vocabulary; otherwise the
    result is the first entry, in the order of the vocabulary, whose
    normalisation equals the normalised response or contains it or occurs
    in it; when no entry does, the result is "Uncategorized". The response
    "Kids Supplies" followed by U+1F476 resolves to "Kids Supplies" against
    ["Kids Supplies", "Wardrobe"], and "totally unknown" to
    "Uncategorized". *)
Theorem resolve_category_first_match :
  (∀ (U : UnicodeData) (ai_response : option pystr) (valid : list pystr),
     let r := strip (default [] ai_response) in
     let n := AmazonCsvToYnab.normalize r in
     let result := AmazonCsvToYnab._resolve_category ai_response valid in
     (r ∈ valid → result = r)
     ∧ (r ∉ valid → ∀ pre cat post,
          valid = pre ++ cat :: post →
          (∀ x, x ∈ pre → ¬ answers n x) → answers n cat → result = cat)
     ∧ (r ∉ valid → (∀ x, x ∈ valid → ¬ answers n x) →
          result = AmazonCsvToYnab.DEFAULT_CATEGORY)
     ∧ ApplyCsvCategories._resolve_category ai_response valid = result)
  ∧ AmazonCsvToYnab._resolve_category (Some kids_supplies_baby)
      [py "Kids Supplies"; py "Wardrobe"] = py "Kids Supplies"
  ∧ AmazonCsvToYnab._resolve_category (Some (py "totally unknown"))
      [py "Kids Supplies"; py "Wardrobe"] = py "Uncategorized".
Proof.
  split; [|split; by vm_compute].
  intros U ai_response valid r n result.
  destruct (resolve_category_stages ai_response valid) as (H1 & H2 & H3).
  repeat split; [done | done | done |].
  apply resolve_category_copies.
Qed.

End ResolveFacts.

(** ** The record parser and the deduplicator *)

Module NormalizerFacts.
Import Py StrFacts AmazonCsvToYnab.

Lemma float_pos_opp_abs (f : spec_float) : float_pos (SFopp (SFabs f)) = false.
Proof. by destruct f as [[]|[]| |[] m e]. Qed.

Lemma float_pos_nonzero (f : spec_float) : float_pos f = true → float_nonzero f = true.
Proof. by destruct f as [[]|[]| |[] m e]. Qed.

Section Parse.
Context `{UnicodeData}.
Variable float_str : spec_float -> pystr.

(** The memo names a refund: one of the three words occurs in it once
    lower-cased. *)
Definition names_refund (memo_str : pystr) : Prop :=
  ∃ w, w ∈ REFUND_WORDS ∧ occurs_in w (lower memo_str).

Lemma refund_memo_spec (memo_str : pystr) :
  refund_memo memo_str = true ↔ names_refund memo_str.
Proof.
  unfold refund_memo, names_refund. rewrite existsb_exists. split.
  - intros (w & Hw & Hin). exists w. split; [by apply list_elem_of_In|].
    by apply str_in_spec.
  - intros (w & Hw & Hin). exists w. split; [by apply list_elem_of_In|].
    by apply str_in_spec.
Qed.

Lemma amount_ynab_refund (amount_val : spec_float) (memo_str : pystr) :
  float_pos amount_val = true → names_refund memo_str →
  amount_ynab amount_val memo_str = PyFloat amount_val.
Proof.
  intros Hpos Hm. apply refund_memo_spec in Hm.
  unfold amount_ynab. by rewrite Hpos, Hm.
Qed.

Lemma amount_ynab_outflow (amount_val : spec_float) (memo_str : pystr) :
  ¬ (float_pos amount_val = true ∧ names_refund memo_str) →
  amount_ynab amount_val memo_str
  = if float_nonzero amount_val then PyFloat (SFopp (SFabs amount_val))
    else PyInt 0.
Proof.
  intros Hno. unfold amount_ynab.
  destruct (float_pos amount_val) eqn:Hpos; simpl; [|done].
  destruct (refund_memo memo_str) eqn:Hm; [|done].
  destruct Hno. split; [done|]. by apply refund_memo_spec.
Qed.

Lemma amount_ynab_positive (amount_val : spec_float) (memo_str : pystr) :
  num_pos (amount_ynab amount_val memo_str) = true
  ↔ float_pos amount_val = true ∧ names_refund memo_str.
Proof.
  split.
  - intros Hp.
    destruct (decide (float_pos amount_val = true ∧ refund_memo memo_str = true))
      as [[? ?]|Hno].
    { split; [done|]. by apply refund_memo_spec. }
    rewrite amount_ynab_outflow in Hp.
    + destruct (float_nonzero amount_val); simpl in Hp; [|done].
      by rewrite float_pos_opp_abs in Hp.
    + intros [? ?%refund_memo_spec]. by apply Hno.
  - intros [Hpos Hm]. by rewrite amount_ynab_refund.
Qed.

Lemma parse_row_amount (row : csv_row) (date_str : pystr) (amount_val : spec_float) :
  cell_date row = Some date_str → date_str ≠ [] →
  cell_amount row = Some amount_val →
  ∃ r, parse_row float_str row = Some r
       ∧ Date r = date_str
       ∧ Amount r = amount_ynab amount_val
                      (slice_to 500 (strip (default [] (cell_memo row)))).
Proof.
  intros Hd Hne Ha. unfold parse_row. rewrite Hd, Ha.
  rewrite bool_decide_eq_false_2 by done. eauto.
Qed.
End Parse.

Definition row_12_34 (memo : string) : csv_row :=
  {| cell_date := Some (py "2025-12-10");
     cell_amount := Some (float_ratio 1234 100);
     cell_memo := Some (py memo);
     cell_order_id := None;
     cell_order_total := None |}.

(** C2: a row whose date and amount parse yields a record; its amount is
    positive exactly when the parsed value is strictly positive and the
    lower-cased memo contains "return", "refund" or "reimbursement", and
    is then the parsed value itself; in every other case it is the negation
    of the absolute value of the parsed amount, a parsed zero giving 0.
    The amount 12.34 gives +12.34 with the memo "refund issued" and -12.34
    with the memo "wireless mouse". *)
Theorem sign_convention :
  (∀ (U : UnicodeData) (float_str : spec_float → pystr) (row : csv_row)
     (date_str : pystr) (amount_val : spec_float),
     cell_date row = Some date_str → date_str ≠ [] →
     cell_amount row = Some amount_val →
     ∃ r, parse_row float_str row = Some r ∧
       let memo_str := slice_to 500 (strip (default [] (cell_memo row))) in
       let refund := float_pos amount_val = true ∧ names_refund memo_str in
       (num_pos (Amount r) = true ↔ refund)
       ∧ (refund → Amount r = PyFloat amount_val)
       ∧ (¬ refund →
            Amount r = if float_nonzero amount_val
                       then PyFloat (SFopp (SFabs amount_val))
                       else PyInt 0))
  ∧ (∀ float_str, Amount <$> parse_row float_str (row_12_34 "refund issued")
                  = Some (PyFloat (float_ratio 1234 100)))
  ∧ (∀ float_str, Amount <$> parse_row float_str (row_12_34 "wireless mouse")
                  = Some (PyFloat (float_ratio (-1234) 100))).
Proof.
  split; [|split; intros float_str; by vm_compute].
  intros U float_str row date_str amount_val Hd Hne Ha.
  destruct (parse_row_amount float_str row date_str amount_val Hd Hne Ha)
    as (r & Hr & _ & Hamt).
  exists r. split; [done|]. simpl. rewrite Hamt. split; [|split].
  - apply amount_ynab_positive.
  - intros [? ?]. by apply amount_ynab_refund.
  - apply amount_ynab_outflow.
Qed.

(** *** Deduplication *)

(** No record of [rows] has the key of an earlier one or a key in [seen]. *)
Fixpoint fresh (seen : list dedup_key) (rows : list out_row) : Prop :=
  match rows with
  | [] => True
  | r :: rest => key_in (key_of r) seen = false ∧ fresh (key_of r :: seen) rest
  end.

Lemma key_in_true (k : dedup_key) (seen : list dedup_key) :
  key_in k seen = true ↔ ∃ k', k' ∈ seen ∧ key_eqb k k' = true.
Proof.
  unfold key_in. rewrite existsb_exists.
  split; intros (k' & Hin & E); exists k'; (split; [by apply list_elem_of_In|done]).
Qed.

Lemma key_in_mono (k : dedup_key) (seen seen' : list dedup_key) :
  seen' ⊆ seen → key_in k seen = false → key_in k seen' = false.
Proof.
  intros Hsub Hno. destruct (key_in k seen') eqn:E; [|done].
  apply key_in_true in E as (k' & Hin & E).
  assert (key_in k seen = true) as Hyes by (apply key_in_true; eauto).
  congruence.
Qed.

Lemma fresh_mono (rows : list out_row) (seen seen' : list dedup_key) :
  seen' ⊆ seen → fresh seen rows → fresh seen' rows.
Proof.
  revert seen seen'. induction rows as [|r rows IH]; intros seen seen' Hsub; simpl; [done|].
  intros [Hno Hrest]. split; [by eapply key_in_mono|].
  eapply IH; [|done].
  intros k Hk. apply elem_of_cons in Hk as [->|Hk]; [left | right; by apply Hsub].
Qed.

Lemma dedup_loop_fresh (rows : list out_row) (seen : list dedup_key) :
  fresh seen (dedup_loop seen rows).
Proof.
  revert seen. induction rows as [|r rows IH]; intros seen; simpl; [done|].
  destruct (key_in (key_of r) seen) eqn:E; simpl; [apply IH|].
  split; [done | apply IH].
Qed.





Lemma deduped_sublist (rows : list out_row) (seen : list dedup_key) :
  sublist (dedup_loop seen rows) rows.
Proof.
  revert seen. induction rows as [|r rows IH]; intros seen; simpl; [done|].
  destruct (key_in _ _); [apply sublist_cons | apply sublist_skip]; apply IH.
Qed.




(** *** Rows with a zero amount *)

Definition free_sample_row : csv_row :=
  {| cell_date := Some (py "2025-12-10");
     cell_amount := Some (S754_zero false);
     cell_memo := Some (py "free sample");
     cell_order_id := None;
     cell_order_total := None |}.

(** C3, as stated, fails: a row dated 2025-12-10 with amount 0 and memo
    "free sample" is a line of the Output CSV, with amount 0. *)
Lemma zero_amount_row_is_written :
  output_no_ai (fun _ => []) [free_sample_row]
  = [ {| Date := py "2025-12-10"; Payee := py "Amazon.ca";
         Memo := py "free sample"; Amount := PyInt 0;
         Category := py "Uncategorized"; OrderId := [] |} ].
Proof. by vm_compute. Qed.

Section ZeroRows.
Context `{UnicodeData}.
Variable float_str : spec_float -> pystr.

Lemma rows_out_elem (rows : list csv_row) (row : csv_row) (r : out_row) :
  row ∈ rows → parse_row float_str row = Some r → r ∈ rows_out float_str rows.
Proof.
  intros Hin Hr. unfold rows_out. apply list_elem_of_omap. eauto.
Qed.

(** Every parsed record is in the output or has the key of one that is. *)
Lemma deduped_represents (rows : list out_row) (r : out_row) (seen : list dedup_key) :
  r ∈ rows →
  key_in (key_of r) seen = true
  ∨ r ∈ dedup_loop seen rows
  ∨ ∃ r', r' ∈ dedup_loop seen rows ∧ key_eqb (key_of r) (key_of r') = true.
Proof.
  revert seen. induction rows as [|x rows IH]; intros seen Hin; [by apply elem_of_nil in Hin|].
  simpl. apply elem_of_cons in Hin as [->|Hin].
  - destruct (key_in (key_of x) seen) eqn:E; [by left|]. right. left. left.
  - destruct (key_in (key_of x) seen) eqn:E; [by apply IH|].
    destruct (IH (key_of x :: seen) Hin) as [Hs|[Hk|(r' & Hr' & Hk)]].
    + unfold key_in in Hs. simpl in Hs. apply orb_true_iff in Hs as [Hs|Hs].
      * right. right. exists x. split; [left | done].
      * by left.
    + right. left. by right.
    + right. right. exists r'. split; [by right | done].
Qed.

Lemma zero_row_kept (rows : list csv_row) (row : csv_row) (date_str : pystr) (s : bool) :
  row ∈ rows → cell_date row = Some date_str → date_str ≠ [] →
  cell_amount row = Some (S754_zero s) →
  ∃ r, r ∈ normalized float_str rows ∧ Date r = date_str
       ∧ num_eqb (Amount r) (PyInt 0) = true.
Proof.
  intros Hin Hd Hne Ha.
  destruct (parse_row_amount float_str row date_str _ Hd Hne Ha) as (r & Hr & Hdate & Hamt).
  assert (Amount r = PyInt 0) as Hzero.
  { rewrite Hamt. unfold amount_ynab. by destruct s. }
  pose proof (rows_out_elem rows row r Hin Hr) as Hout.
  destruct (deduped_represents _ r [] Hout) as [Hs|[Hk|(r' & Hr' & Hk)]].
  - done.
  - exists r. unfold normalized, deduped. by rewrite Hzero.
  - exists r'. split; [done|].
    unfold key_eqb, key_of in Hk. rewrite Hzero in Hk.
    apply andb_true_iff in Hk as [Hk _]. apply andb_true_iff in Hk as [Hk1 Hk2].
    apply str_eqb_true in Hk1. split; [congruence|].
    destruct (Amount r') as [[| |]|[[]|[]| |[] m e]];
      vm_compute in Hk2 |- *; done.
Qed.
End ZeroRows.

End NormalizerFacts.

(** ** The importer *)

Module ImportFacts.
Import Py StrFacts YnabImport.

Section Read.
Context `{UnicodeData}.

Lemma read_row_zero (row : csv_row) (s : bool) :
  Amount row = Some (S754_zero s) → read_row row = Ok None.
Proof.
  intros Ha. unfold read_row. rewrite Ha. by destruct (Date row), s.
Qed.

Lemma read_row_negative (row : csv_row) (x : raw_row) :
  read_row row = Ok (Some x) → snd (fst (fst x)) < 0.
Proof.
  unfold read_row. destruct (Date row) as [d|]; [|done].
  destruct (Amount row) as [raw|]; [|done].
  destruct (round _) as [amount|[]]; try done.
  destruct (0 <? amount) eqn:E.
  - destruct (- amount =? 0) eqn:E0; [done|]. intros [= <-]. simpl. lia.
  - destruct (amount =? 0) eqn:E0; [done|]. intros [= <-]. simpl. lia.
Qed.

Lemma read_rows_negative (rows : list csv_row) (raw_rows : list raw_row) :
  read_rows rows = Ok raw_rows → Forall (fun x => snd (fst (fst x)) < 0) raw_rows.
Proof.
  revert raw_rows. induction rows as [|row rows IH]; intros raw_rows; simpl.
  - intros [= <-]. constructor.
  - destruct (read_row row) as [r|] eqn:Er; [|done]. simpl.
    destruct (read_rows rows) as [rs|]; [|done]. simpl.
    intros [= <-]. destruct r as [x|]; [|by apply IH].
    constructor; [by eapply read_row_negative | by apply IH].
Qed.

End Read.

(** Every group has a member, and its members have negative amounts. *)
Definition sound_group (g : pystr * list group_row) : Prop :=
  snd g ≠ [] ∧ Forall (fun it => snd (fst it) < 0) (snd g).

Lemma group_append_sound (key : pystr) (item : group_row)
    (groups : list (pystr * list group_row)) :
  snd (fst item) < 0 → Forall sound_group groups →
  Forall sound_group (group_append key item groups).
Proof.
  intros Hneg. induction groups as [|[k items] groups IH]; intros Hs; simpl.
  - repeat constructor; simpl; [done|done].
  - apply Forall_cons in Hs as [[Hne Hall] Hs].
    destruct (str_eqb k key); constructor; try done.
    + split; simpl in *.
      * by destruct items.
      * apply Forall_app. split; [done|]. by constructor.
    + by apply IH.
Qed.

Lemma group_rows_sound (raw_rows : list raw_row) :
  Forall (fun x => snd (fst (fst x)) < 0) raw_rows →
  Forall sound_group (group_rows raw_rows).
Proof.
  unfold group_rows.
  assert (∀ acc, Forall sound_group acc →
            Forall (fun x : raw_row => snd (fst (fst x)) < 0) raw_rows →
            Forall sound_group
              (foldl (fun groups '(date_obj, amount, row, order_id) =>
                        match order_id with
                        | [] => group_append (composite_key date_obj amount row)
                                             (date_obj, amount, row) groups
                        | _ => group_append order_id (date_obj, amount, row) groups
                        end) acc raw_rows)) as Hgen.
  { induction raw_rows as [|[[[d a] row] oid] raw_rows IH]; intros acc Hacc Hall; simpl; [done|].
    apply Forall_cons in Hall as [Ha Hall]. simpl in Ha.
    apply IH; [|done]. destruct oid; by apply group_append_sound. }
  intros Hall. apply Hgen; [constructor | done].
Qed.

Lemma sum_negative (l : list Z) :
  l ≠ [] → Forall (fun a => a < 0) l → foldr Z.add 0 l < 0.
Proof.
  induction l as [|a l IH]; [done|]. intros _ Hall.
  apply Forall_cons in Hall as [Ha Hall]. simpl.
  destruct l as [|b l]; [simpl; lia|].
  assert (foldr Z.add 0 (b :: l) < 0) by (by apply IH). lia.
Qed.

Section Build.
Context `{UnicodeData}.
Variable DAYS_TOLERANCE : Z.
Variable category_id_map : gmap pystr pystr.
Variable existing_by_amount : gmap Z (list date).

(** What a built transaction carries, single or split. *)
Lemma build_transaction_fields (rows : list group_row) (t : new_transaction) :
  build_transaction DAYS_TOLERANCE category_id_map existing_by_amount rows = Some t →
  nt_amount t = foldr Z.add 0 ((fun r => snd (fst r)) <$> rows)
  ∧ (∃ first, head rows = Some first ∧ nt_date t = fst (fst first))
  ∧ nt_import_id t = import_id_of (nt_amount t) (nt_date t).
Proof.
  unfold build_transaction. destruct rows as [|[[date_obj a] first] rest]; [done|].
  set (total := foldr Z.add 0 _).
  destruct (total =? 0); [done|].
  destruct (is_duplicate _ _ _ _); [done|].
  destruct (cat_amounts_of _ _) as [|[c1 a1] [|c2 l]]; [done| |];
    intros [= <-]; simpl; eauto.
Qed.

Lemma build_transaction_negative (g : pystr * list group_row) (t : new_transaction) :
  sound_group g →
  build_transaction DAYS_TOLERANCE category_id_map existing_by_amount (snd g) = Some t →
  nt_amount t < 0.
Proof.
  intros [Hne Hall] Hb. apply build_transaction_fields in Hb as (-> & _).
  apply sum_negative.
  - by destruct (snd g).
  - by apply Forall_fmap.
Qed.

Lemma import_of_negative (rows : list csv_row) (txs : list new_transaction) :
  import_of DAYS_TOLERANCE category_id_map existing_by_amount rows = Ok txs →
  Forall (fun t => nt_amount t < 0) txs.
Proof.
  unfold import_of. destruct (read_rows rows) as [raw_rows|] eqn:Er; [|done].
  simpl. intros [= <-].
  apply read_rows_negative in Er. apply group_rows_sound in Er.
  unfold transactions_to_import. apply Forall_forall. intros t Ht.
  apply list_elem_of_omap in Ht as (g & Hg & Hb).
  eapply build_transaction_negative; [|done].
  by eapply Forall_forall in Er.
Qed.
End Build.

(** C3 (amended): a row whose amount parses to exactly 0, and whose date
    parses, is kept by the normaliser: the records it writes include one
    with that date and amount 0. The importer passes such a row over, and
    every transaction it submits has a strictly negative amount. *)
Theorem zero_amount_rows :
  (∀ (U : UnicodeData) (float_str : spec_float → pystr)
     (rows : list AmazonCsvToYnab.csv_row) (row : AmazonCsvToYnab.csv_row)
     (date_str : pystr) (s : bool),
     row ∈ rows →
     AmazonCsvToYnab.cell_date row = Some date_str → date_str ≠ [] →
     AmazonCsvToYnab.cell_amount row = Some (S754_zero s) →
     ∃ r, r ∈ AmazonCsvToYnab.normalized float_str rows
          ∧ AmazonCsvToYnab.Date r = date_str
          ∧ num_eqb (AmazonCsvToYnab.Amount r) (PyInt 0) = true)
  ∧ (∀ (U : UnicodeData) (row : csv_row) (s : bool),
       Amount row = Some (S754_zero s) → read_row row = Ok None)
  ∧ (∀ (U : UnicodeData) (DAYS_TOLERANCE : Z) (category_id_map : gmap pystr pystr)
       (existing_by_amount : gmap Z (list date)) (rows : list csv_row)
       (txs : list new_transaction),
       import_of DAYS_TOLERANCE category_id_map existing_by_amount rows = Ok txs →
       ∀ t, t ∈ txs → nt_amount t < 0).
Proof.
  split; [|split].
  - intros U float_str rows row date_str s.
    apply NormalizerFacts.zero_row_kept.
  - intros U row s. apply read_row_zero.
  - intros U tol cmap existing rows txs Himp t Ht.
    apply import_of_negative in Himp. by eapply Forall_forall in Himp.
Qed.

(** The total and the date of a group. *)
Definition group_total (rows : list group_row) : Z :=
  foldr Z.add 0 ((fun r => snd (fst r)) <$> rows).

Definition group_date (rows : list group_row) : option date :=
  (fun r => fst (fst r)) <$> head rows.

(** C10: two groups with the same total and the same date are given the
    same import id, "YNAB:<total>:<date>:1", whether each becomes a single
    or a split transaction. *)
Theorem import_id_collision `{UnicodeData} (DAYS_TOLERANCE : Z)
    (category_id_map : gmap pystr pystr) (existing_by_amount : gmap Z (list date))
    (g1 g2 : list group_row) (t1 t2 : new_transaction) :
  build_transaction DAYS_TOLERANCE category_id_map existing_by_amount g1 = Some t1 →
  build_transaction DAYS_TOLERANCE category_id_map existing_by_amount g2 = Some t2 →
  group_total g1 = group_total g2 →
  group_date g1 = group_date g2 →
  nt_import_id t1 = nt_import_id t2
  ∧ nt_import_id t1
    = py "YNAB:" ++ str_of_Z (group_total g1) ++ py ":"
        ++ isoformat (nt_date t1) ++ py ":1".
Proof.
  intros H1 H2 Htot Hdate.
  apply build_transaction_fields in H1 as (Ha1 & (f1 & Hf1 & Hd1) & Hi1).
  apply build_transaction_fields in H2 as (Ha2 & (f2 & Hf2 & Hd2) & Hi2).
  unfold group_total, group_date in *. rewrite Hf1, Hf2 in Hdate.
  injection Hdate as Hdate.
  rewrite Hi1, Hi2, Ha1, Ha2, Hd1, Hd2, Htot, Hdate. done.
Qed.

Definition order_row (category : string) : csv_row :=
  {| Date := Some (ymd2ord 2025 12 10); Amount := None;
     Payee := Some (py "Amazon.ca"); Memo := Some (py "order");
     Category := Some (py category); OrderId := None |}.

Definition two_categories : gmap pystr pystr :=
  <[py "a" := py "id-a"]> (<[py "b" := py "id-b"]> ∅).

Definition single_group : list group_row :=
  [ (ymd2ord 2025 12 10, -35000, order_row "A") ].

Definition split_group : list group_row :=
  [ (ymd2ord 2025 12 10, -15000, order_row "A");
    (ymd2ord 2025 12 10, -20000, order_row "B") ].

Lemma import_id_collision_witness :
  ∃ t1 t2,
    build_transaction 5 two_categories ∅ single_group = Some t1
    ∧ build_transaction 5 two_categories ∅ split_group = Some t2
    ∧ nt_subtransactions t1 = None
    ∧ nt_subtransactions t2 = Some [(-15000, Some (py "id-a")); (-20000, Some (py "id-b"))]
    ∧ nt_import_id t1 = nt_import_id t2
    ∧ nt_import_id t1 = py "YNAB:-35000:2025-12-10:1".
Proof.
  destruct (build_transaction 5 two_categories ∅ single_group) as [t1|] eqn:E1;
    [|by vm_compute in E1].
  destruct (build_transaction 5 two_categories ∅ split_group) as [t2|] eqn:E2;
    [|by vm_compute in E2].
  exists t1, t2.
  destruct (import_id_collision 5 two_categories ∅ single_group split_group t1 t2
              E1 E2 eq_refl eq_refl) as [Hsame Hform].
  vm_compute in E1, E2. injection E1 as <-. injection E2 as <-.
  repeat split; try done.
Defined.

End ImportFacts.

(** ** The ledger matcher *)

Module MatcherFacts.
Import Py StrFacts Ledger ApplyCsvCategories.

Lemma milliunits_of_nonpos (amt : spec_float) (milliunits : Z) :
  milliunits_of amt = Ok milliunits → milliunits <= 0.
Proof.
  unfold milliunits_of. destruct (round _) as [m|]; [|done]. simpl.
  intros [= <-]. destruct (0 <? m) eqn:E; lia.
Qed.

(** The entries of an amount among (date, milliunits, category) triples. *)
Definition picks (amt : Z) (es : list (date * Z * pystr)) : list (date * pystr) :=
  omap (fun '(d, milliunits, cat) =>
          if milliunits =? amt then Some (d, cat) else None) es.

Lemma picks_app (amt : Z) (es es' : list (date * Z * pystr)) :
  picks amt (es ++ es') = picks amt es ++ picks amt es'.
Proof. apply omap_app. Qed.

Lemma elem_of_picks (amt : Z) (es : list (date * Z * pystr)) (d : date) (cat : pystr) :
  (d, cat) ∈ picks amt es ↔ (d, amt, cat) ∈ es.
Proof.
  unfold picks. rewrite list_elem_of_omap. split.
  - intros ([[d' mu] c] & Hin & Hsel).
    destruct (mu =? amt) eqn:E; [|done]. apply Z.eqb_eq in E as ->.
    by injection Hsel as -> ->.
  - intros Hin. exists (d, amt, cat). split; [done|]. by rewrite Z.eqb_refl.
Qed.

Section Load.
Context `{UnicodeData}.

(** What one row adds to the two dictionaries, when it adds anything. *)
Definition entry (row : csv_row) : option (date * Z * pystr) :=
  match Date row, Amount row with
  | Some d, Some amt =>
      match milliunits_of amt with
      | Ok milliunits =>
          let cat := strip (default [] (Category row)) in
          if bool_decide (cat = []) || str_eqb (lower cat) (py "uncategorized")
          then None
          else Some (d, milliunits, cat)
      | Raise _ => None
      end
  | _, _ => None
  end.

Definition entries (rows : list csv_row) : list (date * Z * pystr) :=
  omap entry rows.

(** The entries of the rows that carry the amount [amt]. *)
Definition contributions (amt : Z) (rows : list csv_row) : list (date * pystr) :=
  picks amt (entries rows).

Lemma entry_sound (row : csv_row) (d : date) (milliunits : Z) (cat : pystr) :
  entry row = Some (d, milliunits, cat) → milliunits <= 0 ∧ cat ≠ [].
Proof.
  unfold entry. destruct (Date row) as [d'|]; [|done].
  destruct (Amount row) as [amt|]; [|done].
  destruct (milliunits_of amt) as [mu|] eqn:Em; [|done].
  destruct (bool_decide _ || _) eqn:E; [done|].
  intros [= <- <- <-]. apply orb_false_iff in E as [E _].
  apply bool_decide_eq_false in E. split; [by eapply milliunits_of_nonpos | done].
Qed.

Lemma entries_sound (rows : list csv_row) (d : date) (milliunits : Z) (cat : pystr) :
  (d, milliunits, cat) ∈ entries rows → milliunits <= 0 ∧ cat ≠ [].
Proof.
  unfold entries. rewrite list_elem_of_omap. intros (row & _ & He).
  by eapply entry_sound.
Qed.

(** The two dictionaries hold exactly the entries [es]. *)
Record holds (es : list (date * Z * pystr))
    (lookup : gmap (date * Z) pystr) (by_amount : gmap Z (list (date * pystr))) : Prop := {
  holds_lookup : ∀ d milliunits cat,
    lookup !! (d, milliunits) = Some cat → (d, milliunits, cat) ∈ es;
  holds_key : ∀ d milliunits cat,
    (d, milliunits, cat) ∈ es → is_Some (lookup !! (d, milliunits));
  holds_by_amount : ∀ amt,
    by_amount !! amt = match picks amt es with [] => None | l => Some l end
}.

Lemma holds_empty : holds [] ∅ ∅.
Proof.
  split.
  - intros d mu cat Hl. by rewrite lookup_empty in Hl.
  - intros d mu cat Hin. by apply elem_of_nil in Hin.
  - intros amt. by rewrite lookup_empty.
Qed.

Lemma holds_add (es : list (date * Z * pystr)) (lookup : gmap (date * Z) pystr)
    (by_amount : gmap Z (list (date * pystr))) (d : date) (milliunits : Z) (cat : pystr) :
  holds es lookup by_amount →
  holds (es ++ [(d, milliunits, cat)])
        (<[(d, milliunits) := cat]> lookup)
        (<[milliunits := default [] (by_amount !! milliunits) ++ [(d, cat)]]> by_amount).
Proof.
  intros [Hl Hk Hb]. split.
  - intros d' mu' cat' Hlk. apply elem_of_app.
    destruct (decide ((d, milliunits) = (d', mu'))) as [[= <- <-]|Hne].
    + rewrite lookup_insert_eq in Hlk. injection Hlk as <-. right. left.
    + rewrite lookup_insert_ne in Hlk by done. left. by apply Hl.
  - intros d' mu' cat' Hin. apply elem_of_app in Hin as [Hin|Hin].
    + destruct (decide ((d, milliunits) = (d', mu'))) as [[= <- <-]|Hne].
      * rewrite lookup_insert_eq. eauto.
      * rewrite lookup_insert_ne by done. by eapply Hk.
    + apply list_elem_of_singleton in Hin as [= -> -> ->].
      rewrite lookup_insert_eq. eauto.
  - intros amt. rewrite picks_app. simpl.
    destruct (decide (milliunits = amt)) as [->|Hne].
    + rewrite lookup_insert_eq, Z.eqb_refl, Hb. simpl.
      by destruct (picks amt es).
    + rewrite lookup_insert_ne by done.
      apply Z.eqb_neq in Hne. rewrite Hne. simpl. rewrite app_nil_r. apply Hb.
Qed.

Lemma load_loop_holds (rows : list csv_row) (es : list (date * Z * pystr))
    (lookup lookup' : gmap (date * Z) pystr)
    (by_amount by_amount' : gmap Z (list (date * pystr))) :
  holds es lookup by_amount →
  load_loop rows lookup by_amount = Ok (lookup', by_amount') →
  holds (es ++ entries rows) lookup' by_amount'.
Proof.
  revert es lookup by_amount.
  induction rows as [|row rows IH]; intros es lookup by_amount Hh; simpl.
  - intros [= <- <-]. by rewrite app_nil_r.
  - unfold entries. simpl. unfold entry at 1.
    destruct (Date row) as [d|]; [|by apply IH].
    destruct (Amount row) as [amt|]; [|by apply IH].
    destruct (milliunits_of amt) as [mu|] eqn:Em; simpl; [|done].
    destruct (bool_decide _ || _) eqn:E; [by apply IH|].
    intros Hload. rewrite cons_middle, app_assoc.
    eapply IH; [|done]. by apply holds_add.
Qed.

Lemma load_csv_lookup_holds (rows : list csv_row)
    (lookup : gmap (date * Z) pystr) (by_amount : gmap Z (list (date * pystr))) :
  load_csv_lookup rows = Ok (lookup, by_amount) →
  holds (entries rows) lookup by_amount.
Proof.
  intros Hload. eapply (load_loop_holds rows []); [apply holds_empty | done].
Qed.

(** The load returns when every amount has a number of milliunits. *)
Lemma load_loop_total (rows : list csv_row)
    (lookup : gmap (date * Z) pystr) (by_amount : gmap Z (list (date * pystr))) :
  (∀ row amt, row ∈ rows → Amount row = Some amt →
     ∃ milliunits, milliunits_of amt = Ok milliunits) →
  ∃ out, load_loop rows lookup by_amount = Ok out.
Proof.
  revert lookup by_amount.
  induction rows as [|row rows IH]; intros lookup by_amount Hfin; simpl; [eauto|].
  assert (∀ row' amt, row' ∈ rows → Amount row' = Some amt →
            ∃ milliunits, milliunits_of amt = Ok milliunits) as Hrest.
  { intros row' amt Hin. apply Hfin. by right. }
  destruct (Date row) as [d|]; [|by apply IH].
  destruct (Amount row) as [amt|] eqn:Ea; [|by apply IH].
  destruct (Hfin row amt) as [mu ->]; [left | done |]. simpl.
  destruct (bool_decide _ || _); by apply IH.
Qed.

Lemma tolerance_loop_some (lookup : gmap (date * Z) pystr) (d : date) (amt : Z)
    (deltas : list Z) (cat : pystr) :
  tolerance_loop lookup d amt deltas = Some cat
  ↔ ∃ pre delta post, deltas = pre ++ delta :: post
      ∧ (∀ x, x ∈ pre → lookup !! (d + x, amt) = None)
      ∧ lookup !! (d + delta, amt) = Some cat.
Proof.
  induction deltas as [|x deltas IH]; simpl.
  - split; [done|]. intros (pre & delta & post & Hd & _). by destruct pre.
  - destruct (lookup !! (d + x, amt)) as [c|] eqn:E.
    + split.
      * intros [= <-]. exists [], x, deltas. split; [done|]. split; [|done].
        intros y Hy. by apply elem_of_nil in Hy.
      * intros (pre & delta & post & Hd & Hpre & Hhit).
        destruct pre as [|y pre]; simplify_eq/=; [congruence|].
        rewrite Hpre in E; [done | left].
    + rewrite IH. split.
      * intros (pre & delta & post & -> & Hpre & Hhit).
        exists (x :: pre), delta, post. split; [done|]. split; [|done].
        intros y Hy. apply elem_of_cons in Hy as [->|Hy]; [done | by apply Hpre].
      * intros (pre & delta & post & Hd & Hpre & Hhit).
        destruct pre as [|y pre]; simplify_eq/=.
        exists pre, delta, post. split; [done|]. split; [|done].
        intros z Hz. apply Hpre. by right.
Qed.

Lemma tolerance_loop_none (lookup : gmap (date * Z) pystr) (d : date) (amt : Z)
    (deltas : list Z) :
  tolerance_loop lookup d amt deltas = None
  ↔ ∀ x, x ∈ deltas → lookup !! (d + x, amt) = None.
Proof.
  induction deltas as [|x deltas IH]; simpl.
  - split; [|done]. intros _ y Hy. by apply elem_of_nil in Hy.
  - destruct (lookup !! (d + x, amt)) as [c|] eqn:E.
    + split; [done|]. intros Hall. rewrite Hall in E; [done | left].
    + rewrite IH. split.
      * intros Hall y Hy. apply elem_of_cons in Hy as [->|Hy]; [done | by apply Hall].
      * intros Hall y Hy. apply Hall. by right.
Qed.

Lemma elem_of_DELTAS (x : Z) : x ∈ DELTAS ↔ x = -2 ∨ x = -1 ∨ x = 1 ∨ x = 2.
Proof.
  unfold DELTAS. rewrite !elem_of_cons, elem_of_nil. tauto.
Qed.

Section Match.
Variable rows : list csv_row.
Variable lookup : gmap (date * Z) pystr.
Variable by_amount : gmap Z (list (date * pystr)).
Hypothesis loaded : load_csv_lookup rows = Ok (lookup, by_amount).

Lemma lookup_entry (d : date) (amt : Z) (cat : pystr) :
  lookup !! (d, amt) = Some cat →
  (d, amt, cat) ∈ entries rows ∧ amt <= 0 ∧ truthy (Some cat) = true.
Proof.
  intros Hl. apply (holds_lookup _ _ _ (load_csv_lookup_holds _ _ _ loaded)) in Hl.
  split; [done|]. destruct (entries_sound _ _ _ _ Hl) as [Hle Hne].
  split; [done|]. by destruct cat.
Qed.

Lemma entry_lookup (d : date) (amt : Z) (cat : pystr) :
  (d, amt, cat) ∈ entries rows → is_Some (lookup !! (d, amt)).
Proof. apply (holds_key _ _ _ (load_csv_lookup_holds _ _ _ loaded)). Qed.

Lemma by_amount_contributions (amt : Z) :
  by_amount !! amt = match contributions amt rows with [] => None | l => Some l end.
Proof. apply (holds_by_amount _ _ _ (load_csv_lookup_holds _ _ _ loaded)). Qed.

Lemma date_match_exact (d : date) (amt : Z) (cat : pystr) :
  lookup !! (d, amt) = Some cat → date_match lookup d amt = Some cat.
Proof.
  intros Hl. unfold date_match. rewrite Hl.
  destruct (lookup_entry d amt cat Hl) as (_ & _ & ->). done.
Qed.

Lemma date_match_miss (d : date) (amt : Z) :
  lookup !! (d, amt) = None →
  date_match lookup d amt = tolerance_loop lookup d amt DELTAS.
Proof.
  intros Hl. unfold date_match. rewrite Hl. cbn [truthy].
  by destruct (tolerance_loop lookup d amt DELTAS).
Qed.

Lemma date_match_within (d : date) (amt : Z) (cat : pystr) :
  lookup !! (d, amt) = None → date_match lookup d amt = Some cat →
  ∃ d', (d', amt, cat) ∈ entries rows ∧ 1 <= Z.abs (d' - d) <= 2.
Proof.
  intros Hl Hm. rewrite date_match_miss in Hm by done.
  apply tolerance_loop_some in Hm as (pre & delta & post & Hd & _ & Hhit).
  exists (d + delta). split; [by apply lookup_entry|].
  assert (delta ∈ DELTAS) as Hin.
  { rewrite Hd. apply elem_of_app. right. left. }
  apply elem_of_DELTAS in Hin. lia.
Qed.

Lemma date_match_far (d : date) (amt : Z) :
  (∀ d' cat, (d', amt, cat) ∈ entries rows → 2 < Z.abs (d' - d)) →
  date_match lookup d amt = None.
Proof.
  intros Hfar.
  assert (∀ x, Z.abs x <= 2 → lookup !! (d + x, amt) = None) as Hnone.
  { intros x Hx. destruct (lookup !! (d + x, amt)) as [c|] eqn:E; [|done].
    apply lookup_entry in E as [E _]. apply Hfar in E. lia. }
  rewrite date_match_miss.
  - apply tolerance_loop_none. intros x Hx. apply Hnone.
    apply elem_of_DELTAS in Hx. lia.
  - rewrite <- (Z.add_0_r d). apply Hnone. lia.
Qed.

Lemma decide_tx_unmatched_by_date (tx : ledger_tx) (d : date) (amt : Z) :
  tx_date tx = Some d → tx_amount tx = Some amt →
  date_match lookup d amt = None →
  decide_tx lookup by_amount tx
  = match contributions amt rows with
    | [(_, cat)] => NewCategory cat
    | _ => NoMatch
    end.
Proof.
  intros Hd Ha Hm. unfold decide_tx, amount_match. rewrite Hd, Ha, Hm. simpl.
  rewrite by_amount_contributions.
  destruct (contributions amt rows) as [|[d' cat] [|e l]] eqn:Ec; try done.
  assert ((d', cat) ∈ contributions amt rows) as Hin by (rewrite Ec; left).
  apply elem_of_picks, entries_sound in Hin as [_ Hne].
  by destruct cat.
Qed.

Lemma decide_tx_positive (tx : ledger_tx) (amt : Z) :
  tx_amount tx = Some amt → 0 < amt →
  decide_tx lookup by_amount tx = NoMatch ∨ decide_tx lookup by_amount tx = Skipped.
Proof.
  intros Ha Hpos. destruct (tx_date tx) as [d|] eqn:Hd.
  - left. rewrite (decide_tx_unmatched_by_date tx d amt Hd Ha).
    + destruct (contributions amt rows) as [|[d' cat] l] eqn:Ec; [done|].
      assert ((d', cat) ∈ contributions amt rows) as Hin by (rewrite Ec; left).
      apply elem_of_picks, entries_sound in Hin as [Hle _]. lia.
    + apply date_match_far. intros d' cat Hin.
      apply entries_sound in Hin as [Hle _]. lia.
  - right. unfold decide_tx. by rewrite Hd.
Qed.
End Match.

End Load.

Definition csv_entry (d : date) (amount : spec_float) (category : string) : csv_row :=
  {| Date := Some d; Amount := Some amount; Category := Some (py category) |}.

Definition ledger_entry (d : date) (amount : Z) : ledger_tx :=
  {| tx_id := py "tx"; tx_date := Some d; tx_amount := Some amount;
     tx_category_name := None; tx_memo := Some (py "Amazon"); tx_deleted := false |}.

(** C4: for a transaction with no exact and no date-tolerance match, the
    list kept for its amount is the list of the entries the CSV rows
    contributed for that amount; a category is assigned exactly when that
    list has one entry, and with two or more entries the transaction stays
    unmatched. *)
Theorem amount_fallback_only_when_unique `{UnicodeData} (rows : list csv_row)
    (lookup : gmap (date * Z) pystr) (by_amount : gmap Z (list (date * pystr)))
    (tx : ledger_tx) (d : date) (amt : Z) :
  load_csv_lookup rows = Ok (lookup, by_amount) →
  tx_date tx = Some d → tx_amount tx = Some amt →
  lookup !! (d, amt) = None →
  tolerance_loop lookup d amt DELTAS = None →
  by_amount !! amt = match contributions amt rows with [] => None | l => Some l end
  ∧ (∀ cat, decide_tx lookup by_amount tx = NewCategory cat
            ↔ ∃ d', by_amount !! amt = Some [(d', cat)])
  ∧ ((2 <= length (contributions amt rows))%nat →
       decide_tx lookup by_amount tx = NoMatch).
Proof.
  intros Hload Hd Ha Hexact Htol.
  assert (date_match lookup d amt = None) as Hm.
  { by rewrite date_match_miss. }
  pose proof (by_amount_contributions rows lookup by_amount Hload amt) as Hb.
  rewrite (decide_tx_unmatched_by_date rows lookup by_amount Hload tx d amt Hd Ha Hm).
  split; [done|]. rewrite Hb.
  destruct (contributions amt rows) as [|[d' c] [|e l]]; simpl.
  - split; [|intros; lia]. intros cat. split; [done | by intros [? ?]].
  - split; [|intros; lia]. intros cat. split.
    + intros [= ->]. eauto.
    + by intros [d'' [= -> ->]].
  - split; [|done]. intros cat. split; [done | by intros [? ?]].
Qed.

Definition two_rows_1999 : list csv_row :=
  [ csv_entry (ymd2ord 2025 12 1) (float_ratio (-1999) 1000) "Groceries";
    csv_entry (ymd2ord 2025 12 20) (float_ratio (-1999) 1000) "Wardrobe" ].

(** Two rows with the amount -1999 and different categories: a transaction
    of -1999 dated 2025-12-10 stays unmatched. *)
Lemma amount_fallback_witness :
  ∃ lookup by_amount,
    load_csv_lookup two_rows_1999 = Ok (lookup, by_amount)
    ∧ by_amount !! (-1999)
      = Some [(ymd2ord 2025 12 1, py "Groceries"); (ymd2ord 2025 12 20, py "Wardrobe")]
    ∧ decide_tx lookup by_amount (ledger_entry (ymd2ord 2025 12 10) (-1999)) = NoMatch.
Proof.
  destruct (load_csv_lookup two_rows_1999) as [[lookup by_amount]|] eqn:E;
    [|by vm_compute in E].
  exists lookup, by_amount. split; [done|].
  destruct (amount_fallback_only_when_unique two_rows_1999 lookup by_amount
              (ledger_entry (ymd2ord 2025 12 10) (-1999)) (ymd2ord 2025 12 10) (-1999)
              E eq_refl eq_refl) as (Hb & _ & Hmany).
  - vm_compute in E. injection E as <- <-. by vm_compute.
  - vm_compute in E. injection E as <- <-. by vm_compute.
  - split; [by rewrite Hb | apply Hmany; vm_compute; lia].
Defined.

(** C5: an exact (date, amount) hit is taken first; when it misses, the
    result is the first hit among the dates shifted by -2, -1, +1, +2 days,
    in that order; the entry a shifted date hits lies one or two days away,
    and when every entry of the amount lies more than two days away neither
    step matches. A CSV entry dated 2025-12-10 with amount -4500 matches a
    transaction of -4500 dated 2025-12-12 and not one dated 2025-12-15. *)
Theorem date_tolerance_matching :
  (∀ (U : UnicodeData) (rows : list csv_row) (lookup : gmap (date * Z) pystr)
     (by_amount : gmap Z (list (date * pystr))) (d : date) (amt : Z),
     load_csv_lookup rows = Ok (lookup, by_amount) →
     (∀ cat, lookup !! (d, amt) = Some cat → date_match lookup d amt = Some cat)
     ∧ (lookup !! (d, amt) = None →
          (∀ cat, date_match lookup d amt = Some cat ↔
             ∃ pre delta post, [-2; -1; 1; 2] = pre ++ delta :: post
               ∧ (∀ x, x ∈ pre → lookup !! (d + x, amt) = None)
               ∧ lookup !! (d + delta, amt) = Some cat)
          ∧ (∀ cat, date_match lookup d amt = Some cat →
               ∃ d', (d', amt, cat) ∈ entries rows ∧ 1 <= Z.abs (d' - d) <= 2))
     ∧ ((∀ d' cat, (d', amt, cat) ∈ entries rows → 2 < Z.abs (d' - d)) →
          date_match lookup d amt = None))
  ∧ (∃ lookup by_amount,
       load_csv_lookup [csv_entry (ymd2ord 2025 12 10) (float_ratio (-45) 10) "Groceries"]
       = Ok (lookup, by_amount)
       ∧ date_match lookup (ymd2ord 2025 12 12) (-4500) = Some (py "Groceries")
       ∧ date_match lookup (ymd2ord 2025 12 15) (-4500) = None).
Proof.
  split.
  - intros U rows lookup by_amount d amt Hload. split; [|split].
    + intros cat. by apply (date_match_exact rows lookup by_amount).
    + intros Hmiss. split.
      * intros cat. rewrite date_match_miss by done.
        apply tolerance_loop_some.
      * intros cat. by apply (date_match_within rows lookup by_amount).
    + by apply (date_match_far rows lookup by_amount).
  - destruct (load_csv_lookup _) as [[lookup by_amount]|] eqn:E; [|by vm_compute in E].
    exists lookup, by_amount. split; [done|].
    vm_compute in E. injection E as <- <-. by vm_compute.
Qed.

(** C9: every (date, milliunits) key of the lookup and every key of the
    amount index has milliunits <= 0, so a transaction with a positive
    amount is given no category by the exact, the date-tolerance or the
    amount-only step. *)
Theorem lookup_amounts_nonpositive `{UnicodeData} (rows : list csv_row)
    (lookup : gmap (date * Z) pystr) (by_amount : gmap Z (list (date * pystr))) :
  load_csv_lookup rows = Ok (lookup, by_amount) →
  (∀ d milliunits cat, lookup !! (d, milliunits) = Some cat → milliunits <= 0)
  ∧ (∀ milliunits l, by_amount !! milliunits = Some l → milliunits <= 0)
  ∧ (∀ tx amt, tx_amount tx = Some amt → 0 < amt →
       (∀ d, tx_date tx = Some d →
          lookup !! (d, amt) = None ∧ tolerance_loop lookup d amt DELTAS = None)
       ∧ by_amount !! amt = None
       ∧ ∀ cat, decide_tx lookup by_amount tx ≠ NewCategory cat).
Proof.
  intros Hload. split; [|split].
  - intros d mu cat Hl.
    by destruct (lookup_entry rows lookup by_amount Hload d mu cat Hl) as (_ & ? & _).
  - intros mu l Hb.
    rewrite (by_amount_contributions rows lookup by_amount Hload) in Hb.
    destruct (contributions mu rows) as [|[d cat] l'] eqn:Ec; [done|].
    assert ((d, cat) ∈ contributions mu rows) as Hin by (rewrite Ec; left).
    by apply elem_of_picks, entries_sound in Hin as [? _].
  - intros tx amt Ha Hpos.
    assert (∀ d, lookup !! (d, amt) = None) as Hnone.
    { intros d. destruct (lookup !! (d, amt)) as [c|] eqn:E; [|done].
      apply (lookup_entry rows lookup by_amount Hload) in E as (_ & ? & _). lia. }
    split; [|split].
    + intros d Hd. split; [done|]. apply tolerance_loop_none. intros x _. apply Hnone.
    + rewrite (by_amount_contributions rows lookup by_amount Hload).
      destruct (contributions amt rows) as [|[d cat] l'] eqn:Ec; [done|].
      assert ((d, cat) ∈ contributions amt rows) as Hin by (rewrite Ec; left).
      apply elem_of_picks, entries_sound in Hin as [? _]. lia.
    + intros cat.
      by destruct (decide_tx_positive rows lookup by_amount Hload tx amt Ha Hpos) as [-> | ->].
Qed.

(** A purchase of 12.34 is stored under -12340; the refund of +12340 on
    the same day finds nothing. *)
Lemma lookup_amounts_witness :
  ∃ lookup by_amount,
    load_csv_lookup [csv_entry (ymd2ord 2025 12 10) (float_ratio 1234 100) "Groceries"]
    = Ok (lookup, by_amount)
    ∧ lookup !! (ymd2ord 2025 12 10, -12340) = Some (py "Groceries")
    ∧ (∀ d milliunits cat, lookup !! (d, milliunits) = Some cat → milliunits <= 0)
    ∧ decide_tx lookup by_amount (ledger_entry (ymd2ord 2025 12 10) 12340) = NoMatch.
Proof.
  destruct (load_csv_lookup _) as [[lookup by_amount]|] eqn:E; [|by vm_compute in E].
  exists lookup, by_amount. split; [done|].
  destruct (lookup_amounts_nonpositive _ lookup by_amount E) as (Hkeys & _ & _).
  split; [|split; [exact Hkeys|]];
    vm_compute in E; injection E as <- <-; by vm_compute.
Defined.

End MatcherFacts.

(** ** The AI categorisation call *)

Module CategorizeFacts.
Import Py StrFacts AmazonCsvToYnab.

Lemma defaults_lookup (v : json) (a n : nat) (i : Z) :
  (list_to_map ((fun k => (Z.of_nat k, v)) <$> seq a n) : gmap Z json) !! i
  = if decide (Z.of_nat a <= i < Z.of_nat a + Z.of_nat n) then Some v else None.
Proof.
  revert a. induction n as [|n IH]; intros a; simpl.
  - rewrite lookup_empty. case_decide; [lia | done].
  - destruct (decide (Z.of_nat a = i)) as [<-|Hne].
    + rewrite lookup_insert_eq. case_decide; [done | lia].
    + rewrite lookup_insert_ne by done. rewrite IH.
      repeat case_decide; try done; lia.
Qed.

Section Categorize.
Context `{UnicodeData} `{AiRuntime}.

Lemma all_default_lookup (n : nat) (i : Z) :
  all_default n !! i
  = if decide (0 <= i < Z.of_nat n) then Some (JStr DEFAULT_CATEGORY) else None.
Proof.
  unfold all_default. rewrite defaults_lookup.
  repeat case_decide; try done; lia.
Qed.

(** The ways the call can fail, stage by stage. *)
Inductive ai_failure (items categories : list pystr) : Prop :=
| no_api_key :
    api_key = None ∨ api_key = Some [] →
    ai_failure items categories
| request_raises (e : exn) :
    messages_create (slice_to 300 <$> items) categories = Raise e →
    ai_failure items categories
| no_text (content : list (option pystr)) :
    messages_create (slice_to 300 <$> items) categories = Ok content →
    head content = None ∨ head content = Some None →
    ai_failure items categories
| body_not_json (text : pystr) (content : list (option pystr)) (e : exn) :
    messages_create (slice_to 300 <$> items) categories = Ok (Some text :: content) →
    json_loads (unfence (strip text)) = Raise e →
    ai_failure items categories
| body_not_object (text : pystr) (content : list (option pystr)) (result : json) :
    messages_create (slice_to 300 <$> items) categories = Ok (Some text :: content) →
    json_loads (unfence (strip text)) = Ok result →
    (∀ kvs, result ≠ JDict kvs) →
    ai_failure items categories
| malformed_key (text : pystr) (content : list (option pystr))
    (kvs : list (pystr * json)) (k : pystr) (v : json) (e : exn) :
    messages_create (slice_to 300 <$> items) categories = Ok (Some text :: content) →
    json_loads (unfence (strip text)) = Ok (JDict kvs) →
    (k, v) ∈ kvs → int_of_str k = Raise e →
    ai_failure items categories.

Lemma int_keys_malformed (kvs : list (pystr * json)) (acc : gmap Z json)
    (k : pystr) (v : json) (e : exn) :
  (k, v) ∈ kvs → int_of_str k = Raise e → ∃ e', int_keys kvs acc = Raise e'.
Proof.
  revert acc. induction kvs as [|[k' v'] kvs IH]; intros acc Hin Hk.
  - by apply elem_of_nil in Hin.
  - simpl. apply elem_of_cons in Hin as [[= <- <-]|Hin].
    + rewrite Hk. simpl. eauto.
    + destruct (int_of_str k') as [i|e']; simpl; [by apply IH | eauto].
Qed.

Lemma categorize_with_ai_failure (items categories : list pystr) :
  ai_failure items categories →
  categorize_with_ai items categories = all_default (length items).
Proof.
  intros Hfail. unfold categorize_with_ai.
  destruct api_key as [[|c key]|] eqn:Ekey; [done| |done].
  assert (∃ e, ai_try items categories = Raise e) as [e ->]; [|done].
  unfold ai_try.
  destruct Hfail as [[?|?]|e He|content Hc Hhead|text content e Hc Hj
                    |text content result Hc Hj Hno|text content kvs k v e Hc Hj Hin Hk].
  - congruence.
  - congruence.
  - rewrite He. simpl. eauto.
  - rewrite Hc. destruct content as [|[t|] content]; simpl in *; eauto.
    destruct Hhead; done.
  - rewrite Hc. simpl. rewrite Hj. simpl. eauto.
  - rewrite Hc. simpl. rewrite Hj. simpl.
    destruct result as [| | | | | |kvs]; eauto. by destruct (Hno kvs).
  - rewrite Hc. simpl. rewrite Hj. simpl. by eapply int_keys_malformed.
Qed.

Lemma assign_batch_default (categories : list pystr) (n : nat) (batch : list out_row) (j : Z) :
  0 <= j → j + Z.of_nat (length batch) <= Z.of_nat n →
  assign_batch (all_default n) categories j batch
  = Ok (set_Category (_resolve_category (Some DEFAULT_CATEGORY) categories) <$> batch).
Proof.
  revert j. induction batch as [|r batch IH]; intros j Hj Hn; simpl; [done|].
  rewrite all_default_lookup. simpl in Hn.
  rewrite decide_True by lia. simpl.
  rewrite IH by lia. done.
Qed.

Lemma categorize_batch_failure (categories : list pystr) (batch : list out_row) :
  ai_failure (Memo <$> batch) categories →
  categorize_batch categories batch
  = Ok (set_Category (_resolve_category (Some DEFAULT_CATEGORY) categories) <$> batch).
Proof.
  intros Hfail. unfold categorize_batch.
  rewrite categorize_with_ai_failure by done.
  rewrite length_fmap. apply assign_batch_default; lia.
Qed.
End Categorize.

(** C6: when the call fails at any stage (no API key, the request raises,
    no text in the answer, a body that is not JSON once the code fence is
    removed, a body that is not an object, a key that is not an integer),
    [categorize_with_ai] returns the mapping that gives "Uncategorized" to
    every index from 0 to [len(items) - 1] and to no other; the batch is
    then completed from that mapping and the loop goes on with the batches
    that follow. *)
Theorem ai_failure_defaults `{UnicodeData} `{AiRuntime}
    (items categories : list pystr) :
  ai_failure items categories →
  categorize_with_ai items categories = all_default (length items)
  ∧ (∀ i : Z,
       categorize_with_ai items categories !! i
       = if decide (0 <= i < Z.of_nat (length items))
         then Some (JStr DEFAULT_CATEGORY) else None)
  ∧ (∀ rows i later,
       items = Memo <$> take BATCH_SIZE (drop i rows) →
       categorize_from (i :: later) categories rows
       = bind (categorize_from later categories rows) (fun rest =>
         Ok ((set_Category (_resolve_category (Some DEFAULT_CATEGORY) categories)
                <$> take BATCH_SIZE (drop i rows)) ++ rest))).
Proof.
  intros Hfail. split; [by apply categorize_with_ai_failure|]. split.
  - intros i. rewrite categorize_with_ai_failure by done. apply all_default_lookup.
  - intros rows i later ->. simpl.
    by rewrite categorize_batch_failure.
Qed.

(** A run in which the model answers in prose. *)
Definition prose_runtime : AiRuntime :=
  {| api_key := Some (py "key");
     messages_create := fun _ _ => Ok [Some (py "I cannot categorize these items.")];
     sub_fence_open := fun t => t;
     sub_fence_close := fun t => t;
     json_loads := fun _ => Raise JSONDecodeError;
     int_of_str := fun _ => Raise ValueError |}.

Lemma ai_failure_witness :
  @categorize_with_ai latin_emoji prose_runtime
     [py "wireless mouse"; py "picture book"] [py "Wardrobe"] !! 1
  = Some (JStr (py "Uncategorized"))
  ∧ @categorize_with_ai latin_emoji prose_runtime
      [py "wireless mouse"; py "picture book"] [py "Wardrobe"] !! 2
    = None.
Proof.
  destruct (@ai_failure_defaults latin_emoji prose_runtime
              [py "wireless mouse"; py "picture book"] [py "Wardrobe"])
    as (_ & Hlookup & _).
  - eapply (@body_not_json latin_emoji prose_runtime); reflexivity.
  - split; rewrite Hlookup; reflexivity.
Defined.

End CategorizeFacts.

(** ** Pagination *)

Module PaginationFacts.
Import Py Ledger.

(** [l] is the greatest date of [txs], starting from [acc]. *)
Lemma latest_from_some (txs : list ledger_tx) (acc : option date) (l : date) :
  latest_from acc txs = Some l →
  (acc = Some l ∨ ∃ t, t ∈ txs ∧ tx_date t = Some l)
  ∧ (∀ a, acc = Some a → a <= l)
  ∧ (∀ t d, t ∈ txs → tx_date t = Some d → d <= l).
Proof.
  revert acc. induction txs as [|t txs IH]; intros acc; simpl.
  - intros ->. split; [by left|]. split.
    + intros a [= ->]. lia.
    + intros t d Ht. by apply elem_of_nil in Ht.
  - destruct (tx_date t) as [d|] eqn:Ed.
    + destruct acc as [a|].
      * intros Hl. apply IH in Hl as (Hwhere & Hacc & Hall).
        assert (a <= l ∧ d <= l) as [Ha Hd].
        { destruct (a <? d) eqn:E; specialize (Hacc _ eq_refl); lia. }
        split; [|split].
        -- destruct Hwhere as [Hw|(t' & Ht' & Hd')].
           ++ destruct (a <? d) eqn:E; injection Hw as <-.
              ** right. exists t. split; [left | done].
              ** by left.
           ++ right. exists t'. split; [by right | done].
        -- by intros ? [= <-].
        -- intros t' d' Ht' Hd'. apply elem_of_cons in Ht' as [->|Ht'].
           ++ rewrite Ed in Hd'. injection Hd' as <-. done.
           ++ by eapply Hall.
      * intros Hl. apply IH in Hl as (Hwhere & Hacc & Hall).
        specialize (Hacc _ eq_refl).
        split; [|split].
        -- right. destruct Hwhere as [[= <-]|(t' & Ht' & Hd')].
           ++ exists t. split; [left | done].
           ++ exists t'. split; [by right | done].
        -- done.
        -- intros t' d' Ht' Hd'. apply elem_of_cons in Ht' as [->|Ht'].
           ++ rewrite Ed in Hd'. injection Hd' as <-. done.
           ++ by eapply Hall.
    + intros Hl. apply IH in Hl as (Hwhere & Hacc & Hall).
      split; [|split].
      * destruct Hwhere as [?|(t' & Ht' & Hd')]; [by left|].
        right. exists t'. split; [by right | done].
      * done.
      * intros t' d' Ht' Hd'. apply elem_of_cons in Ht' as [->|Ht'].
        -- congruence.
        -- by eapply Hall.
Qed.

Lemma latest_date_max (txs : list ledger_tx) (l : date) :
  latest_date txs = Some l →
  (∃ t, t ∈ txs ∧ tx_date t = Some l)
  ∧ (∀ t d, t ∈ txs → tx_date t = Some d → d <= l).
Proof.
  intros Hl. apply latest_from_some in Hl as ([?|?] & _ & ?); done.
Qed.

(** The service answers a request with transactions dated on or after the
    date requested. *)
Definition honours_since (srv : service) : Prop :=
  ∀ n since txs t d,
    srv n since = Ok txs → t ∈ txs → tx_date t = Some d → since <= d.

(** What the turn of a fetch loop has to do, with or without a cutoff
    date: stop on a short page, on a page without a single date and once
    the latest date of the page has reached the cutoff; on every other
    page, move the cursor to the day after the latest date of the page. *)
Definition advances (cutoff : option date) (page_turn : list ledger_tx → turn) : Prop :=
  (∀ txs, (length txs < 500)%nat → page_turn txs = Break)
  ∧ (∀ txs latest c,
       latest_date txs = Some latest → cutoff = Some c → c <= latest →
       page_turn txs = Break)
  ∧ (∀ txs, latest_date txs = None → page_turn txs = Break)
  ∧ (∀ txs latest,
       (500 <= length txs)%nat → latest_date txs = Some latest →
       (∀ c, cutoff = Some c → latest < c) →
       page_turn txs = Continue (latest + 1)).

Lemma full_page_not_empty (txs : list ledger_tx) :
  (500 <= length txs)%nat →
  (length txs <? 500)%nat || bool_decide (txs = []) = false.
Proof.
  intros Hlen. apply orb_false_iff. split.
  - apply Nat.ltb_ge. lia.
  - apply bool_decide_eq_false_2. intros ->. simpl in Hlen. lia.
Qed.

Lemma import_turn_advances : advances None YnabImport.page_turn.
Proof.
  unfold advances, YnabImport.page_turn, YnabImport.PAGE_SIZE.
  split; [|split; [|split]].
  - intros txs Hlen. apply Nat.ltb_lt in Hlen. by rewrite Hlen.
  - intros txs latest c _ [=].
  - intros txs ->. by destruct (_ || _).
  - intros txs latest Hlen -> _. by rewrite full_page_not_empty.
Qed.

Lemma cleanup_turn_advances :
  advances (Some CleanupAmazon.END_DATE) CleanupAmazon.page_turn.
Proof.
  unfold advances, CleanupAmazon.page_turn, CleanupAmazon.PAGE_SIZE.
  split; [|split; [|split]].
  - intros txs Hlen. apply Nat.ltb_lt in Hlen. by rewrite Hlen.
  - intros txs latest c -> [= <-] Hle. apply Z.leb_le in Hle. rewrite Hle.
    by destruct (_ || _).
  - intros txs ->. by destruct (_ || _).
  - intros txs latest Hlen -> Hc. rewrite full_page_not_empty by done.
    specialize (Hc _ eq_refl). apply Z.leb_gt in Hc. by rewrite Hc.
Qed.

(** A turn that goes on has seen a full page, and its new cursor is the
    day after the latest date of that page. *)
Lemma advances_continue (cutoff : option date) (page_turn : list ledger_tx → turn)
    (txs : list ledger_tx) (since' : date) :
  advances cutoff page_turn → page_turn txs = Continue since' →
  (500 <= length txs)%nat
  ∧ ∃ latest, latest_date txs = Some latest ∧ since' = latest + 1
              ∧ ∀ c, cutoff = Some c → latest < c.
Proof.
  intros (Hshort & Hcut & Hnone & Hfull) Hturn.
  destruct (decide (length txs < 500)%nat) as [Hlt|Hge].
  { rewrite (Hshort _ Hlt) in Hturn. done. }
  destruct (latest_date txs) as [latest|] eqn:El.
  2: { rewrite (Hnone _ El) in Hturn. done. }
  split; [lia|]. exists latest. split; [done|].
  assert ((∀ c, cutoff = Some c → latest < c)
          ∨ ∃ c, cutoff = Some c ∧ c <= latest) as [Hbelow|(c & Hc & Hle)].
  { destruct cutoff as [c|].
    - destruct (decide (c <= latest)); [right; eauto|].
      left. intros ? [= <-]. lia.
    - left. intros ? [=]. }
  - rewrite (Hfull txs latest) in Hturn; [|lia|done|done].
    injection Hturn as <-. done.
  - rewrite (Hcut _ _ _ El Hc Hle) in Hturn. done.
Qed.

Lemma cleanup_turn_below_cutoff (txs : list ledger_tx) (since' : date) :
  CleanupAmazon.page_turn txs = Continue since' → since' <= CleanupAmazon.END_DATE.
Proof.
  intros Hturn.
  destruct (advances_continue _ _ txs since' cleanup_turn_advances Hturn)
    as (_ & latest & _ & -> & Hc).
  specialize (Hc _ eq_refl). lia.
Qed.

(** Under [honours_since], a turn that continues moves the cursor forward. *)
Lemma advances_increases (cutoff : option date) (page_turn : list ledger_tx → turn)
    (srv : service) (n : nat) (since since' : date) (txs : list ledger_tx) :
  advances cutoff page_turn → honours_since srv →
  srv n since = Ok txs → page_turn txs = Continue since' → since < since'.
Proof.
  intros Hadv Hsrv Hpage Hturn.
  destruct (advances_continue _ _ txs since' Hadv Hturn) as (_ & latest & Hl & -> & _).
  apply latest_date_max in Hl as [(t & Ht & Hd) _].
  specialize (Hsrv n since txs t latest Hpage Ht Hd). lia.
Qed.

(** The cursors of a run: the first is [since], each later one is greater. *)
Definition increasing_from (since : date) (cursors : list date) : Prop :=
  ∃ rest, cursors = since :: rest
          ∧ Forall (fun c => since < c) rest
          ∧ StronglySorted Z.lt cursors.

Lemma increasing_from_cons (since since' : date) (cursors : list date) :
  since < since' → increasing_from since' cursors →
  increasing_from since (since :: cursors).
Proof.
  intros Hlt (rest & -> & Hall & Hsorted).
  exists (since' :: rest). split; [done|].
  assert (Forall (fun c => since < c) (since' :: rest)) as Hall'.
  { constructor; [done|]. eapply Forall_impl; [done|]. simpl. intros; lia. }
  split; [done|]. by constructor.
Qed.

Lemma increasing_from_single (since : date) : increasing_from since [since].
Proof.
  exists []. split; [done|]. split; [constructor|].
  constructor; constructor.
Qed.

Lemma increasing_NoDup (since : date) (cursors : list date) :
  increasing_from since cursors → NoDup cursors.
Proof.
  intros (rest & _ & _ & Hsorted). clear rest.
  induction Hsorted as [|c cursors Hs IH Hall]; constructor; [|done].
  intros Hin. eapply Forall_forall in Hall; [|done]. lia.
Qed.

Lemma import_cursors_increase (fuel : nat) (srv : service) (n : nat) (since : date)
    (existing existing' : gmap Z (list date)) (cursors : list date) :
  honours_since srv →
  YnabImport.existing_loop fuel srv n since existing = Some (cursors, existing') →
  increasing_from since cursors.
Proof.
  intros Hsrv. revert n since existing cursors existing'.
  induction fuel as [|fuel IH]; intros n since existing cursors existing'; simpl; [done|].
  destruct (srv n since) as [txs|] eqn:Epage.
  - destruct (YnabImport.page_turn txs) as [|since'] eqn:Eturn.
    + intros [= <- <-]. apply increasing_from_single.
    + destruct (YnabImport.existing_loop fuel srv (S n) since' _)
        as [[cs e]|] eqn:Erec; [|done].
      intros [= <- <-]. eapply increasing_from_cons; [|by eapply IH].
      by eapply (advances_increases _ _ srv n since since' txs import_turn_advances).
  - intros [= <- <-]. apply increasing_from_single.
Qed.

Lemma cleanup_cursors_increase (fuel : nat) (srv : service) (n : nat) (since : date)
    (cursors : list date) (all_txs : list ledger_tx) :
  honours_since srv →
  CleanupAmazon.fetch_loop fuel srv n since = Some (Ok (cursors, all_txs)) →
  increasing_from since cursors.
Proof.
  intros Hsrv. revert n since cursors all_txs.
  induction fuel as [|fuel IH]; intros n since cursors all_txs; simpl; [done|].
  destruct (srv n since) as [txs|] eqn:Epage; [|done].
  destruct (CleanupAmazon.page_turn txs) as [|since'] eqn:Eturn.
  - intros [= <- <-]. apply increasing_from_single.
  - destruct (CleanupAmazon.fetch_loop fuel srv (S n) since')
      as [[[cs txs']|]|] eqn:Erec; [|done|done].
    intros [= <- <-]. eapply increasing_from_cons; [|by eapply IH].
    by eapply (advances_increases _ _ srv n since since' txs cleanup_turn_advances).
Qed.

(** With the cutoff the loop ends: one turn per day up to [END_DATE] is
    enough. *)
Lemma cleanup_fetch_returns (fuel : nat) (srv : service) (n : nat) (since : date) :
  honours_since srv →
  (Z.to_nat (CleanupAmazon.END_DATE - since) < fuel)%nat →
  ∃ out, CleanupAmazon.fetch_loop fuel srv n since = Some out.
Proof.
  intros Hsrv. revert n since.
  induction fuel as [|fuel IH]; intros n since Hfuel; [lia|]. simpl.
  destruct (srv n since) as [txs|] eqn:Epage; [|eauto].
  destruct (CleanupAmazon.page_turn txs) as [|since'] eqn:Eturn; [eauto|].
  pose proof (advances_increases _ _ srv n since since' txs
                cleanup_turn_advances Hsrv Epage Eturn) as Hlt.
  pose proof (cleanup_turn_below_cutoff txs since' Eturn) as Hle.
  destruct (IH (S n) since') as [out ->]; [lia|].
  destruct out as [[cs txs']|]; eauto.
Qed.

(** The turn of the matcher stops where the others stop. *)
Lemma apply_turn_breaks (txs : list ledger_tx) :
  (length txs < 500)%nat ∨ latest_date txs = None →
  ApplyCsvCategories.page_turn txs = Ok Break.
Proof.
  unfold ApplyCsvCategories.page_turn, ApplyCsvCategories.PAGE_SIZE.
  intros [Hlen | ->].
  - apply Nat.ltb_lt in Hlen. by rewrite Hlen.
  - by destruct (_ || _).
Qed.

(** Where the others move the cursor, it raises. *)
Lemma apply_turn_raises (txs : list ledger_tx) (latest : date) :
  (500 <= length txs)%nat → latest_date txs = Some latest →
  ApplyCsvCategories.page_turn txs = Raise UnboundLocalError.
Proof.
  intros Hlen Hl. unfold ApplyCsvCategories.page_turn, ApplyCsvCategories.PAGE_SIZE.
  by rewrite full_page_not_empty, Hl.
Qed.

Lemma apply_turn_outcomes (txs : list ledger_tx) :
  ApplyCsvCategories.page_turn txs = Ok Break
  ∨ ApplyCsvCategories.page_turn txs = Raise UnboundLocalError.
Proof.
  destruct (decide (length txs < 500)%nat) as [Hlt|Hge].
  { left. apply apply_turn_breaks. by left. }
  destruct (latest_date txs) as [latest|] eqn:El.
  - right. apply (apply_turn_raises txs latest); [lia | done].
  - left. apply apply_turn_breaks. by right.
Qed.

(** The loop of the matcher aborts on the first full page that has a
    date. *)
Lemma apply_fetch_aborts (fuel : nat) (srv : service) (n : nat) (since latest : date)
    (txs : list ledger_tx) :
  srv n since = Ok txs → (500 <= length txs)%nat → latest_date txs = Some latest →
  ApplyCsvCategories.fetch_loop (S fuel) srv n since = Some (Raise UnboundLocalError).
Proof.
  intros Hpage Hlen Hl. simpl. rewrite Hpage.
  by rewrite (apply_turn_raises txs latest Hlen Hl).
Qed.

(** A run of the matcher's loop that returns has made one request. *)
Lemma apply_fetch_single (fuel : nat) (srv : service) (n : nat) (since : date)
    (cursors : list date) (all_txs : list ledger_tx) :
  ApplyCsvCategories.fetch_loop fuel srv n since = Some (Ok (cursors, all_txs)) →
  cursors = [since]
  ∧ ∃ txs, srv n since = Ok txs
           ∧ ((length txs < 500)%nat ∨ latest_date txs = None)
           ∧ all_txs = filter (fun t => tx_deleted t = false) txs.
Proof.
  destruct fuel as [|fuel]; simpl; [done|].
  destruct (srv n since) as [txs|] eqn:Epage; [|done].
  destruct (decide (length txs < 500)%nat) as [Hlt|Hge].
  { rewrite apply_turn_breaks by (by left). intros [= <- <-]. eauto 10. }
  destruct (latest_date txs) as [latest|] eqn:El.
  - rewrite (apply_turn_raises txs latest) by (done || lia). done.
  - rewrite apply_turn_breaks by (by right). intros [= <- <-]. eauto 10.
Qed.

(** A service that answers the first two requests with a full page of
    transactions all dated on the day requested, then with nothing. *)
Definition same_day_tx (since : date) : ledger_tx :=
  {| tx_id := py "tx"; tx_date := Some since; tx_amount := Some (-1000);
     tx_category_name := None; tx_memo := None; tx_deleted := false |}.

Definition same_day_pages : service :=
  fun n since =>
    Ok (if (n <? 2)%nat then replicate 500 (same_day_tx since) else []).

Lemma same_day_pages_honours : honours_since same_day_pages.
Proof.
  intros n since txs t d Hpage Ht Hd.
  assert (txs = if (n <? 2)%nat then replicate 500 (same_day_tx since) else [])
    as -> by (unfold same_day_pages in Hpage; congruence).
  destruct (n <? 2)%nat; [|by apply elem_of_nil in Ht].
  apply elem_of_replicate in Ht as [-> _]. simpl in Hd. injection Hd as <-. lia.
Qed.

(** The cursors a loop requested, when it returned. *)
Definition cursors_of {A : Type} (out : option (res (list date * A)))
    : option (list date) :=
  match out with
  | Some (Ok (cursors, _)) => Some cursors
  | _ => None
  end.

(** C8: the fetch loops of the import and of the cleanup script do what is
    asked of a fetch loop: a turn ends the loop on a page of fewer than 500
    transactions (an empty one included), on a page without a date and, in
    the cleanup script, when the latest date of the page has reached
    [END_DATE]; on every other page it moves the cursor to the day after
    the latest date of the page. When the service returns only
    transactions dated on or after the date requested, the new cursor is
    greater than the old one, so the cursors of a run increase strictly
    and none is requested twice. The loop of the matcher stops where the
    others stop, but where they move the cursor it raises
    [UnboundLocalError]: it never moves the cursor, a run that returns has
    made a single request, and on a first page of 500 transactions dated
    2025-12-01 it aborts where the other two loops request the next
    days. *)
Theorem pagination_cursor_advances_except_matcher :
  (advances None YnabImport.page_turn
   ∧ advances (Some CleanupAmazon.END_DATE) CleanupAmazon.page_turn)
  ∧ (∀ txs latest,
       latest_date txs = Some latest →
       (∃ t, t ∈ txs ∧ tx_date t = Some latest)
       ∧ (∀ t d, t ∈ txs → tx_date t = Some d → d <= latest))
  ∧ (∀ srv : service, honours_since srv →
       (∀ n since since' txs,
          srv n since = Ok txs →
          YnabImport.page_turn txs = Continue since'
          ∨ CleanupAmazon.page_turn txs = Continue since' →
          since < since')
       ∧ (∀ fuel n since existing cursors existing',
            YnabImport.existing_loop fuel srv n since existing = Some (cursors, existing') →
            StronglySorted Z.lt cursors ∧ NoDup cursors)
       ∧ (∀ fuel n since cursors all_txs,
            CleanupAmazon.fetch_loop fuel srv n since = Some (Ok (cursors, all_txs)) →
            StronglySorted Z.lt cursors ∧ NoDup cursors))
  ∧ (∀ txs,
       (length txs < 500)%nat ∨ latest_date txs = None →
       ApplyCsvCategories.page_turn txs = Ok Break)
  ∧ (∀ txs latest,
       (500 <= length txs)%nat → latest_date txs = Some latest →
       ApplyCsvCategories.page_turn txs = Raise UnboundLocalError)
  ∧ (∀ fuel (srv : service) n since txs latest,
       srv n since = Ok txs →
       (500 <= length txs)%nat → latest_date txs = Some latest →
       ApplyCsvCategories.fetch_loop (S fuel) srv n since
       = Some (Raise UnboundLocalError))
  ∧ (∀ fuel (srv : service) n since cursors all_txs,
       ApplyCsvCategories.fetch_loop fuel srv n since = Some (Ok (cursors, all_txs)) →
       cursors = [since])
  ∧ ApplyCsvCategories.fetch_loop 5 same_day_pages 0 (ymd2ord 2025 12 1)
    = Some (Raise UnboundLocalError)
  ∧ fst <$> YnabImport.existing_loop 5 same_day_pages 0 (ymd2ord 2025 12 1) ∅
    = Some [ymd2ord 2025 12 1; ymd2ord 2025 12 2; ymd2ord 2025 12 3]
  ∧ cursors_of (CleanupAmazon.fetch_loop 5 same_day_pages 0 (ymd2ord 2025 12 1))
    = Some [ymd2ord 2025 12 1; ymd2ord 2025 12 2; ymd2ord 2025 12 3].
Proof.
  split; [split|].
  - apply import_turn_advances.
  - apply cleanup_turn_advances.
  - split; [apply latest_date_max|]. split.
    { intros srv Hsrv.
      assert (∀ since cursors, increasing_from since cursors →
                StronglySorted Z.lt cursors ∧ NoDup cursors) as Hinc.
      { intros since cursors Hi. split; [|by eapply increasing_NoDup].
        by destruct Hi as (rest & _ & _ & ?). }
      split; [|split].
      - intros n since since' txs Hpage [Ht|Ht].
        + by eapply (advances_increases _ _ srv n since since' txs import_turn_advances).
        + by eapply (advances_increases _ _ srv n since since' txs cleanup_turn_advances).
      - intros fuel n since existing cursors existing' Hrun.
        eapply Hinc. by eapply import_cursors_increase.
      - intros fuel n since cursors all_txs Hrun.
        eapply Hinc. by eapply cleanup_cursors_increase. }
    split; [apply apply_turn_breaks|]. split; [apply apply_turn_raises|].
    split; [intros; by eapply apply_fetch_aborts|].
    split; [intros fuel srv n since cursors all_txs Hrun;
            by destruct (apply_fetch_single _ _ _ _ _ _ Hrun)|].
    split; [by vm_compute|]. split; by vm_compute.
Qed.

End PaginationFacts.


(** ** More on the category resolver *)

Module ResolveMore.
Import Py StrFacts ResolveFacts.

Section Resolve.
Context `{UnicodeData}.

Lemma resolve_loop_closed (ai_norm : pystr) (cats : list pystr) :
  AmazonCsvToYnab.resolve_loop ai_norm cats ∈ cats
  ∨ AmazonCsvToYnab.resolve_loop ai_norm cats = AmazonCsvToYnab.DEFAULT_CATEGORY.
Proof.
  induction cats as [|cat cats IH]; simpl; [by right|].
  destruct (str_eqb _ _); [left; left|].
  destruct (str_in ai_norm _ || _); [left; left|].
  destruct IH as [IH|IH]; [left; by right | by right].
Qed.

Lemma resolve_closed (ai_response : option pystr) (valid : list pystr) :
  AmazonCsvToYnab._resolve_category ai_response valid ∈ valid
  ∨ AmazonCsvToYnab._resolve_category ai_response valid = py "Uncategorized".
Proof.
  unfold AmazonCsvToYnab._resolve_category. simpl.
  destruct (list_in _ valid) eqn:E.
  - left. by apply list_in_spec.
  - apply resolve_loop_closed.
Qed.

Lemma resolve_closed_copy (ai_response : option pystr) (valid : list pystr) :
  ApplyCsvCategories._resolve_category ai_response valid ∈ valid
  ∨ ApplyCsvCategories._resolve_category ai_response valid = py "Uncategorized".
Proof. rewrite resolve_category_copies. apply resolve_closed. Qed.

(** X1: whatever the response, [_resolve_category] returns an element of
    the vocabulary or "Uncategorized", in both copies. *)
Theorem resolve_category_closed (ai_response : option pystr) (valid : list pystr) :
  (AmazonCsvToYnab._resolve_category ai_response valid ∈ valid
   ∨ AmazonCsvToYnab._resolve_category ai_response valid = py "Uncategorized")
  ∧ (ApplyCsvCategories._resolve_category ai_response valid ∈ valid
     ∨ ApplyCsvCategories._resolve_category ai_response valid = py "Uncategorized").
Proof. split; [apply resolve_closed | apply resolve_closed_copy]. Qed.

(** X2: a response that is blank once normalised ([None], empty, white
    space or symbols only) resolves to the first entry of the vocabulary,
    not to "Uncategorized", unless the stripped response is itself an
    entry. *)
Theorem blank_response_takes_first (ai_response : option pystr)
    (first : pystr) (others : list pystr) :
  AmazonCsvToYnab.normalize (strip (default [] ai_response)) = [] →
  strip (default [] ai_response) ∉ first :: others →
  AmazonCsvToYnab._resolve_category ai_response (first :: others) = first
  ∧ ApplyCsvCategories._resolve_category ai_response (first :: others) = first.
Proof.
  intros Hblank Hnot. rewrite resolve_category_copies.
  assert (AmazonCsvToYnab._resolve_category ai_response (first :: others) = first)
    as Hc; [|done].
  destruct (resolve_category_stages ai_response (first :: others)) as (_ & Hfirst & _).
  apply (Hfirst Hnot [] first others); [done | |].
  - intros x Hx. by apply elem_of_nil in Hx.
  - right. left. rewrite Hblank. apply occurs_in_nil.
Qed.
End Resolve.

Lemma blank_response_witness :
  AmazonCsvToYnab._resolve_category (Some [0x1F476%N]) [py "Groceries"; py "Wardrobe"]
  = py "Groceries"
  ∧ ApplyCsvCategories._resolve_category (Some [0x1F476%N]) [py "Groceries"; py "Wardrobe"]
    = py "Groceries".
Proof.
  apply (blank_response_takes_first (Some [0x1F476%N]) (py "Groceries") [py "Wardrobe"]).
  - reflexivity.
  - intros Hin. apply list_in_spec in Hin. vm_compute in Hin. discriminate.
Defined.

End ResolveMore.

(** ** More on the AI pass of the normaliser *)

Module CategorizeMore.
Import Py StrFacts AmazonCsvToYnab.

Section Pass.
Context `{UnicodeData} `{AiRuntime}.

(** [o] is [r] with a category of the vocabulary, or the sentinel. *)
Definition recategorized (categories : list pystr) (r o : out_row) : Prop :=
  ∃ c, o = set_Category c r ∧ (c ∈ categories ∨ c = DEFAULT_CATEGORY).

Lemma resolve_value_closed (v : json) (categories : list pystr) (c : pystr) :
  resolve_value v categories = Ok c → c ∈ categories ∨ c = DEFAULT_CATEGORY.
Proof.
  intros Hv.
  assert (∃ a, c = _resolve_category a categories) as [a ->].
  { unfold resolve_value in Hv.
    destruct v as [|[]|[| |]|f|s|[|]|[|]]; try done;
      try (injection Hv as <-; eauto).
    destruct (float_nonzero f); [done|]. injection Hv as <-. eauto. }
  apply ResolveMore.resolve_closed.
Qed.

Lemma assign_batch_shape (m : gmap Z json) (categories : list pystr)
    (batch out : list out_row) (j : Z) :
  assign_batch m categories j batch = Ok out →
  Forall2 (recategorized categories) batch out.
Proof.
  revert j out. induction batch as [|r batch IH]; intros j out; simpl.
  - intros [= <-]. constructor.
  - destruct (resolve_value _ _) as [c|] eqn:Ec; [|done]. simpl.
    destruct (assign_batch m categories (j + 1) batch) as [rest|] eqn:Er; [|done].
    simpl. intros [= <-]. constructor; [|by eapply IH].
    exists c. split; [done|]. by eapply resolve_value_closed.
Qed.

Lemma categorize_from_shape (categories : list pystr) (rows : list out_row)
    (m a : nat) (out : list out_row) :
  (length rows <= (a + m) * BATCH_SIZE)%nat →
  categorize_from ((fun k => k * BATCH_SIZE)%nat <$> seq a m) categories rows = Ok out →
  Forall2 (recategorized categories) (drop (a * BATCH_SIZE) rows) out.
Proof.
  revert a out. induction m as [|m IH]; intros a out Hlen; simpl.
  - intros [= <-]. rewrite drop_ge by lia. constructor.
  - unfold categorize_batch.
    destruct (assign_batch _ _ _ _) as [batch_out|] eqn:Ed; [|done]. simpl.
    destruct (categorize_from _ _ _) as [rest|] eqn:Er; [|done]. simpl.
    intros [= <-]. apply assign_batch_shape in Ed.
    apply IH in Er; [|lia].
    rewrite <- (take_drop BATCH_SIZE (drop (a * BATCH_SIZE) rows)).
    apply Forall2_app; [done|].
    rewrite drop_drop. by replace (a * BATCH_SIZE + BATCH_SIZE)%nat with (S a * BATCH_SIZE)%nat by lia.
Qed.

(** X3: when the AI pass returns, it returns the records it was given, in
    the same order and number, changed in their category only, and every
    category it writes is an element of the vocabulary or "Uncategorized". *)
Theorem categorize_all_shape (categories : list pystr) (rows out : list out_row) :
  categorize_all categories rows = Ok out →
  Forall2 (fun r o => ∃ c, o = set_Category c r
                           ∧ (c ∈ categories ∨ c = py "Uncategorized")) rows out
  ∧ length out = length rows.
Proof.
  intros Hall. unfold categorize_all, batch_starts in Hall.
  apply categorize_from_shape in Hall.
  - simpl in Hall. split; [done|]. symmetry. by eapply Forall2_length.
  - unfold BATCH_SIZE.
    pose proof (Nat.div_mod_eq (length rows + 30 - 1) 30) as Hd.
    pose proof (Nat.mod_upper_bound (length rows + 30 - 1) 30) as Hm.
    lia.
Qed.
End Pass.

(** A run in which the model answers for the first item only. *)
Definition first_item_runtime : AiRuntime :=
  {| api_key := Some (py "key");
     messages_create := fun _ _ => Ok [Some (py "(an object with the key 0)")];
     sub_fence_open := fun t => t;
     sub_fence_close := fun t => t;
     json_loads := fun _ => Ok (JDict [(py "0", JStr (py "Wardrobe"))]);
     int_of_str := fun k => if str_eqb k (py "0") then Ok 0 else Raise ValueError |}.

Definition plain_record (memo : string) : out_row :=
  {| Date := py "2025-12-10"; Payee := PAYEE; Memo := py memo;
     Amount := PyFloat (float_ratio (-1234) 100); Category := []; OrderId := [] |}.

Lemma categorize_all_witness :
  ∃ out,
    @categorize_all latin_emoji first_item_runtime [py "Wardrobe"]
      [plain_record "wool socks"; plain_record "desk lamp"] = Ok out
    ∧ Category <$> out = [py "Wardrobe"; py "Uncategorized"]
    ∧ length out = 2%nat.
Proof.
  destruct (@categorize_all latin_emoji first_item_runtime [py "Wardrobe"]
              [plain_record "wool socks"; plain_record "desk lamp"]) as [out|] eqn:E;
    [|by vm_compute in E].
  exists out. split; [done|].
  destruct (@categorize_all_shape latin_emoji first_item_runtime _ _ _ E) as [_ Hlen].
  split; [|exact Hlen].
  vm_compute in E. injection E as <-. reflexivity.
Defined.

End CategorizeMore.

(** ** More on the record parser and the deduplicator *)

Module NormalizerMore.
Import Py StrFacts AmazonCsvToYnab NormalizerFacts.

Lemma omap_length_le {A B} (f : A → option B) (l : list A) :
  (length (omap f l) <= length l)%nat.
Proof.
  induction l as [|x l IH]; [done|].
  change (omap f (x :: l))
    with (match f x with Some y => y :: omap f l | None => omap f l end).
  destruct (f x); simpl; lia.
Qed.

Lemma fresh_lookup (l : list out_row) (seen : list dedup_key) (j : nat) (b : out_row) :
  fresh seen l → l !! j = Some b →
  key_in (key_of b) seen = false
  ∧ ∀ i a, (i < j)%nat → l !! i = Some a → key_eqb (key_of b) (key_of a) = false.
Proof.
  revert seen j. induction l as [|x l IH]; intros seen j; [done|].
  simpl. intros [Hx Hrest] Hj. destruct j as [|j]; simpl in Hj.
  - injection Hj as <-. split; [done|]. intros i a Hi. lia.
  - destruct (IH _ _ Hrest Hj) as [Hseen Hearlier].
    unfold key_in in Hseen. simpl in Hseen.
    apply orb_false_iff in Hseen as [Hbx Hseen]. split; [done|].
    intros [|i] a Hi Ha; simpl in Ha.
    + by injection Ha as <-.
    + apply (Hearlier i a); [lia | done].
Qed.

(** X4: no two records of the deduplicated output have equal keys. *)
Theorem deduped_keys_distinct (rows : list out_row) (i j : nat) (a b : out_row) :
  (i < j)%nat → deduped rows !! i = Some a → deduped rows !! j = Some b →
  key_eqb (key_of b) (key_of a) = false.
Proof.
  intros Hij Ha Hb.
  destruct (fresh_lookup (deduped rows) [] j b) as [_ Hearlier]; [|done|by eauto].
  apply dedup_loop_fresh.
Qed.

Definition record_of (date memo : string) : out_row :=
  {| Date := py date; Payee := PAYEE; Memo := py memo;
     Amount := PyFloat (float_ratio (-1234) 100); Category := []; OrderId := [] |}.

Lemma deduped_keys_witness :
  deduped [record_of "2025-12-10" "mouse"; record_of "2025-12-10" "mouse";
           record_of "2025-12-11" "mouse"]
  = [record_of "2025-12-10" "mouse"; record_of "2025-12-11" "mouse"]
  ∧ key_eqb (key_of (record_of "2025-12-11" "mouse"))
            (key_of (record_of "2025-12-10" "mouse")) = false.
Proof.
  split; [reflexivity|].
  apply (deduped_keys_distinct
           [record_of "2025-12-10" "mouse"; record_of "2025-12-10" "mouse";
            record_of "2025-12-11" "mouse"] 0 1); [lia | reflexivity | reflexivity].
Defined.

Section Records.
Context `{UnicodeData}.
Variable float_str : spec_float -> pystr.

Lemma parse_row_well_formed (row : csv_row) (r : out_row) :
  parse_row float_str row = Some r →
  Date r ≠ [] ∧ Memo r ≠ []
  ∧ ((length (Memo r) <= 500)%nat ∨ Memo r = py "Order " ++ Date r)
  ∧ Payee r = py "Amazon.ca" ∧ Category r = [].
Proof.
  unfold parse_row.
  remember (slice_to 500 (strip (default [] (cell_memo row)))) as memo_str eqn:Em.
  assert (length memo_str <= 500)%nat as Hlen.
  { subst memo_str. unfold slice_to. rewrite length_take. apply Nat.le_min_l. }
  clear Em. cbv zeta.
  destruct (cell_date row) as [d|]; [|done].
  destruct (cell_amount row) as [a|]; [|done].
  case_bool_decide as Hd; [done|]. intros [= <-]. cbn [Date Memo Payee Category].
  split; [done|]. case_bool_decide as Hm.
  - split; [done|]. split; [by right | done].
  - split; [done|]. split; [by left | done].
Qed.

(** X5: a row is passed over exactly when its date is missing or empty or
    its amount is missing; every record written comes from a row of the
    input, has a date, the payee "Amazon.ca" and a memo that is not empty
    and is at most 500 characters long or the synthesised "Order <date>";
    there are no more records than rows. *)
Theorem normalized_records_well_formed (rows : list csv_row) :
  (∀ row, parse_row float_str row = None
          ↔ cell_date row = None ∨ cell_date row = Some [] ∨ cell_amount row = None)
  ∧ (∀ r, r ∈ normalized float_str rows →
       (∃ row, row ∈ rows ∧ parse_row float_str row = Some r)
       ∧ Date r ≠ [] ∧ Memo r ≠ []
       ∧ ((length (Memo r) <= 500)%nat ∨ Memo r = py "Order " ++ Date r)
       ∧ Payee r = py "Amazon.ca")
  ∧ (length (normalized float_str rows) <= length rows)%nat.
Proof.
  split; [|split].
  - intros row. unfold parse_row.
    destruct (cell_date row) as [d|]; [|by split; auto].
    destruct (cell_amount row) as [a|]; [|by split; auto].
    case_bool_decide as Hd.
    + subst d. split; auto.
    + split; [done|]. intros [?|[[= ?]|?]]; done.
  - intros r Hr.
    assert (r ∈ rows_out float_str rows) as Hout.
    { eapply elem_of_sublist; [done | apply deduped_sublist]. }
    unfold rows_out in Hout. apply list_elem_of_omap in Hout as (row & Hrow & Hp).
    destruct (parse_row_well_formed row r Hp) as (? & ? & ? & ? & ?).
    split; [eauto|]. done.
  - unfold normalized. etrans.
    + apply sublist_length, deduped_sublist.
    + unfold rows_out. apply omap_length_le.
Qed.
End Records.

End NormalizerMore.

(** ** More on the importer *)

Module ImportMore.
Import Py StrFacts Ledger YnabImport ImportFacts.

(** *** Groups *)

(** The key under which a raw row is grouped, and the member it becomes. *)
Definition group_key (x : raw_row) : pystr :=
  let '(date_obj, amount, row, order_id) := x in
  match order_id with
  | [] => composite_key date_obj amount row
  | _ => order_id
  end.

Definition member_of (x : raw_row) : group_row := fst x.

Lemma group_rows_foldl (raw_rows : list raw_row) :
  group_rows raw_rows
  = foldl (fun groups x => group_append (group_key x) (member_of x) groups) [] raw_rows.
Proof.
  unfold group_rows. generalize ([] : list (pystr * list group_row)).
  induction raw_rows as [|[[[d a] row] oid] raw_rows IH]; intros acc; simpl; [done|].
  rewrite IH. by destruct oid.
Qed.

Lemma group_append_keys (key : pystr) (item : group_row)
    (groups : list (pystr * list group_row)) :
  fst <$> group_append key item groups
  = if bool_decide (key ∈ fst <$> groups) then fst <$> groups
    else (fst <$> groups) ++ [key].
Proof.
  induction groups as [|[k items] groups IH]; [done|].
  cbn [group_append]. destruct (str_eqb k key) eqn:E.
  - apply str_eqb_true in E as ->. rewrite !fmap_cons. cbn [fst].
    rewrite bool_decide_eq_true_2; [done | left].
  - apply str_eqb_false in E. rewrite !fmap_cons, IH. cbn [fst].
    case_bool_decide as Hin.
    + rewrite bool_decide_eq_true_2; [done | by right].
    + rewrite bool_decide_eq_false_2; [done|].
      intros Hin'. apply elem_of_cons in Hin' as [->|?]; done.
Qed.

Lemma group_append_NoDup (key : pystr) (item : group_row)
    (groups : list (pystr * list group_row)) :
  NoDup (fst <$> groups) → NoDup (fst <$> group_append key item groups).
Proof.
  intros Hnd. rewrite group_append_keys. case_bool_decide as Hin; [done|].
  apply NoDup_app. split; [done|]. split.
  - intros x Hx Hx'. apply list_elem_of_singleton in Hx' as ->. done.
  - apply NoDup_singleton.
Qed.

Lemma group_append_concat (key : pystr) (item : group_row)
    (groups : list (pystr * list group_row)) :
  concat (snd <$> group_append key item groups) ≡ₚ concat (snd <$> groups) ++ [item].
Proof.
  induction groups as [|[k items] groups IH]; simpl; [done|].
  destruct (str_eqb k key); simpl.
  - rewrite <- !app_assoc. apply Permutation_app_head, Permutation_app_comm.
  - rewrite IH. by rewrite app_assoc.
Qed.

Lemma group_append_new (key : pystr) (item : group_row)
    (groups : list (pystr * list group_row)) :
  ∃ items, (key, items) ∈ group_append key item groups ∧ item ∈ items.
Proof.
  induction groups as [|[k items] groups IH]; simpl.
  - exists [item]. split; left.
  - destruct (str_eqb k key) eqn:E.
    + apply str_eqb_true in E as ->. exists (items ++ [item]).
      split; [left|]. apply elem_of_app. right. left.
    + destruct IH as (items' & Hin & Hit). exists items'. split; [by right | done].
Qed.

Lemma group_append_old (key k : pystr) (item it : group_row)
    (groups : list (pystr * list group_row)) (items : list group_row) :
  (k, items) ∈ groups → it ∈ items →
  ∃ items', (k, items') ∈ group_append key item groups ∧ it ∈ items'.
Proof.
  intros Hin Hit. induction groups as [|[k0 items0] groups IH]; simpl.
  - by apply elem_of_nil in Hin.
  - apply elem_of_cons in Hin as [[= <- <-]|Hin].
    + destruct (str_eqb k key).
      * exists (items ++ [item]). split; [left|]. apply elem_of_app. by left.
      * exists items. split; [left | done].
    + destruct (IH Hin) as (items' & Hin' & Hit').
      destruct (str_eqb k0 key).
      * exists items. split; [by right | done].
      * exists items'. split; [by right | done].
Qed.

(** X6: grouping loses and invents nothing: the keys of the groups are
    pairwise different, the members of all groups are the raw rows up to
    order, and every raw row is a member of the group of its order id, or
    of its composite key when it has none. *)
Theorem group_rows_partition (raw_rows : list raw_row) :
  NoDup (fst <$> group_rows raw_rows)
  ∧ concat (snd <$> group_rows raw_rows) ≡ₚ member_of <$> raw_rows
  ∧ (∀ x, x ∈ raw_rows →
       ∃ items, (group_key x, items) ∈ group_rows raw_rows ∧ member_of x ∈ items).
Proof.
  rewrite group_rows_foldl.
  assert (∀ acc,
            NoDup (fst <$> acc) →
            let out := foldl (fun groups x => group_append (group_key x) (member_of x) groups)
                             acc raw_rows in
            NoDup (fst <$> out)
            ∧ concat (snd <$> out) ≡ₚ concat (snd <$> acc) ++ (member_of <$> raw_rows)
            ∧ (∀ k items it, (k, items) ∈ acc → it ∈ items →
                 ∃ items', (k, items') ∈ out ∧ it ∈ items')
            ∧ (∀ x, x ∈ raw_rows →
                 ∃ items, (group_key x, items) ∈ out ∧ member_of x ∈ items)) as Hgen.
  { induction raw_rows as [|x raw_rows IH]; intros acc Hnd; simpl.
    - split; [done|]. split; [by rewrite app_nil_r|]. split; [eauto|].
      intros x Hx. by apply elem_of_nil in Hx.
    - destruct (IH (group_append (group_key x) (member_of x) acc))
        as (Hn & Hp & Hold & Hnew); [by apply group_append_NoDup|].
      split; [done|]. split; [|split].
      + rewrite Hp, group_append_concat. by rewrite <- app_assoc.
      + intros k items it Hin Hit.
        destruct (group_append_old (group_key x) k (member_of x) it acc items Hin Hit)
          as (items' & Hin' & Hit').
        by eapply Hold.
      + intros y Hy. apply elem_of_cons in Hy as [->|Hy]; [|by apply Hnew].
        destruct (group_append_new (group_key x) (member_of x) acc) as (items & Hin & Hit).
        by eapply Hold. }
  destruct (Hgen []) as (Hn & Hp & _ & Hnew); [constructor|].
  split; [done|]. split; [|done]. by rewrite Hp.
Qed.

(** *** Amounts per category *)

(** [cat_amounts.get(cat_id)] *)
Fixpoint cat_get (cat_id : option pystr) (cat_amounts : list (option pystr * Z))
    : option Z :=
  match cat_amounts with
  | [] => None
  | (c, a) :: rest => if bool_decide (c = cat_id) then Some a else cat_get cat_id rest
  end.

(** The sum of the amounts paired with [cat_id]. *)
Definition total_of (cat_id : option pystr) (pairs : list (option pystr * Z)) : Z :=
  foldr Z.add 0 (snd <$> filter (fun p => fst p = cat_id) pairs).

Definition tally (acc pairs : list (option pystr * Z)) : list (option pystr * Z) :=
  foldl (fun acc p => cat_add (fst p) (snd p) acc) acc pairs.

Lemma cat_get_add_eq (c : option pystr) (a : Z) (acc : list (option pystr * Z)) :
  cat_get c (cat_add c a acc) = Some (default 0 (cat_get c acc) + a).
Proof.
  induction acc as [|[c' a'] acc IH]; cbn [cat_add cat_get].
  - by rewrite bool_decide_eq_true_2.
  - destruct (decide (c' = c)) as [->|Hne].
    + rewrite !bool_decide_eq_true_2 by done. cbn [cat_get].
      by rewrite bool_decide_eq_true_2.
    + rewrite !bool_decide_eq_false_2 by done. cbn [cat_get].
      by rewrite bool_decide_eq_false_2.
Qed.

Lemma cat_get_add_ne (c c' : option pystr) (a : Z) (acc : list (option pystr * Z)) :
  c ≠ c' → cat_get c' (cat_add c a acc) = cat_get c' acc.
Proof.
  intros Hne. induction acc as [|[c0 a0] acc IH]; cbn [cat_add cat_get].
  - by rewrite bool_decide_eq_false_2.
  - destruct (decide (c0 = c)) as [->|Hne0].
    + rewrite bool_decide_eq_true_2 by done. cbn [cat_get].
      by rewrite !bool_decide_eq_false_2.
    + rewrite (bool_decide_eq_false_2 (c0 = c)) by done. cbn [cat_get].
      by rewrite IH.
Qed.

Lemma cat_add_keys (c : option pystr) (a : Z) (acc : list (option pystr * Z)) :
  fst <$> cat_add c a acc
  = if bool_decide (c ∈ fst <$> acc) then fst <$> acc else (fst <$> acc) ++ [c].
Proof.
  induction acc as [|[c0 a0] acc IH]; [done|].
  cbn [cat_add]. destruct (decide (c0 = c)) as [->|Hne].
  - rewrite (bool_decide_eq_true_2 (c = c)) by done. rewrite !fmap_cons. cbn [fst].
    rewrite bool_decide_eq_true_2; [done | left].
  - rewrite (bool_decide_eq_false_2 (c0 = c)) by done.
    rewrite !fmap_cons, IH. cbn [fst].
    destruct (decide (c ∈ fst <$> acc)) as [Hin|Hin].
    + rewrite !bool_decide_eq_true_2; [done | by right | done].
    + rewrite !bool_decide_eq_false_2; [done | | done].
      intros Hin'. apply elem_of_cons in Hin' as [->|?]; done.
Qed.

Lemma cat_add_sum (c : option pystr) (a : Z) (acc : list (option pystr * Z)) :
  foldr Z.add 0 (snd <$> cat_add c a acc) = foldr Z.add 0 (snd <$> acc) + a.
Proof.
  induction acc as [|[c0 a0] acc IH]; [simpl; lia|].
  cbn [cat_add]. destruct (bool_decide (c0 = c)); rewrite !fmap_cons;
    cbn [foldr snd]; [lia | rewrite IH; lia].
Qed.

Lemma cat_get_elem (c : option pystr) (a : Z) (acc : list (option pystr * Z)) :
  NoDup (fst <$> acc) → (c, a) ∈ acc ↔ cat_get c acc = Some a.
Proof.
  induction acc as [|[c0 a0] acc IH]; simpl.
  - intros _. split; [intros Hin; by apply elem_of_nil in Hin | done].
  - intros Hnd. apply NoDup_cons in Hnd as [Hnot Hnd]. case_bool_decide as E.
    + subst c0. split.
      * intros Hin. apply elem_of_cons in Hin as [[= <-]|Hin]; [done|].
        destruct Hnot. apply list_elem_of_fmap. by exists (c, a).
      * intros [= <-]. left.
    + rewrite <- IH by done. split.
      * intros Hin. apply elem_of_cons in Hin as [[= <- <-]|Hin]; done.
      * intros Hin. by right.
Qed.

Lemma cat_get_None (c : option pystr) (acc : list (option pystr * Z)) :
  cat_get c acc = None ↔ c ∉ fst <$> acc.
Proof.
  induction acc as [|[c0 a0] acc IH]; simpl.
  - split; [intros _; apply not_elem_of_nil | done].
  - case_bool_decide as E.
    + subst c0. split; [done|]. intros Hnot. destruct Hnot. left.
    + rewrite IH. split.
      * intros Hnot Hin. apply elem_of_cons in Hin as [->|?]; done.
      * intros Hnot Hin. apply Hnot. by right.
Qed.

Lemma tally_spec (pairs acc : list (option pystr * Z)) :
  NoDup (fst <$> acc) →
  NoDup (fst <$> tally acc pairs)
  ∧ foldr Z.add 0 (snd <$> tally acc pairs)
    = foldr Z.add 0 (snd <$> acc) + foldr Z.add 0 (snd <$> pairs)
  ∧ ∀ c, cat_get c (tally acc pairs)
         = if bool_decide (c ∈ (fst <$> acc) ++ (fst <$> pairs))
           then Some (default 0 (cat_get c acc) + total_of c pairs)
           else None.
Proof.
  revert acc. induction pairs as [|[c0 a0] pairs IH]; intros acc Hnd.
  - simpl. split; [done|]. split; [lia|]. intros c. rewrite app_nil_r.
    unfold total_of. simpl. case_bool_decide as Hin.
    + destruct (cat_get c acc) as [a|] eqn:E; [simpl; f_equal; lia|].
      by apply cat_get_None in E.
    + by apply cat_get_None.
  - change (tally acc ((c0, a0) :: pairs)) with (tally (cat_add c0 a0 acc) pairs).
    destruct (IH (cat_add c0 a0 acc)) as (Hn & Hs & Hg).
    { rewrite cat_add_keys. case_bool_decide as Hin; [done|].
      apply NoDup_app. split; [done|]. split; [|apply NoDup_singleton].
      intros x Hx Hx'. apply list_elem_of_singleton in Hx' as ->. done. }
    split; [done|]. split.
    + rewrite Hs, cat_add_sum, fmap_cons. cbn [foldr snd]. lia.
    + intros c. rewrite Hg. rewrite cat_add_keys. rewrite fmap_cons. cbn [fst].
      assert (c ∈ (if bool_decide (c0 ∈ fst <$> acc) then fst <$> acc
                   else (fst <$> acc) ++ [c0]) ++ (fst <$> pairs)
              ↔ c ∈ (fst <$> acc) ++ c0 :: (fst <$> pairs)) as Hiff.
      { destruct (bool_decide (c0 ∈ fst <$> acc)) eqn:Hin.
        - apply bool_decide_eq_true in Hin.
          rewrite !elem_of_app, elem_of_cons. split; [tauto|].
          intros [?|[->|?]]; tauto.
        - rewrite !elem_of_app, !elem_of_cons, elem_of_nil. tauto. }
      rewrite (bool_decide_ext _ _ Hiff).
      destruct (bool_decide (c ∈ (fst <$> acc) ++ c0 :: (fst <$> pairs))); [|done].
      f_equal. unfold total_of. rewrite filter_cons. cbn [fst].
      destruct (decide (c0 = c)) as [->|Hne].
      * rewrite cat_get_add_eq, fmap_cons. cbn [foldr snd default]. unfold id. lia.
      * rewrite cat_get_add_ne by done. done.
Qed.

Lemma swapped_fst {A B} (f : A * B → B * A) (l : list (A * B)) :
  (∀ p, f p = (snd p, fst p)) → fst <$> (f <$> l) = snd <$> l.
Proof.
  intros Hf. rewrite <- list_fmap_compose. apply list_fmap_ext.
  intros i p _. simpl. by rewrite Hf.
Qed.

Lemma swapped_snd {A B} (f : A * B → B * A) (l : list (A * B)) :
  (∀ p, f p = (snd p, fst p)) → snd <$> (f <$> l) = fst <$> l.
Proof.
  intros Hf. rewrite <- list_fmap_compose. apply list_fmap_ext.
  intros i p _. simpl. by rewrite Hf.
Qed.

Lemma swapped_elem {A B} (f : A * B → B * A) (l : list (A * B)) (a : A) (b : B) :
  (∀ p, f p = (snd p, fst p)) → (b, a) ∈ f <$> l ↔ (a, b) ∈ l.
Proof.
  intros Hf. rewrite list_elem_of_fmap. split.
  - intros ([a' b'] & E & Hin). rewrite Hf in E. by injection E as -> ->.
  - intros Hin. exists (a, b). by rewrite Hf.
Qed.

Section Split.
Context `{UnicodeData}.
Variable DAYS_TOLERANCE : Z.
Variable category_id_map : gmap pystr pystr.
Variable existing_by_amount : gmap Z (list date).

(** The category id and the amount of each member of a group. *)
Definition category_pairs (rows : list group_row) : list (option pystr * Z) :=
  (fun r => (fst (category_for_row category_id_map (snd r)), snd (fst r))) <$> rows.

Lemma cat_amounts_tally (rows : list group_row) :
  cat_amounts_of category_id_map rows = tally [] (category_pairs rows).
Proof.
  unfold cat_amounts_of, tally, category_pairs.
  generalize ([] : list (option pystr * Z)).
  induction rows as [|[[d a] row] rows IH]; intros acc; simpl; [done|].
  by rewrite IH.
Qed.

(** X7: a group becomes a single transaction when all its members have
    the same category id, which the transaction carries; otherwise it
    becomes a split transaction without a category of its own, with one
    sub-transaction per category id in the group, each holding the sum of
    the amounts of the members of that category, and the sub-amounts add
    up to the amount of the transaction. *)
Theorem split_construction (rows : list group_row) (t : new_transaction) :
  build_transaction DAYS_TOLERANCE category_id_map existing_by_amount rows = Some t →
  nt_amount t = foldr Z.add 0 (snd <$> category_pairs rows)
  ∧ match nt_subtransactions t with
    | None =>
        ∀ r, r ∈ rows →
          fst (category_for_row category_id_map (snd r)) = nt_category_id t
    | Some subs =>
        nt_category_id t = None
        ∧ (2 <= length subs)%nat
        ∧ NoDup (snd <$> subs)
        ∧ foldr Z.add 0 (fst <$> subs) = nt_amount t
        ∧ ∀ cid camt, (camt, cid) ∈ subs
            ↔ cid ∈ fst <$> category_pairs rows
              ∧ camt = total_of cid (category_pairs rows)
    end.
Proof.
  intros Hb.
  assert (nt_amount t = foldr Z.add 0 (snd <$> category_pairs rows)) as Hamt.
  { apply build_transaction_fields in Hb as (-> & _).
    unfold category_pairs. by rewrite <- list_fmap_compose. }
  split; [done|].
  destruct (tally_spec (category_pairs rows) []) as (Hnd & Hsum & Hget); [constructor|].
  rewrite <- cat_amounts_tally in Hnd, Hsum, Hget.
  assert (∀ cid camt, (cid, camt) ∈ cat_amounts_of category_id_map rows
            ↔ cid ∈ fst <$> category_pairs rows
              ∧ camt = total_of cid (category_pairs rows)) as Hmem.
  { intros cid camt. rewrite cat_get_elem by done. rewrite Hget. simpl.
    case_bool_decide as Hin.
    - split; [intros [= <-]; split; [done | lia] | intros [_ ->]; f_equal; lia].
    - split; [done | by intros [? _]]. }
  unfold build_transaction in Hb.
  destruct rows as [|[[date_obj a] first] rest]; [done|].
  destruct (_ =? 0); [done|]. destruct (is_duplicate _ _ _ _); [done|].
  destruct (cat_amounts_of category_id_map _) as [|[c1 a1] [|[c2 a2] l]] eqn:Ec;
    [done| |]; injection Hb as <-; cbn [nt_subtransactions nt_category_id nt_amount].
  - intros r Hr.
    assert (fst (category_for_row category_id_map (snd r))
            ∈ fst <$> category_pairs ((date_obj, a, first) :: rest)) as Hin.
    { unfold category_pairs. rewrite <- list_fmap_compose.
      apply list_elem_of_fmap. by exists r. }
    destruct (Hmem (fst (category_for_row category_id_map (snd r)))
                (total_of (fst (category_for_row category_id_map (snd r)))
                   (category_pairs ((date_obj, a, first) :: rest)))) as [_ Hm].
    specialize (Hm (conj Hin eq_refl)).
    apply list_elem_of_singleton in Hm. by injection Hm as ->.
  - assert (∀ p : option pystr * Z,
              (let '(cid, camt) := p in (camt, cid)) = (snd p, fst p)) as Hf
      by (by intros [? ?]).
    match goal with
    | |- context [list_fmap _ _ ?f l] =>
        change ((a1, c1) :: (a2, c2) :: list_fmap _ _ f l)
          with (f <$> ((c1, a1) :: (c2, a2) :: l))
    end.
    split; [done|]. split; [rewrite length_fmap; simpl; lia|].
    split; [by rewrite swapped_snd|]. split.
    + rewrite swapped_fst by done.
      transitivity (foldr Z.add 0 (snd <$> category_pairs ((date_obj, a, first) :: rest)));
        [|symmetry; exact Hamt].
      rewrite Hsum, fmap_nil. cbn [foldr]. rewrite Z.add_0_l. reflexivity.
    + intros cid camt. rewrite swapped_elem by done. apply Hmem.
Qed.
End Split.

Definition abb_group : list group_row :=
  [ (ymd2ord 2025 12 10, -10000, order_row "A");
    (ymd2ord 2025 12 10, -5000, order_row "A");
    (ymd2ord 2025 12 10, -20000, order_row "B") ].

(** Three rows of one order with categories A, A, B and amounts -10, -5,
    -20: one transaction of -35 split into -15 under A and -20 under B. *)
Lemma split_construction_witness :
  ∃ t, build_transaction 5 two_categories ∅ abb_group = Some t
       ∧ nt_amount t = -35000
       ∧ nt_subtransactions t
         = Some [(-15000, Some (py "id-a")); (-20000, Some (py "id-b"))].
Proof.
  destruct (build_transaction 5 two_categories ∅ abb_group) as [t|] eqn:E;
    [|by vm_compute in E].
  exists t. split; [done|].
  destruct (split_construction 5 two_categories ∅ abb_group t E) as [Hamt _].
  split; [by rewrite Hamt|].
  vm_compute in E. by injection E as <-.
Defined.

(** *** The duplicate check *)

Lemma record_page_keeps (txs : list ledger_tx) (acc : gmap Z (list date))
    (amt : Z) (d : date) :
  (∃ dates, acc !! amt = Some dates ∧ d ∈ dates) →
  ∃ dates, record_page txs acc !! amt = Some dates ∧ d ∈ dates.
Proof.
  revert acc. induction txs as [|tx txs IH]; intros acc Hacc; [done|].
  unfold record_page. cbn [foldl]. apply IH.
  destruct (tx_deleted tx); [done|].
  destruct (tx_amount tx) as [a|]; [|done].
  destruct (tx_date tx) as [dt|]; [|done].
  destruct Hacc as (dates & Hl & Hin).
  destruct (decide (a = amt)) as [->|Hne].
  - rewrite lookup_insert_eq, Hl. simpl. eexists. split; [done|].
    apply elem_of_app. by left.
  - rewrite lookup_insert_ne by done. eauto.
Qed.

Lemma record_page_records (txs : list ledger_tx) (acc : gmap Z (list date))
    (tx : ledger_tx) (amt : Z) (d : date) :
  tx ∈ txs → tx_deleted tx = false → tx_amount tx = Some amt → tx_date tx = Some d →
  ∃ dates, record_page txs acc !! amt = Some dates ∧ d ∈ dates.
Proof.
  revert acc. induction txs as [|x txs IH]; intros acc Hin Hlive Ha Hd.
  - by apply elem_of_nil in Hin.
  - apply elem_of_cons in Hin as [<-|Hin]; [|unfold record_page; cbn [foldl]; by apply IH].
    unfold record_page. cbn [foldl]. rewrite Hlive, Ha, Hd.
    apply (record_page_keeps txs). rewrite lookup_insert_eq. eexists. split; [done|].
    apply elem_of_app. right. left.
Qed.

Section Duplicates.
Context `{UnicodeData}.
Variable DAYS_TOLERANCE : Z.
Variable category_id_map : gmap pystr pystr.

Lemma is_duplicate_spec (existing : gmap Z (list date)) (d : date) (amt : Z) :
  is_duplicate DAYS_TOLERANCE existing d amt = true
  ↔ ∃ dates d', existing !! amt = Some dates ∧ d' ∈ dates
                ∧ Z.abs (d - d') <= DAYS_TOLERANCE.
Proof.
  unfold is_duplicate. destruct (existing !! amt) as [dates|].
  - rewrite existsb_exists. split.
    + intros (d' & Hin & Hle). exists dates, d'. split; [done|].
      split; [by apply list_elem_of_In | lia].
    + intros (dates' & d' & [= <-] & Hin & Hle). exists d'.
      split; [by apply list_elem_of_In | lia].
  - split; [done|]. by intros (? & ? & ? & _).
Qed.

(** X8: a group is passed over when the ledger already holds a live
    transaction of the same total whose date is within [DAYS_TOLERANCE]
    days of the date of the group, whatever page it came on; conversely
    no transaction is built whose total and date are that close to a
    recorded one. With a negative tolerance nothing counts as a
    duplicate. *)
Theorem duplicate_check (existing : gmap Z (list date)) :
  (∀ rows t,
     build_transaction DAYS_TOLERANCE category_id_map existing rows = Some t →
     ∀ dates d', existing !! nt_amount t = Some dates → d' ∈ dates →
       DAYS_TOLERANCE < Z.abs (nt_date t - d'))
  ∧ (∀ txs tx rows amt d first,
       tx ∈ txs → tx_deleted tx = false →
       tx_amount tx = Some amt → tx_date tx = Some d →
       head rows = Some first → group_total rows = amt →
       Z.abs (fst (fst first) - d) <= DAYS_TOLERANCE →
       build_transaction DAYS_TOLERANCE category_id_map (record_page txs existing) rows
       = None)
  ∧ (DAYS_TOLERANCE < 0 → ∀ d amt, is_duplicate DAYS_TOLERANCE existing d amt = false).
Proof.
  split; [|split].
  - intros rows t Hb dates d' Hl Hin.
    destruct (Z_lt_le_dec DAYS_TOLERANCE (Z.abs (nt_date t - d'))) as [?|Hle]; [done|].
    assert (is_duplicate DAYS_TOLERANCE existing (nt_date t) (nt_amount t) = true) as Hdup.
    { apply is_duplicate_spec. eauto. }
    pose proof (build_transaction_fields DAYS_TOLERANCE category_id_map existing rows t Hb)
      as (Hamt & (f & Hf & Hdate) & _).
    unfold build_transaction in Hb.
    destruct rows as [|[[date_obj a] first] rest]; [done|].
    simpl in Hf. injection Hf as <-. simpl in Hdate.
    rewrite Hdate, Hamt in Hdup.
    destruct (_ =? 0); [done|]. by rewrite Hdup in Hb.
  - intros txs tx rows amt d first Hin Hlive Ha Hd Hhead Htot Hclose.
    destruct (record_page_records txs existing tx amt d Hin Hlive Ha Hd)
      as (dates & Hl & Hdin).
    assert (is_duplicate DAYS_TOLERANCE (record_page txs existing)
              (fst (fst first)) amt = true) as Hdup.
    { apply is_duplicate_spec. eauto. }
    unfold build_transaction. destruct rows as [|[[date_obj a] row] rest]; [done|].
    simpl in Hhead. injection Hhead as <-. unfold group_total in Htot.
    rewrite Htot. simpl in Hdup. rewrite Hdup. by destruct (amt =? 0).
  - intros Hneg d amt.
    destruct (is_duplicate DAYS_TOLERANCE existing d amt) eqn:E; [|done].
    apply is_duplicate_spec in E as (? & ? & _ & _ & ?). lia.
Qed.
End Duplicates.

End ImportMore.

(** ** More on the ledger matcher *)

Module MatcherMore.
Import Py StrFacts Ledger ApplyCsvCategories MatcherFacts.

Section Load.
Context `{UnicodeData}.

Lemma load_loop_app (a b : list csv_row)
    (lookup : gmap (date * Z) pystr) (by_amount : gmap Z (list (date * pystr))) :
  load_loop (a ++ b) lookup by_amount
  = bind (load_loop a lookup by_amount) (fun out => load_loop b (fst out) (snd out)).
Proof.
  revert lookup by_amount. induction a as [|row a IH]; intros lookup by_amount; simpl; [done|].
  destruct (Date row) as [d|]; [|apply IH].
  destruct (Amount row) as [amt|]; [|apply IH].
  destruct (milliunits_of amt) as [mu|]; simpl; [|done].
  destruct (bool_decide _ || _); apply IH.
Qed.

Lemma load_loop_skip (row : csv_row)
    (lookup : gmap (date * Z) pystr) (by_amount : gmap Z (list (date * pystr))) :
  entry row = None →
  (∀ amt, Date row ≠ None → Amount row = Some amt → ∃ mu, milliunits_of amt = Ok mu) →
  load_loop [row] lookup by_amount = Ok (lookup, by_amount).
Proof.
  unfold entry. simpl. intros He Hm.
  destruct (Date row) as [d|]; [|done].
  destruct (Amount row) as [amt|]; [|done].
  destruct (Hm amt) as [mu Hmu]; [done|done|]. rewrite Hmu in *. simpl.
  by destruct (bool_decide _ || _).
Qed.

Lemma load_loop_entry (row : csv_row) (d : date) (mu : Z) (cat : pystr)
    (lookup : gmap (date * Z) pystr) (by_amount : gmap Z (list (date * pystr))) :
  entry row = Some (d, mu, cat) →
  load_loop [row] lookup by_amount
  = Ok (<[(d, mu) := cat]> lookup,
        <[mu := default [] (by_amount !! mu) ++ [(d, cat)]]> by_amount).
Proof.
  unfold entry. simpl.
  destruct (Date row) as [d'|]; [|done].
  destruct (Amount row) as [amt|]; [|done].
  destruct (milliunits_of amt) as [mu'|]; [|done]. simpl.
  destruct (bool_decide _ || _); [done|]. by intros [= <- <- <-].
Qed.

Lemma load_loop_none (row : csv_row)
    (lookup l1 : gmap (date * Z) pystr) (by_amount b1 : gmap Z (list (date * pystr))) :
  entry row = None →
  load_loop [row] lookup by_amount = Ok (l1, b1) → l1 = lookup ∧ b1 = by_amount.
Proof.
  unfold entry. simpl.
  destruct (Date row) as [d|]; [|by intros _ [= <- <-]].
  destruct (Amount row) as [amt|]; [|by intros _ [= <- <-]].
  destruct (milliunits_of amt) as [mu|]; [|done]. simpl.
  destruct (bool_decide _ || _); [|done]. by intros _ [= <- <-].
Qed.

Lemma load_loop_untouched (rows : list csv_row) (d : date) (mu : Z)
    (lookup lookup' : gmap (date * Z) pystr)
    (by_amount by_amount' : gmap Z (list (date * pystr))) :
  (∀ r c, r ∈ rows → entry r ≠ Some (d, mu, c)) →
  load_loop rows lookup by_amount = Ok (lookup', by_amount') →
  lookup' !! (d, mu) = lookup !! (d, mu).
Proof.
  revert lookup by_amount. induction rows as [|row rows IH]; intros lookup by_amount Hno.
  - simpl. by intros [= <- <-].
  - change (row :: rows) with ([row] ++ rows). rewrite load_loop_app.
    assert (∀ r c, r ∈ rows → entry r ≠ Some (d, mu, c)) as Hrest.
    { intros r c Hr. apply Hno. by right. }
    destruct (entry row) as [[[d0 mu0] c0]|] eqn:Ee.
    + rewrite (load_loop_entry row d0 mu0 c0) by done. simpl. intros Hl.
      rewrite (IH _ _ Hrest Hl). apply lookup_insert_ne.
      intros [= -> ->]. by apply (Hno row c0); [left|].
    + destruct (load_loop [row] lookup by_amount) as [[l1 b1]|] eqn:E1; [|done].
      simpl. intros Hl. rewrite (IH _ _ Hrest Hl).
      by destruct (load_loop_none row lookup l1 by_amount b1 Ee E1) as [-> _].
Qed.

(** X9: when several rows have the same date and amount, the lookup keeps
    the category of the last of them. *)
Theorem lookup_last_row_wins (pre post : list csv_row) (row : csv_row)
    (d : date) (mu : Z) (cat : pystr)
    (lookup : gmap (date * Z) pystr) (by_amount : gmap Z (list (date * pystr))) :
  load_csv_lookup (pre ++ row :: post) = Ok (lookup, by_amount) →
  entry row = Some (d, mu, cat) →
  (∀ r c, r ∈ post → entry r ≠ Some (d, mu, c)) →
  lookup !! (d, mu) = Some cat.
Proof.
  unfold load_csv_lookup. intros Hload He Hpost.
  rewrite load_loop_app in Hload.
  destruct (load_loop pre ∅ ∅) as [[l0 b0]|]; [|done]. cbn [bind fst snd] in Hload.
  change (row :: post) with ([row] ++ post) in Hload. rewrite load_loop_app in Hload.
  rewrite (load_loop_entry row d mu cat) in Hload by done. cbn [bind fst snd] in Hload.
  rewrite (load_loop_untouched post d mu _ _ _ _ Hpost Hload).
  apply lookup_insert_eq.
Qed.

(** X10: a row adds nothing to either dictionary, and the load goes on as
    if the row were not there, when its Date cell is empty or not a
    "%Y-%m-%d" date, when [float] raises on its Amount cell, or when its
    amount converts to milliunits and its category is empty or
    "uncategorized" in any case. A missing or empty Amount cell is not
    such a row: it is read as 0, and with a date and a category the row is
    filed under 0 milliunits. The amount is converted before the category
    is looked at: a dated row whose amount does not convert (NaN, an
    infinity) makes the load raise, whatever its category. *)
Theorem unusable_row_ignored (pre post : list csv_row) (row : csv_row) :
  (Date row = None ∨ Amount row = None
   ∨ (∃ amt mu, Amount row = Some amt ∧ milliunits_of amt = Ok mu
        ∧ (strip (default [] (Category row)) = []
           ∨ lower (strip (default [] (Category row))) = py "uncategorized")) →
   load_csv_lookup (pre ++ row :: post) = load_csv_lookup (pre ++ post))
  ∧ (∀ d lookup by_amount,
       Date row = Some d → Amount row = Some (S754_zero false) →
       strip (default [] (Category row)) ≠ [] →
       lower (strip (default [] (Category row))) ≠ py "uncategorized" →
       load_csv_lookup pre = Ok (lookup, by_amount) →
       load_csv_lookup (pre ++ [row])
       = Ok (<[(d, 0) := strip (default [] (Category row))]> lookup,
             <[0 := default [] (by_amount !! 0)
                    ++ [(d, strip (default [] (Category row)))]]> by_amount))
  ∧ (∀ d amt e,
       Date row = Some d → Amount row = Some amt → milliunits_of amt = Raise e →
       ∃ e', load_csv_lookup (pre ++ row :: post) = Raise e').
Proof.
  split; [|split].
  - intros Hrow. unfold load_csv_lookup. rewrite !load_loop_app.
    destruct (load_loop pre ∅ ∅) as [[l0 b0]|]; [|done]. cbn [bind fst snd].
    change (row :: post) with ([row] ++ post). rewrite load_loop_app.
    assert (load_loop [row] l0 b0 = Ok (l0, b0)) as ->; [|done].
    simpl. destruct Hrow as [->|[Ha|(amt & mu & Ha & Hmu & Hcat)]]; [done| |].
    + rewrite Ha. by destruct (Date row).
    + rewrite Ha. destruct (Date row) as [d|]; [|done]. rewrite Hmu. simpl.
      destruct Hcat as [-> | ->]; [done|].
      unfold str_eqb. rewrite (bool_decide_eq_true_2 (py "uncategorized" = _)) by done.
      by rewrite orb_true_r.
  - intros d lookup by_amount Hd Ha Hcat Hun Hpre.
    unfold load_csv_lookup in *. rewrite load_loop_app, Hpre. cbn [bind fst snd].
    cbn [load_loop]. rewrite Hd, Ha.
    change (milliunits_of (S754_zero false)) with (@Ok Z 0). cbn [bind].
    unfold str_eqb.
    rewrite (bool_decide_eq_false_2 (strip (default [] (Category row)) = [])) by done.
    by rewrite (bool_decide_eq_false_2
                  (lower (strip (default [] (Category row))) = py "uncategorized")) by done.
  - intros d amt e Hd Ha Hmu. unfold load_csv_lookup. rewrite load_loop_app.
    destruct (load_loop pre ∅ ∅) as [[l0 b0]|e0]; [|by exists e0].
    exists e. cbn [bind fst snd load_loop]. by rewrite Hd, Ha, Hmu.
Qed.

End Load.

Lemma lookup_last_row_witness :
  ∃ lookup by_amount,
    load_csv_lookup [csv_entry (ymd2ord 2025 12 10) (float_ratio (-45) 10) "Groceries";
                     csv_entry (ymd2ord 2025 12 10) (float_ratio (-45) 10) "Wardrobe"]
    = Ok (lookup, by_amount)
    ∧ lookup !! (ymd2ord 2025 12 10, -4500) = Some (py "Wardrobe").
Proof.
  destruct (load_csv_lookup _) as [[lookup by_amount]|] eqn:E; [|by vm_compute in E].
  exists lookup, by_amount. split; [done|].
  apply (lookup_last_row_wins
           [csv_entry (ymd2ord 2025 12 10) (float_ratio (-45) 10) "Groceries"] []
           (csv_entry (ymd2ord 2025 12 10) (float_ratio (-45) 10) "Wardrobe")
           _ _ _ lookup by_amount E).
  - reflexivity.
  - intros r c Hr. by apply elem_of_nil in Hr.
Defined.

Lemma unusable_row_witness :
  load_csv_lookup [csv_entry (ymd2ord 2025 12 10) (float_ratio (-45) 10) "Groceries";
                   csv_entry (ymd2ord 2025 12 11) (float_ratio (-99) 10) "UNCATEGORIZED"]
  = load_csv_lookup [csv_entry (ymd2ord 2025 12 10) (float_ratio (-45) 10) "Groceries"].
Proof.
  apply (proj1 (unusable_row_ignored
           [csv_entry (ymd2ord 2025 12 10) (float_ratio (-45) 10) "Groceries"] []
           (csv_entry (ymd2ord 2025 12 11) (float_ratio (-99) 10) "UNCATEGORIZED"))).
  right. right. exists (float_ratio (-99) 10), (-9900).
  split; [reflexivity|]. split; [reflexivity|]. right. reflexivity.
Defined.


End MatcherMore.

(** ** More on pagination *)

Module PaginationMore.
Import Py Ledger PaginationFacts.

Lemma in_range_kept (txs : list ledger_tx) :
  Forall (fun t => tx_deleted t = false
                   ∧ ∃ d, tx_date t = Some d
                          ∧ CleanupAmazon.START_DATE <= d <= CleanupAmazon.END_DATE)
         (CleanupAmazon.in_range txs).
Proof.
  apply Forall_forall. intros t Ht. unfold CleanupAmazon.in_range in Ht.
  apply list_elem_of_filter in Ht as [Hk _]. unfold CleanupAmazon.kept in Hk.
  apply andb_true_iff in Hk as [Hlive Hd].
  split; [by destruct (tx_deleted t)|].
  destruct (tx_date t) as [d|]; [|done]. exists d. split; [done|].
  apply andb_true_iff in Hd as [?%Z.leb_le ?%Z.leb_le]. lia.
Qed.

Lemma cleanup_all_in_range (fuel : nat) (srv : service) (n : nat) (since : date)
    (cursors : list date) (all_txs : list ledger_tx) :
  CleanupAmazon.fetch_loop fuel srv n since = Some (Ok (cursors, all_txs)) →
  Forall (fun t => tx_deleted t = false
                   ∧ ∃ d, tx_date t = Some d
                          ∧ CleanupAmazon.START_DATE <= d <= CleanupAmazon.END_DATE)
         all_txs.
Proof.
  revert n since cursors all_txs.
  induction fuel as [|fuel IH]; intros n since cursors all_txs; simpl; [done|].
  destruct (srv n since) as [txs|]; [|done].
  destruct (CleanupAmazon.page_turn txs) as [|since'].
  - intros [= <- <-]. apply in_range_kept.
  - destruct (CleanupAmazon.fetch_loop fuel srv (S n) since')
      as [[[cs txs']|]|] eqn:Erec; [|done|done].
    intros [= <- <-]. apply Forall_app. split; [apply in_range_kept | by eapply IH].
Qed.

(** X12: in the cleanup script the fetch loop ends when the service
    returns only transactions dated on or after the date requested: one
    turn per day from the cursor to [END_DATE] suffices; when it ends
    without an API error, every transaction it kept is live and dated from
    [START_DATE] to [END_DATE]. *)
Theorem cleanup_fetch_terminates (fuel : nat) (srv : service) (n : nat) (since : date) :
  honours_since srv →
  (Z.to_nat (CleanupAmazon.END_DATE - since) < fuel)%nat →
  ∃ out, CleanupAmazon.fetch_loop fuel srv n since = Some out
         ∧ ∀ cursors all_txs, out = Ok (cursors, all_txs) →
             Forall (fun t => tx_deleted t = false
                              ∧ ∃ d, tx_date t = Some d
                                     ∧ CleanupAmazon.START_DATE <= d
                                       <= CleanupAmazon.END_DATE) all_txs.
Proof.
  intros Hsrv Hfuel.
  destruct (cleanup_fetch_returns fuel srv n since Hsrv Hfuel) as [out Hout].
  exists out. split; [done|]. intros cursors all_txs ->.
  by eapply cleanup_all_in_range.
Qed.

Lemma cleanup_fetch_witness :
  ∃ cursors all_txs,
    CleanupAmazon.fetch_loop 61 same_day_pages 0 CleanupAmazon.START_DATE
    = Some (Ok (cursors, all_txs))
    ∧ cursors = [ymd2ord 2025 12 2; ymd2ord 2025 12 3; ymd2ord 2025 12 4]
    ∧ length all_txs = 1000%nat.
Proof.
  destruct (cleanup_fetch_terminates 61 same_day_pages 0 CleanupAmazon.START_DATE)
    as (out & Hout & _).
  - apply same_day_pages_honours.
  - vm_compute. lia.
  - vm_compute in Hout. injection Hout as <-.
    eexists _, _. split; [reflexivity|]. split; reflexivity.
Defined.

End PaginationMore.

(** ** Column detection *)

Module ColumnFacts.
Import Py StrFacts AmazonCsvToYnab.

Lemma dict_get_set_eq {V} (k : pystr) (v : V) (d : list (pystr * V)) :
  dict_get k (dict_set k v d) = Some v.
Proof.
  induction d as [|[k' v'] d IH]; cbn [dict_set dict_get].
  - unfold str_eqb. by rewrite bool_decide_eq_true_2.
  - destruct (str_eqb k' k) eqn:E; cbn [dict_get]; by rewrite E.
Qed.

Lemma dict_get_set_ne {V} (k k' : pystr) (v : V) (d : list (pystr * V)) :
  k ≠ k' → dict_get k' (dict_set k v d) = dict_get k' d.
Proof.
  intros Hne. induction d as [|[k0 v0] d IH]; cbn [dict_set dict_get].
  - unfold str_eqb. by rewrite bool_decide_eq_false_2.
  - destruct (str_eqb k0 k) eqn:E; cbn [dict_get]; [|by rewrite IH].
    apply str_eqb_true in E as ->. unfold str_eqb.
    by rewrite !bool_decide_eq_false_2.
Qed.

Lemma dict_get_elem {V} (k : pystr) (v : V) (d : list (pystr * V)) :
  dict_get k d = Some v → (k, v) ∈ d.
Proof.
  induction d as [|[k' v'] d IH]; cbn [dict_get]; [done|].
  destruct (str_eqb k' k) eqn:E.
  - apply str_eqb_true in E as ->. intros [= ->]. left.
  - intros Hg. right. by apply IH.
Qed.

Lemma dict_get_None {V} (k : pystr) (d : list (pystr * V)) :
  dict_get k d = None ↔ k ∉ fst <$> d.
Proof.
  induction d as [|[k' v'] d IH]; cbn [dict_get].
  - split; [intros _; apply not_elem_of_nil | done].
  - rewrite fmap_cons. cbn [fst]. destruct (str_eqb k' k) eqn:E.
    + apply str_eqb_true in E as ->. split; [done|]. intros Hn. destruct Hn. left.
    + apply str_eqb_false in E. rewrite IH. split.
      * intros Hn Hin. apply elem_of_cons in Hin as [->|?]; done.
      * intros Hn Hin. apply Hn. by right.
Qed.

Lemma dict_set_elem {V} (k k' : pystr) (v v' : V) (d : list (pystr * V)) :
  (k', v') ∈ dict_set k v d → (k' = k ∧ v' = v) ∨ (k', v') ∈ d.
Proof.
  induction d as [|[k0 v0] d IH]; cbn [dict_set].
  - intros Hin. apply list_elem_of_singleton in Hin as [= -> ->]. by left.
  - destruct (str_eqb k0 k) eqn:E.
    + apply str_eqb_true in E as ->. intros Hin.
      apply elem_of_cons in Hin as [[= -> ->]|Hin]; [by left | right; by right].
    + intros Hin. apply elem_of_cons in Hin as [[= -> ->]|Hin]; [right; left|].
      destruct (IH Hin) as [?|?]; [by left | right; by right].
Qed.

Lemma dict_set_keys {V} (k : pystr) (v : V) (d : list (pystr * V)) (k' : pystr) :
  k' ∈ fst <$> dict_set k v d ↔ k' = k ∨ k' ∈ fst <$> d.
Proof.
  induction d as [|[k0 v0] d IH]; cbn [dict_set].
  - rewrite !fmap_cons, fmap_nil, elem_of_cons, elem_of_nil. cbn [fst]. tauto.
  - destruct (str_eqb k0 k) eqn:E.
    + apply str_eqb_true in E as ->. rewrite !fmap_cons, !elem_of_cons. cbn [fst]. tauto.
    + rewrite !fmap_cons, !elem_of_cons, IH. cbn [fst]. tauto.
Qed.

Section Columns.
Context `{UnicodeData}.

(** The lower-cased, stripped form under which a header is filed. *)
Definition filed (header : pystr) : pystr := lower (strip header).

Lemma keys_lower_spec (headers : list pystr) :
  (∀ key k, (key, k) ∈ keys_lower headers → k ∈ headers ∧ filed k = key)
  ∧ (∀ key, key ∈ fst <$> keys_lower headers ↔ ∃ k, k ∈ headers ∧ filed k = key).
Proof.
  unfold keys_lower.
  assert (∀ acc : list (pystr * pystr),
            let out := foldl (fun d k => dict_set (lower (strip k)) k d) acc headers in
            (∀ key k, (key, k) ∈ out → (key, k) ∈ acc ∨ (k ∈ headers ∧ filed k = key))
            ∧ (∀ key, key ∈ fst <$> out
                      ↔ key ∈ fst <$> acc ∨ ∃ k, k ∈ headers ∧ filed k = key)) as Hgen.
  { induction headers as [|h headers IH]; intros acc; simpl.
    - split; [by left|]. intros key. split; [by left|].
      intros [?|(k & Hk & _)]; [done | by apply elem_of_nil in Hk].
    - destruct (IH (dict_set (lower (strip h)) h acc)) as [Hitems Hkeys]. split.
      + intros key k Hin. destruct (Hitems key k Hin) as [Hacc|[Hk <-]].
        * apply dict_set_elem in Hacc as [[-> ->]|?]; [right | by left].
          split; [left | done].
        * right. split; [by right | done].
      + intros key. rewrite Hkeys, dict_set_keys. split.
        * intros [[->|?]|(k & Hk & <-)]; [right | by left | right].
          -- exists h. split; [left | done].
          -- exists k. split; [by right | done].
        * intros [?|(k & Hk & <-)]; [left; by right|].
          apply elem_of_cons in Hk as [->|Hk]; [left; by left | right; eauto]. }
  destruct (Hgen []) as [Hitems Hkeys]. split.
  - intros key k Hin. destruct (Hitems key k Hin) as [Hnil|?]; [|done].
    by apply elem_of_nil in Hnil.
  - intros key. rewrite Hkeys. split; [|by right].
    intros [Hnil|?]; [by apply elem_of_nil in Hnil | done].
Qed.

Lemma exact_loop_some (kl : list (pystr * pystr)) (candidates : list pystr) (k : pystr) :
  exact_loop kl candidates = Some k →
  ∃ c, c ∈ candidates ∧ dict_get (lower c) kl = Some k.
Proof.
  induction candidates as [|c candidates IH]; simpl; [done|].
  destruct (dict_get (lower c) kl) as [k'|] eqn:E.
  - intros [= <-]. exists c. split; [left | done].
  - intros Hl. destruct (IH Hl) as (c' & ? & ?). exists c'. split; [by right | done].
Qed.

Lemma exact_loop_first (kl : list (pystr * pystr)) (pre post : list pystr) (c : pystr) :
  (∀ x, x ∈ pre → dict_get (lower x) kl = None) →
  exact_loop kl (pre ++ c :: post)
  = match dict_get (lower c) kl with
    | Some k => Some k
    | None => exact_loop kl post
    end.
Proof.
  intros Hpre. induction pre as [|x pre IH]; simpl; [done|].
  rewrite Hpre by left. apply IH. intros y Hy. apply Hpre. by right.
Qed.

Lemma exact_loop_none (kl : list (pystr * pystr)) (candidates : list pystr) :
  exact_loop kl candidates = None
  ↔ ∀ c, c ∈ candidates → dict_get (lower c) kl = None.
Proof.
  induction candidates as [|c candidates IH]; simpl.
  - split; [|done]. intros _ c Hc. by apply elem_of_nil in Hc.
  - destruct (dict_get (lower c) kl) as [k|] eqn:E.
    + split; [done|]. intros Hall. by rewrite Hall in E by left.
    + rewrite IH. split.
      * intros Hall x Hx. apply elem_of_cons in Hx as [->|?]; [done | by apply Hall].
      * intros Hall x Hx. apply Hall. by right.
Qed.

Lemma inner_loop_some (c : pystr) (items : list (pystr * pystr)) (header : pystr) :
  inner_loop c items = Some header →
  ∃ key, (key, header) ∈ items ∧ occurs_in (squash c) (squash key).
Proof.
  induction items as [|[key h] items IH]; simpl; [done|].
  destruct (str_in _ _) eqn:E.
  - intros [= <-]. exists key. split; [left | by apply str_in_spec].
  - intros Hl. destruct (IH Hl) as (key' & ? & ?). exists key'. split; [by right | done].
Qed.

Lemma inner_loop_none (c : pystr) (items : list (pystr * pystr)) :
  inner_loop c items = None
  ↔ ∀ key, key ∈ fst <$> items → ¬ occurs_in (squash c) (squash key).
Proof.
  induction items as [|[key h] items IH]; simpl.
  - split; [|done]. intros _ key Hk. by apply elem_of_nil in Hk.
  - destruct (str_in _ _) eqn:E.
    + split; [done|]. intros Hall. destruct (Hall key); [left|]. by apply str_in_spec.
    + rewrite IH. split.
      * intros Hall x Hx. apply elem_of_cons in Hx as [->|?]; [|by apply Hall].
        intros Ho. apply str_in_spec in Ho. congruence.
      * intros Hall x Hx. apply Hall. by right.
Qed.

Lemma substring_loop_some (kl : list (pystr * pystr)) (candidates : list pystr)
    (header : pystr) :
  substring_loop kl candidates = Some header →
  ∃ c key, c ∈ candidates ∧ (key, header) ∈ kl ∧ occurs_in (squash c) (squash key).
Proof.
  induction candidates as [|c candidates IH]; simpl; [done|].
  destruct (inner_loop c kl) as [h|] eqn:E.
  - intros [= <-]. apply inner_loop_some in E as (key & ? & ?).
    exists c, key. split; [left | done].
  - intros Hl. destruct (IH Hl) as (c' & key & ? & ? & ?).
    exists c', key. split; [by right | done].
Qed.

Lemma substring_loop_none (kl : list (pystr * pystr)) (candidates : list pystr) :
  substring_loop kl candidates = None
  ↔ ∀ c key, c ∈ candidates → key ∈ fst <$> kl → ¬ occurs_in (squash c) (squash key).
Proof.
  induction candidates as [|c candidates IH]; simpl.
  - split; [|done]. intros _ c key Hc. by apply elem_of_nil in Hc.
  - destruct (inner_loop c kl) as [h|] eqn:E.
    + split; [done|]. intros Hall.
      assert (inner_loop c kl = None) as Hn; [|congruence].
      apply inner_loop_none. intros key Hk. apply Hall; [left | done].
    + rewrite IH. split.
      * intros Hall x key Hx Hk. apply elem_of_cons in Hx as [->|?]; [|by apply Hall].
        by apply (proj1 (inner_loop_none c kl) E).
      * intros Hall x key Hx Hk. apply Hall; [by right | done].
Qed.

(** X13: the column found is always one of the headers of the row, and it
    matches a candidate: their lower-cased forms are equal, or the
    candidate occurs in the header once spaces and periods are removed
    from both; no column is found exactly when no header matches any
    candidate in either way. *)
Theorem find_column_sound (headers candidates : list pystr) :
  (∀ k, _find_column headers candidates = Some k →
     k ∈ headers
     ∧ ∃ c, c ∈ candidates
            ∧ (filed k = lower c ∨ occurs_in (squash c) (squash (filed k))))
  ∧ (_find_column headers candidates = None
     ↔ ∀ c k, c ∈ candidates → k ∈ headers →
         filed k ≠ lower c ∧ ¬ occurs_in (squash c) (squash (filed k))).
Proof.
  destruct (keys_lower_spec headers) as [Hitems Hkeys].
  unfold _find_column. split.
  - intros k. destruct (exact_loop _ _) as [k'|] eqn:E.
    + intros [= <-]. apply exact_loop_some in E as (c & Hc & Hg).
      apply dict_get_elem, Hitems in Hg as [? ?]. eauto.
    + intros Hs. apply substring_loop_some in Hs as (c & key & Hc & Hin & Ho).
      apply Hitems in Hin as [? <-]. eauto.
  - destruct (exact_loop _ _) as [k'|] eqn:E.
    + split; [done|]. intros Hall.
      apply exact_loop_some in E as (c & Hc & Hg).
      apply dict_get_elem, Hitems in Hg as [Hk Hf]. by destruct (Hall c k' Hc Hk).
    + rewrite substring_loop_none. split.
      * intros Hall c k Hc Hk. split.
        -- intros Hf.
           assert (dict_get (lower c) (keys_lower headers) = None) as Hn
             by (by apply (proj1 (exact_loop_none _ _) E)).
           apply dict_get_None in Hn. apply Hn, Hkeys. eauto.
        -- apply Hall; [done|]. apply Hkeys. eauto.
      * intros Hall c key Hc Hkey. apply Hkeys in Hkey as (k & Hk & <-).
        by apply Hall.
Qed.

(** X14: an exact match, case and surrounding white space apart, comes
    before any substring match: when a candidate equals a header in that
    way and no candidate before it does, the column found is a header
    equal to that candidate in that way. *)
Theorem find_column_exact_first (headers pre post : list pystr) (c k : pystr) :
  (∀ x h, x ∈ pre → h ∈ headers → filed h ≠ lower x) →
  k ∈ headers → filed k = lower c →
  ∃ k', _find_column headers (pre ++ c :: post) = Some k'
        ∧ k' ∈ headers ∧ filed k' = lower c.
Proof.
  intros Hpre Hk Hf. destruct (keys_lower_spec headers) as [Hitems Hkeys].
  unfold _find_column. rewrite exact_loop_first.
  - destruct (dict_get (lower c) (keys_lower headers)) as [k'|] eqn:E.
    + exists k'. split; [done|]. by apply dict_get_elem, Hitems in E.
    + apply dict_get_None in E. destruct E. apply Hkeys. eauto.
  - intros x Hx. apply dict_get_None. intros Hin.
    apply Hkeys in Hin as (h & Hh & Hfh). by apply (Hpre x h).
Qed.
End Columns.

Definition OUTPUT_HEADERS : list pystr :=
  [py "Date"; py "Payee"; py "Memo"; py "Amount"; py "Category"; py "OrderId"].

(** The headers of the Output CSV are found again, each by an exact match;
    "Order Date" is the date column of ["Order Date", "Item Total",
    "Item Title"]. *)
Lemma find_column_round_trip :
  _find_column OUTPUT_HEADERS DATE_COLUMNS = Some (py "Date")
  ∧ _find_column OUTPUT_HEADERS AMOUNT_COLUMNS = Some (py "Amount")
  ∧ _find_column OUTPUT_HEADERS MEMO_COLUMNS = Some (py "Memo")
  ∧ _find_column OUTPUT_HEADERS ORDER_ID_COLUMNS = Some (py "OrderId")
  ∧ _find_column [py "Order Date"; py "Item Total"; py "Item Title"] DATE_COLUMNS
    = Some (py "Order Date").
Proof.
  destruct (find_column_exact_first OUTPUT_HEADERS
              [py "order.date"; py "order date"; py "order_date"]
              [py "order placed"; py "charged on"] (py "date") (py "Date"))
    as (k' & Hfind & _ & _).
  - intros x h Hx Hh.
    repeat (apply elem_of_cons in Hx as [->|Hx]);
      [..|by apply elem_of_nil in Hx];
      repeat (apply elem_of_cons in Hh as [->|Hh]);
      solve [by vm_compute | by apply elem_of_nil in Hh].
  - left.
  - reflexivity.
  - split; [|repeat split; reflexivity].
    change (_find_column OUTPUT_HEADERS DATE_COLUMNS) with
      (_find_column OUTPUT_HEADERS
         ([py "order.date"; py "order date"; py "order_date"]
            ++ py "date" :: [py "order placed"; py "charged on"])).
    rewrite Hfind. vm_compute in Hfind. by injection Hfind as <-.
Defined.

End ColumnFacts.

(** ** The vocabulary fetched from the budget *)

Module VocabularyFacts.
Import Py Budget AmazonCsvToYnab.

Lemma usable_categories_elem (groups : list category_group) (cat : category) :
  cat ∈ usable_categories groups
  ↔ ∃ group, group ∈ groups ∧ cat ∈ group_categories group
      ∧ group_deleted group = false ∧ group_hidden group = false
      ∧ cat_deleted cat = false ∧ cat_hidden cat = false.
Proof.
  unfold usable_categories. rewrite list_elem_of_In, in_flat_map.
  setoid_rewrite <- list_elem_of_In. split.
  - intros (group & Hg & Hc). exists group. split; [done|].
    destruct (group_deleted group), (group_hidden group); simpl in Hc;
      try by apply elem_of_nil in Hc.
    apply list_elem_of_filter in Hc as [Hv Hc].
    apply orb_false_iff in Hv as [? ?]. done.
  - intros (group & Hg & Hc & Hgd & Hgh & Hd & Hh). exists group. split; [done|].
    rewrite Hgd, Hgh. simpl. apply list_elem_of_filter. split; [|done].
    by rewrite Hd, Hh.
Qed.

(** X15: [fetch_ynab_categories] never returns an empty vocabulary; without
    credentials, on an API error or when no usable category is listed it
    returns ["Uncategorized"]; otherwise it returns, in the order of the
    listing, the names of the categories that are neither deleted nor
    hidden and belong to a group that is neither deleted nor hidden. *)
Theorem fetch_categories_spec (credentials : bool)
    (response : res (list category_group)) :
  fetch_ynab_categories credentials response ≠ []
  ∧ (credentials = false ∨ (∃ e, response = Raise e)
     ∨ (∃ groups, response = Ok groups ∧ usable_categories groups = []) →
     fetch_ynab_categories credentials response = [py "Uncategorized"])
  ∧ (∀ groups, credentials = true → response = Ok groups →
       usable_categories groups ≠ [] →
       fetch_ynab_categories credentials response
       = cat_name <$> usable_categories groups
       ∧ ∀ name, name ∈ fetch_ynab_categories credentials response
           ↔ ∃ group cat, group ∈ groups ∧ cat ∈ group_categories group
               ∧ cat_name cat = name
               ∧ group_deleted group = false ∧ group_hidden group = false
               ∧ cat_deleted cat = false ∧ cat_hidden cat = false).
Proof.
  unfold fetch_ynab_categories. split; [|split].
  - destruct credentials; [|done]. destruct response as [groups|]; [|done].
    by destruct (cat_name <$> usable_categories groups).
  - intros [->|[[e ->]|(groups & -> & Hnone)]]; [done| |].
    + by destruct credentials.
    + destruct credentials; [|done]. by rewrite Hnone.
  - intros groups -> -> Hsome.
    assert (fetch_ynab_categories true (Ok groups) = cat_name <$> usable_categories groups)
      as Heq.
    { unfold fetch_ynab_categories.
      destruct (usable_categories groups) as [|c l] eqn:E; done. }
    unfold fetch_ynab_categories in Heq. rewrite Heq. split; [done|].
    intros name. rewrite list_elem_of_fmap. split.
    + intros (cat & -> & Hc). apply usable_categories_elem in Hc as (group & ? & ? & ?).
      exists group, cat. done.
    + intros (group & cat & ? & ? & <- & ?). exists cat. split; [done|].
      apply usable_categories_elem. exists group. done.
Qed.

End VocabularyFacts.

(** ** Duplicates in the ledger *)

Module CleanupFacts.
Import Py Ledger CleanupAmazon.











End CleanupFacts.

(** ** The AI pass of the category matcher *)

Module ApplyAiFacts.
Import Py StrFacts AmazonCsvToYnab.

Section Categorize.
Context `{UnicodeData} `{AiRuntime}.
Variable repr : json -> pystr.

Lemma resolved_items_closed (kvs : list (pystr * json)) (categories : list pystr)
    (acc m : gmap Z pystr) :
  ApplyCsvCategories.resolved_items repr kvs categories acc = Ok m →
  (∀ i c, acc !! i = Some c → c ∈ categories ∨ c = py "Uncategorized") →
  ∀ i c, m !! i = Some c → c ∈ categories ∨ c = py "Uncategorized".
Proof.
  revert acc. induction kvs as [|[k v] kvs IH]; intros acc; simpl.
  - by intros [= <-].
  - destruct (int_of_str k) as [j|]; [|done]. simpl. intros Hm Hacc.
    apply (IH _ Hm). intros i c.
    destruct (decide (j = i)) as [->|Hne].
    + rewrite lookup_insert_eq. intros [= <-].
      apply ResolveMore.resolve_closed_copy.
    + rewrite lookup_insert_ne by done. apply Hacc.
Qed.

(** X17: the mapping [categorize_with_ai] of the matcher returns holds only
    names of the vocabulary or "Uncategorized", whatever the model
    answers; it is empty when the API key is missing, when the request
    raises, when the answer has no content or only white space, when the
    text is not JSON or not an object, and when a key is not an integer. *)
Theorem matcher_ai_closed (memos categories : list pystr) :
  (∀ i c, ApplyCsvCategories.categorize_with_ai repr memos categories !! i = Some c →
     c ∈ categories ∨ c = py "Uncategorized")
  ∧ (api_key = None ∨ api_key = Some []
     ∨ (∃ e, messages_create (slice_to 250 <$> memos) categories = Raise e)
     ∨ messages_create (slice_to 250 <$> memos) categories = Ok []
     ∨ (∃ block rest,
          messages_create (slice_to 250 <$> memos) categories = Ok (block :: rest)
          ∧ (strip (default [] block) = []
             ∨ (∃ e, json_loads (ApplyCsvCategories.extract_json
                                   (strip (default [] block))) = Raise e)
             ∨ (∃ v, json_loads (ApplyCsvCategories.extract_json
                                   (strip (default [] block))) = Ok v
                     ∧ ∀ kvs, v ≠ JDict kvs)
             ∨ (∃ kvs k v e,
                  json_loads (ApplyCsvCategories.extract_json
                                (strip (default [] block))) = Ok (JDict kvs)
                  ∧ (k, v) ∈ kvs ∧ int_of_str k = Raise e))) →
     ApplyCsvCategories.categorize_with_ai repr memos categories = ∅).
Proof.
  split.
  - intros i c. unfold ApplyCsvCategories.categorize_with_ai.
    destruct api_key as [[|? ?]|]; try by rewrite lookup_empty.
    destruct (ApplyCsvCategories.ai_try repr memos categories) as [m|] eqn:E;
      [|by rewrite lookup_empty].
    unfold ApplyCsvCategories.ai_try in E.
    destruct (messages_create _ _) as [[|block rest]|]; try done. simpl in E.
    destruct (strip (default [] block)) as [|x text] eqn:Et.
    { injection E as <-. by rewrite lookup_empty. }
    destruct (json_loads _) as [[| | | | | |kvs]|]; try done. simpl in E.
    eapply resolved_items_closed; [done|]. intros ? ?. by rewrite lookup_empty.
  - unfold ApplyCsvCategories.categorize_with_ai.
    destruct api_key as [[|a key]|] eqn:Ekey; [done| |done].
    intros [?|[?|Hfail]]; [done|done|].
    assert (ApplyCsvCategories.ai_try repr memos categories = Ok ∅
            ∨ ∃ e, ApplyCsvCategories.ai_try repr memos categories = Raise e) as Htry.
    { unfold ApplyCsvCategories.ai_try.
      destruct Hfail as [[e ->]|[->|(block & rest & -> & Hblock)]]; simpl; [eauto..|].
      destruct (strip (default [] block)) as [|x text] eqn:Et; [by left|].
      destruct Hblock as [?|[[e ->]|[(v & -> & Hv)|(kvs & k & v & e & -> & Hin & Hk)]]];
        [done|simpl; eauto| |].
      - simpl. right. destruct v as [| | | | | |kvs]; eauto. by destruct (Hv kvs).
      - simpl. right. clear Et.
        generalize (∅ : gmap Z pystr).
        induction kvs as [|[k' v'] kvs IH]; intros acc; [by apply elem_of_nil in Hin|].
        simpl. apply elem_of_cons in Hin as [[= <- <-]|Hin].
        + rewrite Hk. simpl. eauto.
        + destruct (int_of_str k') as [j|]; simpl; [by apply IH | eauto]. }
    by destruct Htry as [-> | [e ->]].
Qed.
End Categorize.

(** A run in which the model answers item 0 with a name in another case
    and item 1 with a name that is not in the vocabulary. *)
Definition loose_runtime : AiRuntime :=
  {| api_key := Some (py "key");
     messages_create := fun _ _ => Ok [Some (py "{0: wardrobe, 1: Pets}")];
     sub_fence_open := fun t => t;
     sub_fence_close := fun t => t;
     json_loads := fun _ => Ok (JDict [(py "0", JStr (py "wardrobe"));
                                       (py "1", JStr (py "Pets"))]);
     int_of_str := fun k => if str_eqb k (py "0") then Ok 0
                            else if str_eqb k (py "1") then Ok 1
                            else Raise ValueError |}.

Lemma matcher_ai_witness :
  @ApplyCsvCategories.categorize_with_ai latin_emoji loose_runtime (fun _ => [])
     [py "wool socks"; py "dog leash"] [py "Wardrobe"; py "Groceries"] !! 0
  = Some (py "Wardrobe")
  ∧ @ApplyCsvCategories.categorize_with_ai latin_emoji loose_runtime (fun _ => [])
      [py "wool socks"; py "dog leash"] [py "Wardrobe"; py "Groceries"] !! 1
    = Some (py "Uncategorized").
Proof.
  pose proof (proj1 (@matcher_ai_closed latin_emoji loose_runtime (fun _ => [])
                       [py "wool socks"; py "dog leash"]
                       [py "Wardrobe"; py "Groceries"])) as Hclosed.
  split.
  - destruct (Hclosed 0 (py "Wardrobe")) as [_|Hc]; [reflexivity | reflexivity |].
    vm_compute in Hc. discriminate.
  - reflexivity.
Defined.

End ApplyAiFacts.
